(** * Pronunciation tutor: a shallow embedding of [pronunciation_tutor.py]

    The development follows the layout of the script:

    - [Py]     the Python values and built-ins the script relies on
               (JSON values as returned by [resp.json()], comparisons,
               format specifications, [dict.get], [str.strip],
               [str.lower], [int]);
    - [IO]     the interaction of the process with its environment
               (standard input and output, the clock, the files of the
               working directory, the speech service), as an error and
               state monad over an explicit [world];
    - [Tutor]  the script itself, function by function;
    - [Schema] the data model of the assessment payload, with the
               dictionaries that carry it;
    - [Report], [Session], [Samples], [Observe]
               what the lemmas are stated with: the report of a payload,
               the events of the loop, sample worlds and payloads, the
               views of a trace and the ways a statement may end;
    - the properties of the feedback engine and of the session loop;
    - further properties, function by function: the API wrappers, the
      recording placeholder, the feedback engine on any payload, the
      loop as a whole, the menu.

    Conventions.
    - Values are dynamically typed, as in Python: an operation applied to
      a value of the wrong type raises ([TypeError], [AttributeError], ...).
    - A number is an [int] or a [float]; a finite float is carried by its
      rational value, since every comparison of the script is exact.
    - A string is the sequence of its code points, those below 256.
    - A printed line keeps the values it shows, with their format
      specification, rather than their digits.
    - The environment is a script of answers: the lines typed by the
      learner (a finite list, after which [input] raises [EOFError]) and,
      for the service and the file system, a stream of answers consumed
      in order.  Every event is appended to the [trace] of the world.
    - [json.loads], which [resp.json()] applies to the content of a
      response, is a parameter ([Decoder]): the lemmas about the wrappers
      and the loop hold for every decoder; the examples use one that
      knows the sample bodies. *)

From Stdlib Require Import QArith ZArith Lia Ascii.
From stdpp Require Import gmap strings list fin_maps.

Set Warnings "-register-all".

#[local] Open Scope string_scope.
#[local] Open Scope list_scope.
#[local] Open Scope Z_scope.

(* ===================================================================== *)
(** * Python values and built-ins                                         *)
(* ===================================================================== *)

Module Py.

(** A Python [float].  Every finite double is a rational number, and
    Python compares an [int] with a [float] exactly, so the finite
    floats are carried by their rational value. *)
Inductive float :=
| Finite (q : Q)
| PosInf
| NegInf
| NaN.

(** The values [json.loads] builds. *)
Inductive value :=
| VNone
| VBool (b : bool)
| VInt (z : Z)
| VFloat (f : float)
| VStr (s : string)
| VList (l : list value)
| VDict (d : gmap string value).

(** The exception classes that can be raised while the script runs. *)
Inductive exn :=
| TypeError
| AttributeError
| ValueError
| JSONDecodeError          (* a subclass of ValueError *)
| UnicodeDecodeError       (* a subclass of ValueError *)
| OverflowError
| IndexError
| EOFError
| OSError
| HTTPStatusError (status : Z)   (* httpx: a subclass of HTTPError *)
| RequestError.                  (* httpx: transport failures, a subclass of HTTPError *)

(** [isinstance(e, httpx.HTTPError)] *)
Definition is_HTTPError (e : exn) : bool :=
  match e with
  | HTTPStatusError _ | RequestError => true
  | _ => false
  end.

(** [isinstance(e, ValueError)] *)
Definition is_ValueError (e : exn) : bool :=
  match e with
  | ValueError | JSONDecodeError | UnicodeDecodeError => true
  | _ => false
  end.

(** The result of evaluating an expression: a value or a raised exception. *)
Definition result (A : Type) : Type := exn + A.

(** ** Numbers *)

(** The number a value stands for in a comparison: [bool] is a subclass of
    [int], and an [int] is compared with a [float] by its exact value. *)
Definition as_number (v : value) : option float :=
  match v with
  | VBool b => Some (Finite (inject_Z (Z.b2z b)))
  | VInt z => Some (Finite (inject_Z z))
  | VFloat f => Some f
  | _ => None
  end.

Definition Qlt_bool (x y : Q) : bool :=
  match Qcompare x y with Lt => true | _ => false end.

(** [x < y] and [x >= y] on floats; every comparison with [nan] is false. *)
Definition float_lt (x y : float) : bool :=
  match x, y with
  | NaN, _ | _, NaN => false
  | Finite p, Finite q => Qlt_bool p q
  | NegInf, NegInf => false
  | NegInf, _ => true
  | _, PosInf => match x with PosInf => false | _ => true end
  | _, _ => false
  end.

Definition float_ge (x y : float) : bool :=
  match x, y with
  | NaN, _ | _, NaN => false
  | Finite p, Finite q => Qle_bool q p
  | PosInf, _ => true
  | _, NegInf => true
  | _, _ => false
  end.

(** [v < k] and [v >= k] for an integer literal [k]; a value that is not a
    number raises [TypeError]. *)
Definition py_lt (v : value) (k : Z) : result bool :=
  match as_number v with
  | Some x => inr (float_lt x (Finite (inject_Z k)))
  | None => inl TypeError
  end.

Definition py_ge (v : value) (k : Z) : result bool :=
  match as_number v with
  | Some x => inr (float_ge x (Finite (inject_Z k)))
  | None => inl TypeError
  end.

(** ** Format specifications *)

(** The format specifications of the script's f-strings. *)
Inductive fspec :=
| spec_1f          (* [:.1f]  *)
| spec_0f          (* [:.0f]  *)
| spec_5_1f        (* [:>5.1f] *)
| spec_left15.     (* [:<15]  *)

(** A formatted field: the value and the specification it was rendered
    with.  The digits themselves are presentation and are not computed. *)
Record formatted := Formatted { fmt_value : value; fmt_spec : fspec }.

(** An [int] is converted to a double before it is rendered with [f]; the
    conversion overflows from [2^1024 - 2^970] on. *)
Definition float_overflow : Z := 2 ^ 1024 - 2 ^ 970.

Definition fixed_point (s : fspec) : bool :=
  match s with
  | spec_left15 => false
  | _ => true
  end.

(** [format(v, spec)]: the [f] presentation type wants a number, the
    alignment one any of [str], [int], [float], [bool]. *)
Definition py_format (v : value) (s : fspec) : result formatted :=
  match v with
  | VNone | VList _ | VDict _ => inl TypeError
  | VStr _ => if fixed_point s then inl ValueError else inr (Formatted v s)
  | VInt z =>
      if fixed_point s && (float_overflow <=? Z.abs z)
      then inl OverflowError else inr (Formatted v s)
  | VBool _ | VFloat _ => inr (Formatted v s)
  end.

(** ** Dictionaries and iteration *)

(** [d.get(key, default)]; only a [dict] has the method. *)
Definition py_get (d : value) (key : string) (dflt : value) : result value :=
  match d with
  | VDict m => inr (default dflt (m !! key))
  | _ => inl AttributeError
  end.

Definition chars (s : string) : list value :=
  (λ c, VStr (String c EmptyString)) <$> String.list_ascii_of_string s.

(** The items a [for] loop runs over.  A [dict] yields its keys (which are
    strings, whatever their order), a [str] its characters. *)
Definition py_iter (v : value) : result (list value) :=
  match v with
  | VList l => inr l
  | VStr s => inr (chars s)
  | VDict m => inr (VStr <$> (map_to_list m).*1)
  | _ => inl TypeError
  end.

(** Truth value of a list: [if weak_phonemes:] *)
Definition nonempty {A} (l : list A) : bool :=
  match l with [] => false | _ => true end.

(** ** Strings

    A string is the sequence of its code points, here those below 256. *)

Definition code (c : ascii) : Z := Z.of_nat (nat_of_ascii c).

(** [c.isspace()] *)
Definition isspace (c : ascii) : bool :=
  let n := code c in
  ((9 <=? n) && (n <=? 13)) || ((28 <=? n) && (n <=? 32))
  || (n =? 133) || (n =? 160).

Fixpoint lstrip (s : string) : string :=
  match s with
  | String c s' => if isspace c then lstrip s' else s
  | EmptyString => EmptyString
  end.

(** [s.strip()] *)
Definition strip (s : string) : string :=
  String.rev (lstrip (String.rev (lstrip s))).

Definition lower_char (c : ascii) : ascii :=
  let n := code c in
  if ((65 <=? n) && (n <=? 90))
     || ((192 <=? n) && (n <=? 222) && negb (n =? 215))
  then ascii_of_nat (Z.to_nat (n + 32)) else c.

(** [s.lower()] *)
Fixpoint lower (s : string) : string :=
  match s with
  | String c s' => String (lower_char c) (lower s')
  | EmptyString => EmptyString
  end.

(** The C locale's [isspace], which [int] uses once the non-ASCII white
    space has been turned into blanks. *)
Definition c_isspace (c : ascii) : bool :=
  let n := code c in ((9 <=? n) && (n <=? 13)) || (n =? 32).

Definition to_ascii_space (c : ascii) : ascii :=
  let n := code c in
  if (n =? 133) || (n =? 160) then " "%char else c.

Fixpoint lskip (l : list ascii) : list ascii :=
  match l with
  | c :: l' => if c_isspace c then lskip l' else l
  | [] => []
  end.

Definition digit (c : ascii) : option Z :=
  let n := code c in
  if (48 <=? n) && (n <=? 57) then Some (n - 48) else None.

(** The digits of a decimal literal, with single underscores allowed
    between digits: [acc] is the number read so far, [prev_digit] tells
    whether the previous character was a digit. *)
Fixpoint digits (l : list ascii) (acc : Z) (prev_digit : bool) : option Z :=
  match l with
  | [] => if prev_digit then Some acc else None
  | c :: l' =>
      match digit c with
      | Some d => digits l' (10 * acc + d) true
      | None =>
          if (code c =? 95) && prev_digit then digits l' acc false else None
      end
  end.

(** [sys.int_max_str_digits]: CPython converts no string of more digits
    than this to an [int]; the script leaves the default. *)
Definition int_max_str_digits : Z := 4300.

(** [int(s)] in base 10: white space around, a sign, decimal digits with
    single underscores between them.  Anything else raises [ValueError],
    and so does a literal of more than [int_max_str_digits] digits (the
    leading zeros count, the underscores do not). *)
Definition py_int (s : string) : result Z :=
  let l := to_ascii_space <$> String.list_ascii_of_string s in
  let l := reverse (lskip (reverse (lskip l))) in
  let '(sign, l) :=
    match l with
    | "+"%char :: l' => (1, l')
    | "-"%char :: l' => (-1, l')
    | _ => (1, l)
    end in
  match digits l 0 false with
  | Some n =>
      if int_max_str_digits <? Z.of_nat (length (omap digit l))
      then inl ValueError
      else inr (sign * n)
  | None => inl ValueError
  end.

End Py.

Import Py.

(* ===================================================================== *)
(** * The process and its environment                                     *)
(* ===================================================================== *)

Module IO.

(** ** What the script prints

    One constructor for each kind of [print] call of the script.  An
    interpolated field keeps the value that is rendered (with its format
    specification when it has one); the padding and the digits are left
    to the terminal. *)
Inductive line :=
| Text (s : string)                     (* a literal *)
| Blank                                 (* [print()] *)
| TtsError (e : exn)                    (* TTS error: e *)
| RecordingPlaceholder (duration : Q)   (* [Recording placeholder, duration s] *)
| PlaceFileAt (path : string)           (* Place your WAV file at: path *)
| Countdown (remaining : Z)             (* remaining... *)
| FileNotFound (path : string)          (* File not found: path *)
| OverallScore (overall : formatted) (grade : string)
                                        (* Overall Score : overall / 100  (grade) *)
| Target (reference : string)           (* Target        : reference *)
| YouSaid (transcribed : value)         (* You Said      : transcribed *)
| TableHeader                           (* WORD  SCORE  PHONEME DETAILS *)
| TableRule                             (* the dashes under the header *)
| WordRow (word score : formatted)
          (phoneme_parts : list (value * formatted)) (marker : string)
                                        (* word score [ph=ps, ...]marker *)
| FocusLine (phoneme word : value) (score : formatted)
                                        (* - 'phoneme' in 'word' (score: score) *)
| Tip (msg : string)                    (* the closing message *)
| MenuEntry (i : Z) (sentence : string) (* i. sentence *)
| EnterNumber (n : Z)                   (* Please enter a number between 1 and n *)
| TargetSentence (sentence : string)    (* Target: "sentence" *)
| SavedTo (path : string)               (* Reference audio saved to: path *)
| Skipping                              (* Skipping, no recording found. *)
| SttError (e : exn)                    (* STT error: e *)
| AssessmentError (e : exn).            (* Assessment error: e *)

(** ** The speech service *)

(** The JSON body of a request.  The audio is the content of the file; its
    base64 transport encoding is not spelled out. *)
Inductive payload :=
| TtsPayload (text voice : string) (speed : Q) (format : string)
| SttPayload (audio : list Byte.byte) (include_timestamps : bool)
| AssessPayload (audio : list Byte.byte) (text format : string).

(** A request; all of them carry the same [HEADERS] and [TIMEOUT]. *)
Record request := Request { url : string; body : payload }.

(** An HTTP response: [resp.status_code] and [resp.content]. *)
Record response := Response { status_code : Z; content : list Byte.byte }.

(** [json.loads], which [resp.json()] applies to the content of the
    response: the value decoded, or the exception raised
    ([JSONDecodeError] for a text that is not JSON, [UnicodeDecodeError]
    for bytes that are no text, [ValueError] for a number of too many
    digits, ...).  The decoder is a parameter of the script: what is
    proved holds for every function from bodies to results that raises
    none of the exceptions of httpx. *)
Class Decoder := {
  json_loads : list Byte.byte → result value;
  json_loads_raises body e : json_loads body = inl e → is_HTTPError e = false
}.

(** What [httpx.post] does: it returns a response or raises. *)
Inductive post_outcome :=
| Responds (r : response)
| PostRaises (e : exn).

(** ** The world *)

(** Everything the process does, in order. *)
Inductive event :=
| Printed (l : line)
| Prompted (prompt : string) (answer : option string)
| Slept (seconds : Z)
| Posted (req : request) (out : post_outcome)
| Wrote (path : string) (data : list Byte.byte) (done : bool)
| Opened (path : string) (data : option (list Byte.byte))
| Checked (path : string) (present : bool).

(** The future answers of a part of the environment, in the order in which
    they will be asked for. *)
Definition stream (A : Type) : Type := nat → A.
Definition shd {A} (s : stream A) : A := s 0%nat.
Definition stl {A} (s : stream A) : stream A := λ n, s (S n).

(** The world the process runs in: the lines the learner will type, the
    answers the service will give, whether the next paths asked for will
    be there, what the next files opened for reading will hold ([None]
    when they cannot be opened), whether the next files can be written,
    and the events so far. *)
Record world := World {
  stdin : list string;
  service : stream post_outcome;
  present : stream bool;
  readable : stream (option (list Byte.byte));
  writable : stream bool;
  trace : list event
}.

Definition log (e : event) (w : world) : world :=
  World (stdin w) (service w) (present w) (readable w) (writable w)
        (trace w ++ [e]).

(** ** The monad *)

(** How a statement ends: normally, with an exception, or by leaving the
    current iteration of the enclosing loop ([continue], [break]).
    [Diverges] is a loop that was not given enough steps. *)
Inductive outcome (A : Type) :=
| Returns (a : A)
| Raises (e : exn)
| Continue
| Break
| Diverges.
Arguments Returns {A} a.
Arguments Raises {A} e.
Arguments Continue {A}.
Arguments Break {A}.
Arguments Diverges {A}.

Definition M (A : Type) : Type := world → outcome A * world.

Definition run {A} (m : M A) (w : world) : outcome A * world := m w.

Definition ret {A} (a : A) : M A := λ w, (Returns a, w).

Definition bind {A B} (m : M A) (f : A → M B) : M B := λ w,
  match m w with
  | (Returns a, w') => f a w'
  | (Raises e, w') => (Raises e, w')
  | (Continue, w') => (Continue, w')
  | (Break, w') => (Break, w')
  | (Diverges, w') => (Diverges, w')
  end.

Declare Scope io_scope.
Delimit Scope io_scope with io.
Bind Scope io_scope with M.
Notation "x ← y ; z" := (bind y (λ x, z))
  (at level 20, y at level 100, z at level 200, only parsing) : io_scope.
Notation "' x ← y ; z" := (bind y (λ x, z))
  (at level 20, x pattern, y at level 100, z at level 200, only parsing)
  : io_scope.
Notation "x ;; z" := (bind x (λ _, z))
  (at level 100, z at level 200, only parsing, right associativity) : io_scope.
#[local] Open Scope io_scope.

Definition raise {A} (e : exn) : M A := λ w, (Raises e, w).
Definition continue {A} : M A := λ w, (Continue, w).
Definition break {A} : M A := λ w, (Break, w).

(** An expression evaluated for its value. *)
Definition lift {A} (r : result A) : M A :=
  match r with
  | inr a => ret a
  | inl e => raise e
  end.

(** [try: m except C as e: handler e], where [catches] recognises [C]. *)
Definition try_except {A} (m : M A) (catches : exn → bool)
    (handler : exn → M A) : M A := λ w,
  match m w with
  | (Raises e, w') => if catches e then handler e w' else (Raises e, w')
  | r => r
  end.

(** [for x in items: body x] *)
Fixpoint for_ {A} (items : list A) (body : A → M unit) : M unit :=
  match items with
  | [] => ret tt
  | x :: rest => body x;; for_ rest body
  end.

(** A [for] loop whose body updates local variables [s]. *)
Fixpoint for_with {A S} (items : list A) (s : S) (body : S → A → M S) : M S :=
  match items with
  | [] => ret s
  | x :: rest => s' ← body s x; for_with rest s' body
  end.

(** [while True: body], for at most [fuel] iterations. *)
Fixpoint while_true (fuel : nat) (body : M unit) : M unit := λ w,
  match fuel with
  | O => (Diverges, w)
  | S fuel' =>
      match body w with
      | (Returns _, w') | (Continue, w') => while_true fuel' body w'
      | (Break, w') => (Returns tt, w')
      | (Raises e, w') => (Raises e, w')
      | (Diverges, w') => (Diverges, w')
      end
  end.

(** ** Primitives *)

Definition print (l : line) : M unit := λ w, (Returns tt, log (Printed l) w).

(** [input(prompt)]: the next line of standard input, [EOFError] at its end. *)
Definition input (prompt : string) : M string := λ w,
  match stdin w with
  | [] => (Raises EOFError, log (Prompted prompt None) w)
  | l :: rest =>
      (Returns l,
       log (Prompted prompt (Some l))
           (World rest (service w) (present w) (readable w) (writable w)
                  (trace w)))
  end.

(** [time.sleep(seconds)] *)
Definition sleep (seconds : Z) : M unit := λ w,
  (Returns tt, log (Slept seconds) w).

(** [httpx.post(url, headers=HEADERS, json=body, timeout=TIMEOUT)] *)
Definition post (req : request) : M response := λ w,
  let out := shd (service w) in
  let w' := log (Posted req out)
                (World (stdin w) (stl (service w)) (present w) (readable w)
                       (writable w) (trace w)) in
  match out with
  | Responds r => (Returns r, w')
  | PostRaises e => (Raises e, w')
  end.

(** [resp.raise_for_status()]: httpx raises [HTTPStatusError] unless the
    status is a 2xx one. *)
Definition raise_for_status (resp : response) : M unit :=
  if (200 <=? status_code resp) && (status_code resp <=? 299)
  then ret tt else raise (HTTPStatusError (status_code resp)).

(** [resp.json()] *)
Definition resp_json `{!Decoder} (resp : response) : M value :=
  lift (json_loads (content resp)).

(** [with open(path, "wb") as f: f.write(data)] *)
Definition write_file (path : string) (data : list Byte.byte) : M unit := λ w,
  let out := shd (writable w) in
  let w' := log (Wrote path data out)
                (World (stdin w) (service w) (present w) (readable w)
                       (stl (writable w)) (trace w)) in
  if out then (Returns tt, w') else (Raises OSError, w').

(** [with open(path, "rb") as f: f.read()] *)
Definition read_file (path : string) : M (list Byte.byte) := λ w,
  let out := shd (readable w) in
  let w' := log (Opened path out)
                (World (stdin w) (service w) (present w) (stl (readable w))
                       (writable w) (trace w)) in
  match out with
  | Some data => (Returns data, w')
  | None => (Raises OSError, w')
  end.

(** [os.path.exists(path)] *)
Definition path_exists (path : string) : M bool := λ w,
  let out := shd (present w) in
  (Returns out,
   log (Checked path out)
       (World (stdin w) (service w) (stl (present w)) (readable w)
              (writable w) (trace w))).

(** The lines a run has printed. *)
Definition printed (tr : list event) : list line :=
  omap (λ e, match e with Printed l => Some l | _ => None end) tr.

(** The world after [lines] have been printed and nothing else happened. *)
Definition prints (lines : list line) (w : world) : world :=
  World (stdin w) (service w) (present w) (readable w) (writable w)
        (trace w ++ (Printed <$> lines)).

(** A service error: the request failed in transport, or the response does
    not have a success status.  It is what [post] followed by
    [raise_for_status] raises as an [httpx.HTTPError]. *)
Definition service_error (out : post_outcome) : option exn :=
  match out with
  | Responds r =>
      if (200 <=? status_code r) && (status_code r <=? 299) then None
      else Some (HTTPStatusError (status_code r))
  | PostRaises e => if is_HTTPError e then Some e else None
  end.

(** A statement that only prints: whatever the world, it ends the same
    way and adds the same lines to the output, and it neither reads nor
    changes anything else. *)
Definition print_only {A} (m : M A) : Prop :=
  ∃ out lines, ∀ w, run m w = (out, prints lines w).

(** A statement that ends within the steps it is given and types nothing
    on the standard input: the lines left to read can only get fewer. *)
Definition tame {A} (m : M A) : Prop :=
  ∀ w, (run m w).1 ≠ Diverges
       ∧ (length (stdin (run m w).2) ≤ length (stdin w))%nat.

End IO.

Import IO.
#[local] Open Scope io_scope.

(* ===================================================================== *)
(** * The script                                                          *)
(* ===================================================================== *)

Module Tutor.

(** ** Configuration *)

Definition BASE_URL : string := "https://apim-ai-apis.azure-api.net".

(** Practice sentences ordered by difficulty *)
Definition SENTENCES : list string :=
  [ "Hello, how are you?";
    "The weather is nice today.";
    "She sells seashells by the seashore.";
    "I would like a cup of coffee, please.";
    "The quick brown fox jumps over the lazy dog.";
    "Peter Piper picked a peck of pickled peppers.";
    "How much wood would a woodchuck chuck if a woodchuck could chuck wood?" ].

(** ** Small pieces of Python *)

(** The newline character of a string literal. *)
Definition nl : string := String (ascii_of_nat 10) EmptyString.

(** [s * n] *)
Fixpoint times (s : string) (n : nat) : string :=
  match n with
  | O => EmptyString
  | S n' => s +:+ times s n'
  end.

Definition len {A} (l : list A) : Z := Z.of_nat (length l).

(** [l[i]], with Python's negative indices *)
Definition py_index {A} (l : list A) (i : Z) : result A :=
  let j := if i <? 0 then len l + i else i in
  if j <? 0 then inl IndexError
  else match l !! Z.to_nat j with
       | Some x => inr x
       | None => inl IndexError
       end.

(** [enumerate(l, start)] *)
Fixpoint enumerate {A} (start : Z) (l : list A) : list (Z * A) :=
  match l with
  | [] => []
  | x :: rest => (start, x) :: enumerate (start + 1) rest
  end.

(** [int(x)] of a float: truncation towards zero *)
Definition trunc (x : Q) : Z := Z.quot (Qnum x) (Z.pos (Qden x)).

(** [range(n, 0, -1)] *)
Definition range_down (n : Z) : list Z :=
  (λ k, n - Z.of_nat k) <$> seq 0 (Z.to_nat n).

(** ** API wrappers *)

(** [tts_synthesize] (lines 61-76): generate speech audio from text and
    save to file.  The default arguments are given by the caller. *)
Definition tts_synthesize (text output_path voice : string) (speed : Q)
    : M bool :=
  try_except
    (resp ← post (Request (BASE_URL +:+ "/tts/synthesize")
                          (TtsPayload text voice speed "wav"));
     raise_for_status resp;;
     write_file output_path (content resp);;
     ret true)
    is_HTTPError
    (λ e, print (TtsError e);; ret false).

(** [stt_transcribe] (lines 79-91): transcribe an audio file to text with
    timestamps. *)
Definition stt_transcribe `{!Decoder} (audio_path : string) : M value :=
  audio ← read_file audio_path;
  resp ← post (Request (BASE_URL +:+ "/stt/transcribe/base64")
                       (SttPayload audio true));
  raise_for_status resp;;
  resp_json resp.

(** [pronunciation_assess] (lines 94-106): score pronunciation accuracy
    against a reference text. *)
Definition pronunciation_assess `{!Decoder}
    (audio_path reference_text : string) : M value :=
  audio ← read_file audio_path;
  resp ← post (Request (BASE_URL +:+ "/pronunciation/assess/base64")
                       (AssessPayload audio reference_text "wav"));
  raise_for_status resp;;
  resp_json resp.

(** ** Recording placeholder *)

(** [record_audio] (lines 113-142): the countdown, the prompt, then the
    check that the file is there. *)
Definition record_audio (output_path : string) (duration : Q) : M bool :=
  print (RecordingPlaceholder duration);;
  print (PlaceFileAt output_path);;
  print (Text "  Then press Enter to continue...");;
  for_ (range_down (trunc duration))
       (λ remaining, print (Countdown remaining);; sleep 1);;
  print Blank;;
  _ ← input "  Press Enter when your recording is ready > ";
  there ← path_exists output_path;
  if negb there then
    print (FileNotFound output_path);;
    ret false
  else ret true.

(** ** Feedback engine *)

(** The closing messages. *)
Definition tip_harder : string :=
  nl +:+ "  Great job! Try a harder sentence.".
Definition tip_starred : string :=
  nl +:+ "  Good progress! Focus on the starred (*) words above.".
Definition tip_slowly : string :=
  nl +:+ "  Tip: Listen to the reference audio again, then try speaking more slowly.".

(** The body of [for p in phonemes] (lines 190-195); [word] is the word of
    the row, the local lists are [phoneme_parts] and [weak_phonemes]. *)
Definition phoneme_step (word : value)
    (locals : list (value * formatted) * list (value * value * value))
    (p : value)
    : M (list (value * formatted) * list (value * value * value)) :=
  let '(phoneme_parts, weak_phonemes) := locals in
  ph ← lift (py_get p "phoneme" (VStr EmptyString));
  ps ← lift (py_get p "score" (VInt 0));
  part ← lift (py_format ps spec_0f);
  let phoneme_parts := phoneme_parts ++ [(ph, part)] in
  low ← lift (py_lt ps 60);
  if low then ret (phoneme_parts, weak_phonemes ++ [(word, ph, ps)])
  else ret (phoneme_parts, weak_phonemes).

(** The body of [for w in words] (lines 181-198); the local list is
    [weak_phonemes]. *)
Definition word_step (weak_phonemes : list (value * value * value))
    (w : value) : M (list (value * value * value)) :=
  word ← lift (py_get w "word" (VStr EmptyString));
  score ← lift (py_get w "score" (VInt 0));
  phonemes ← lift (py_get w "phonemes" (VList []));
  (* Mark words that need attention *)
  low ← lift (py_lt score 70);
  let marker := if low then " *" else EmptyString in
  items ← lift (py_iter phonemes);
  '(phoneme_parts, weak_phonemes) ←
    for_with items ([], weak_phonemes) (phoneme_step word);
  fword ← lift (py_format word spec_left15);
  fscore ← lift (py_format score spec_5_1f);
  print (WordRow fword fscore phoneme_parts marker);;
  ret weak_phonemes.

(** Overall score with emoji-free grade: the chain that assigns [grade]
    (lines 160-169). *)
Definition grade_of (overall : value) : M string :=
  c ← lift (py_ge overall 90);
  if c then ret "Excellent" else
  c ← lift (py_ge overall 75);
  if c then ret "Good" else
  c ← lift (py_ge overall 60);
  if c then ret "Fair" else
  c ← lift (py_ge overall 40);
  if c then ret "Needs Work" else
  ret "Keep Practicing".

(** The chain that prints the closing message (lines 206-211). *)
Definition closing_tip (overall : value) : M unit :=
  c ← lift (py_ge overall 90);
  if c then print (Tip tip_harder) else
  c ← lift (py_ge overall 70);
  if c then print (Tip tip_starred) else
  print (Tip tip_slowly).

(** [print_feedback] (lines 149-213): print detailed pronunciation feedback
    with coaching tips. *)
Definition print_feedback (assessment transcription : value)
    (reference : string) : M unit :=
  overall ← lift (py_get assessment "overallScore" (VInt 0));
  words ← lift (py_get assessment "words" (VList []));
  transcribed ← lift (py_get transcription "text" (VStr EmptyString));
  print (Text (nl +:+ times "=" 60));;
  print (Text "  PRONUNCIATION REPORT");;
  print (Text (times "=" 60));;
  (* Overall score with emoji-free grade *)
  grade ← grade_of overall;
  foverall ← lift (py_format overall spec_1f);
  print (OverallScore foverall grade);;
  print (Target reference);;
  print (YouSaid transcribed);;
  (* Per-word breakdown *)
  print TableHeader;;
  print TableRule;;
  items ← lift (py_iter words);
  weak_phonemes ← for_with items [] word_step;
  (* Coaching tips *)
  (if nonempty weak_phonemes then
     print (Text (nl +:+ "  FOCUS AREAS:"));;
     for_ weak_phonemes
          (λ '(word, phoneme, score),
             fscore ← lift (py_format score spec_0f);
             print (FocusLine phoneme word fscore))
   else ret tt);;
  closing_tip overall;;
  print Blank.

(** ** Main loop

    The body of [while True] is cut where the script's own comments cut
    it: the choice of a sentence, then steps 1 to 5.  [continue] and
    [break] leave the whole body, whichever step they occur in. *)

(** The choice of a sentence, up to the line that shows the target
    (lines 231-247). *)
Definition pick_sentence : M string :=
  print Blank;;
  line ← input "Pick a sentence number (or 'q' to quit) > ";
  let choice := strip line in
  (if bool_decide (lower choice ∈ ["q"; "quit"; "exit"]) then
     print (Text (nl +:+ "Keep practicing! Goodbye." +:+ nl));;
     break
   else ret tt);;
  idx ← try_except
          (n ← lift (py_int choice);
           let idx := n - 1 in
           if (idx <? 0) || (idx >=? len SENTENCES)
           then raise ValueError else ret idx)
          is_ValueError
          (λ _, print (EnterNumber (len SENTENCES));;
                continue);
  sentence ← lift (py_index SENTENCES idx);
  print (TargetSentence sentence);;
  ret sentence.

Definition ref_audio : string := "reference_audio.wav".
Definition user_audio : string := "user_recording.wav".

(** Step 1: Generate reference audio with TTS (lines 249-256) *)
Definition generate_reference (sentence : string) : M unit :=
  print (Text (nl +:+ "  Step 1: Generating reference audio..."));;
  ok ← tts_synthesize sentence ref_audio "af_heart" (9 # 10);
  if ok then
    print (SavedTo ref_audio);;
    print (Text "  (Play this file to hear the correct pronunciation)")
  else
    print (Text "  Could not generate reference audio. Continuing anyway...").

(** Step 2: Record the learner's attempt (lines 258-263) *)
Definition record_attempt : M unit :=
  print (Text (nl +:+ "  Step 2: Record yourself saying the sentence."));;
  recorded ← record_audio user_audio 5;
  if negb recorded then
    print Skipping;;
    continue
  else ret tt.

(** Step 3: Transcribe what was said (lines 265-271) *)
Definition transcribe `{!Decoder} : M value :=
  print (Text (nl +:+ "  Step 3: Transcribing your recording..."));;
  try_except
    (stt_transcribe user_audio)
    is_HTTPError
    (λ e, print (SttError e);;
          continue).

(** Step 4: Assess pronunciation (lines 273-279) *)
Definition assess `{!Decoder} (sentence : string) : M value :=
  print (Text "  Step 4: Scoring pronunciation...");;
  try_except
    (pronunciation_assess user_audio sentence)
    is_HTTPError
    (λ e, print (AssessmentError e);;
          continue).

(** The body of [while True] (lines 231-282); step 5 shows the feedback. *)
Definition main_iteration `{!Decoder} : M unit :=
  sentence ← pick_sentence;
  generate_reference sentence;;
  record_attempt;;
  transcription ← transcribe;
  assessment ← assess sentence;
  print_feedback assessment transcription sentence.

(** [main()] (lines 220-282), whose loop is given [fuel] iterations;
    lemma [main_ends] shows that one more than the number of lines on the
    standard input is enough for it to end. *)
Definition main `{!Decoder} (fuel : nat) : M unit :=
  print (Text (times "=" 60));;
  print (Text "  PRONUNCIATION TUTOR");;
  print (Text "  Practice your English pronunciation with AI feedback");;
  print (Text (times "=" 60));;
  print (Text (nl +:+ "Available sentences:" +:+ nl));;
  for_ (enumerate 1 SENTENCES) (λ '(i, sentence), print (MenuEntry i sentence));;
  while_true fuel main_iteration.

End Tutor.

Import Tutor.

(* ===================================================================== *)
(** * The data model of the payloads                                      *)
(* ===================================================================== *)

Module Schema.

(** A JSON number, as Python reads it. *)
Inductive num :=
| Int (z : Z)
| Float (f : float).

Definition num_value (n : num) : value :=
  match n with
  | Int z => VInt z
  | Float f => VFloat f
  end.

(** The payload of the assessment service.  Every field may be missing
    ([None]); [*_other] holds the keys the feedback engine does not read. *)
Record PhonemeScore := {
  ph_phoneme : option string;
  ph_score : option num;
  ph_other : gmap string value
}.

Record WordScore := {
  ws_word : option string;
  ws_score : option num;
  ws_phonemes : option (list PhonemeScore);
  ws_other : gmap string value
}.

Record AssessmentResult := {
  ar_overallScore : option num;
  ar_words : option (list WordScore);
  ar_other : gmap string value
}.

(** The dictionaries that carry them. *)
Definition field (key : string) (v : option value) (d : gmap string value)
    : gmap string value :=
  match v with
  | Some x => <[key := x]> d
  | None => delete key d
  end.

Definition phoneme_dict (p : PhonemeScore) : value :=
  VDict (field "phoneme" (VStr <$> ph_phoneme p)
        (field "score" (num_value <$> ph_score p) (ph_other p))).

Definition word_dict (w : WordScore) : value :=
  VDict (field "word" (VStr <$> ws_word w)
        (field "score" (num_value <$> ws_score w)
        (field "phonemes"
               ((λ l, VList (phoneme_dict <$> l)) <$> ws_phonemes w)
               (ws_other w)))).

Definition assessment_dict (a : AssessmentResult) : value :=
  VDict (field "overallScore" (num_value <$> ar_overallScore a)
        (field "words" ((λ l, VList (word_dict <$> l)) <$> ar_words a)
               (ar_other a))).

(** What a missing field is read as. *)
Definition score_or_0 (s : option num) : num := default (Int 0) s.
Definition name_or_empty (s : option string) : string := default EmptyString s.
Definition list_or_empty {A} (l : option (list A)) : list A := default [] l.

Definition overall (a : AssessmentResult) : num := score_or_0 (ar_overallScore a).
Definition words (a : AssessmentResult) : list WordScore := list_or_empty (ar_words a).
Definition word (w : WordScore) : string := name_or_empty (ws_word w).
Definition score (w : WordScore) : num := score_or_0 (ws_score w).
Definition phonemes (w : WordScore) : list PhonemeScore := list_or_empty (ws_phonemes w).
Definition phoneme (p : PhonemeScore) : string := name_or_empty (ph_phoneme p).
Definition pscore (p : PhonemeScore) : num := score_or_0 (ph_score p).

(** ** The order on scores *)

(** [k <= x] and [x < k] for an integer bound [k]: the order of the
    rationals, extended to the infinities; nothing is related to [nan]. *)
Definition ge (x : num) (k : Z) : Prop :=
  match x with
  | Int z => k ≤ z
  | Float (Finite q) => (inject_Z k <= q)%Q
  | Float PosInf => True
  | Float NegInf | Float NaN => False
  end.

Definition lt (x : num) (k : Z) : Prop :=
  match x with
  | Int z => z < k
  | Float (Finite q) => (q < inject_Z k)%Q
  | Float NegInf => True
  | Float PosInf | Float NaN => False
  end.

#[export] Instance ge_dec x k : Decision (ge x k).
Proof.
  destruct x as [z|[q| | |]]; simpl; try apply _.
  destruct (Qlt_le_dec q (inject_Z k)); [right|left]; [by apply Qlt_not_le|done].
Defined.

#[export] Instance lt_dec x k : Decision (lt x k).
Proof.
  destruct x as [z|[q| | |]]; simpl; try apply _.
  destruct (Qlt_le_dec q (inject_Z k)); [left|right]; [done|by apply Qle_not_lt].
Defined.

(** A score that the [f] presentation type can render: an [int] has to fit
    a double. *)
Definition renderable (x : num) : Prop :=
  match x with
  | Int z => Z.abs z < float_overflow
  | Float _ => True
  end.

Definition renderable_word (w : WordScore) : Prop :=
  renderable (score w) ∧ Forall (λ p, renderable (pscore p)) (phonemes w).

Definition renderable_assessment (a : AssessmentResult) : Prop :=
  renderable (overall a) ∧ Forall renderable_word (words a).

(** ** The report *)

Inductive grade := Excellent | Good | Fair | NeedsWork | KeepPracticing.

Definition grade_name (g : grade) : string :=
  match g with
  | Excellent => "Excellent"
  | Good => "Good"
  | Fair => "Fair"
  | NeedsWork => "Needs Work"
  | KeepPracticing => "Keep Practicing"
  end.

(** The parts of a report, read off the printed lines: the grade of the
    overall score line, the rows of the table with their flag, the focus
    areas, the closing message. *)
Definition grades (lines : list line) : list string :=
  omap (λ l, match l with OverallScore _ g => Some g | _ => None end) lines.

Definition per_word (lines : list line) : list (value * value * bool) :=
  omap (λ l, match l with
             | WordRow w s _ marker =>
                 Some (fmt_value w, fmt_value s, bool_decide (marker = " *"))
             | _ => None
             end) lines.

Definition weak_phonemes (lines : list line) : list (value * value * value) :=
  omap (λ l, match l with
             | FocusLine ph w s => Some (w, ph, fmt_value s)
             | _ => None
             end) lines.

Definition closing_tips (lines : list line) : list string :=
  omap (λ l, match l with Tip msg => Some msg | _ => None end) lines.

End Schema.

Import Schema.

(* ===================================================================== *)
(** * The report of a well-formed assessment                              *)
(* ===================================================================== *)

Module Report.

(** The summary of what [print_feedback] prints for a payload that follows
    the data model; the lemmas of section [Feedback] below establish it. *)

Definition band (x : num) : grade :=
  if decide (ge x 90) then Excellent
  else if decide (ge x 75) then Good
  else if decide (ge x 60) then Fair
  else if decide (ge x 40) then NeedsWork
  else KeepPracticing.

Definition tip (x : num) : string :=
  if decide (ge x 90) then tip_harder
  else if decide (ge x 70) then tip_starred
  else tip_slowly.

Definition flagged (w : WordScore) : bool := bool_decide (lt (score w) 70).

Definition weak (p : PhonemeScore) : bool := bool_decide (lt (pscore p) 60).

Definition parts (ps : list PhonemeScore) : list (value * formatted) :=
  (λ p, (VStr (phoneme p), Formatted (num_value (pscore p)) spec_0f)) <$> ps.

Definition row (w : WordScore) : line :=
  WordRow (Formatted (VStr (word w)) spec_left15)
          (Formatted (num_value (score w)) spec_5_1f)
          (parts (phonemes w))
          (if flagged w then " *" else EmptyString).

(** The weak phonemes of a word, in the order of its phonemes, and those
    of a list of words, word after word. *)
Definition weak_of (w : WordScore) : list (string * string * num) :=
  (λ p, (word w, phoneme p, pscore p)) <$> List.filter weak (phonemes w).

Definition weak_triples (ws : list WordScore) : list (string * string * num) :=
  flat_map weak_of ws.

Definition triple_value (t : string * string * num) : value * value * value :=
  let '(w, ph, s) := t in (VStr w, VStr ph, num_value s).

Definition focus_line (t : value * value * value) : line :=
  let '(w, ph, s) := t in FocusLine ph w (Formatted s spec_0f).

Definition focus_areas (ts : list (value * value * value)) : list line :=
  if nonempty ts then Text (nl +:+ "  FOCUS AREAS:") :: (focus_line <$> ts)
  else [].

Definition report (a : AssessmentResult) (t : gmap string value)
    (reference : string) : list line :=
  [ Text (nl +:+ times "=" 60);
    Text "  PRONUNCIATION REPORT";
    Text (times "=" 60);
    OverallScore (Formatted (num_value (overall a)) spec_1f)
                 (grade_name (band (overall a)));
    Target reference;
    YouSaid (default (VStr EmptyString) (t !! "text"));
    TableHeader;
    TableRule ]
  ++ (row <$> words a)
  ++ focus_areas (triple_value <$> weak_triples (words a))
  ++ [ Tip (tip (overall a)); Blank ].

End Report.

Import Report.

(* ===================================================================== *)
(** * The events of the loop                                              *)
(* ===================================================================== *)

Module Session.

Definition pick_prompt : string := "Pick a sentence number (or 'q' to quit) > ".

(** The world once the line [line] has been read at the prompt. *)
Definition picked (line : string) (rest : list string) (w : world) : world :=
  World rest (service w) (present w) (readable w) (writable w)
        (trace w ++ [Printed Blank; Prompted pick_prompt (Some line)]).

(** The events of the recording step up to the prompt. *)
Definition recording_events (answer : string) : list event :=
  [ Printed (Text (nl +:+ "  Step 2: Record yourself saying the sentence."));
    Printed (RecordingPlaceholder 5);
    Printed (PlaceFileAt user_audio);
    Printed (Text "  Then press Enter to continue...");
    Printed (Countdown 5); Slept 1;
    Printed (Countdown 4); Slept 1;
    Printed (Countdown 3); Slept 1;
    Printed (Countdown 2); Slept 1;
    Printed (Countdown 1); Slept 1;
    Printed Blank;
    Prompted "  Press Enter when your recording is ready > " (Some answer) ].

End Session.

Import Session.

(* ===================================================================== *)
(** * Sample inputs                                                       *)
(* ===================================================================== *)

Module Samples.

(** A world in which nobody types, the service is unreachable and no file
    is there. *)
Definition quiet : world :=
  World [] (λ _, PostRaises RequestError) (λ _, false) (λ _, None)
        (λ _, false) [].

Definition fox_sentence : string :=
  "The quick brown fox jumps over the lazy dog.".

(** The assessment of the end-to-end scenario: overall 92, one word "fox"
    scored 95, with the phonemes "f" (98) and "ks" (55). *)
Definition fox : AssessmentResult :=
  {| ar_overallScore := Some (Int 92);
     ar_words :=
       Some [ {| ws_word := Some "fox";
                 ws_score := Some (Int 95);
                 ws_phonemes :=
                   Some [ {| ph_phoneme := Some "f"; ph_score := Some (Int 98);
                             ph_other := ∅ |};
                          {| ph_phoneme := Some "ks"; ph_score := Some (Int 55);
                             ph_other := ∅ |} ];
                 ws_other := ∅ |} ];
     ar_other := ∅ |}.

(** An assessment without any field. *)
Definition blank : AssessmentResult :=
  {| ar_overallScore := None; ar_words := None; ar_other := ∅ |}.

(** The answers of a part of the environment: those of the list, then
    [dflt] for ever. *)
Definition script {A} (answers : list A) (dflt : A) : stream A :=
  λ n, default dflt (answers !! n).

Definition wav : list Byte.byte := [Byte.x52; Byte.x49; Byte.x46; Byte.x46].

(** Answers of the service. *)
Definition audio_reply : post_outcome := Responds (Response 200 wav).
Definition json_reply (body : list Byte.byte) : post_outcome :=
  Responds (Response 200 body).
Definition unavailable : post_outcome := Responds (Response 503 []).

(** A transcription, and the JSON texts of it and of the assessment
    [fox], as the service sends them. *)
Definition heard : value := VDict {[ "text" := VStr "The quick brown fox" ]}.

Definition quoted (s : string) : string :=
  String (ascii_of_nat 34) s +:+ String (ascii_of_nat 34) EmptyString.

Definition heard_text : string :=
  "{" +:+ quoted "text" +:+ ": " +:+ quoted "The quick brown fox" +:+ "}".

Definition fox_text : string :=
  "{" +:+ quoted "overallScore" +:+ ": 92, " +:+ quoted "words" +:+ ": [{"
  +:+ quoted "word" +:+ ": " +:+ quoted "fox" +:+ ", "
  +:+ quoted "score" +:+ ": 95, " +:+ quoted "phonemes" +:+ ": [{"
  +:+ quoted "phoneme" +:+ ": " +:+ quoted "f" +:+ ", "
  +:+ quoted "score" +:+ ": 98}, {"
  +:+ quoted "phoneme" +:+ ": " +:+ quoted "ks" +:+ ", "
  +:+ quoted "score" +:+ ": 55}]}]}".

Definition heard_body : list Byte.byte := String.list_byte_of_string heard_text.
Definition fox_body : list Byte.byte := String.list_byte_of_string fox_text.

(** A page of HTML, and four bytes that are not UTF-8. *)
Definition html_body : list Byte.byte :=
  String.list_byte_of_string "<html><body>Bad Gateway</body></html>".
Definition not_utf8 : list Byte.byte := [Byte.x80; Byte.x61; Byte.x62; Byte.x63].

(** A decoder for the examples: it knows the bodies above, and takes
    every other body for a text that is not JSON. *)
Definition sample_loads (body : list Byte.byte) : result value :=
  let text := String.string_of_list_byte body in
  if String.eqb text heard_text then inr heard
  else if String.eqb text fox_text then inr (assessment_dict fox)
  else if String.eqb text (String.string_of_list_byte not_utf8)
       then inl UnicodeDecodeError
  else inl JSONDecodeError.

Definition sample_decoder : Decoder.
Proof.
  refine {| json_loads := sample_loads |}.
  intros body e. unfold sample_loads.
  repeat destruct (String.eqb _ _); intros [= <-]; reflexivity.
Defined.

(** The learner picks sentence 5 and presses Enter once the recording is
    there; the files can be read and written. *)
Definition session (stdin : list string) (service : list post_outcome)
    (recorded : bool) : world :=
  World stdin (script service (PostRaises RequestError))
        (script [recorded] false) (script [Some wav; Some wav] None)
        (script [true] false) [].

(** The transcription service is down. *)
Definition stt_down : world :=
  session ["5"; EmptyString] [audio_reply; unavailable] true.

(** The assessment service is down. *)
Definition assess_down : world :=
  session ["5"; EmptyString] [audio_reply; json_reply heard_body] true.

(** The synthesis service is down, the other two answer. *)
Definition tts_down : world :=
  session ["5"; EmptyString]
          [unavailable; json_reply heard_body; json_reply fox_body] true.

(** No recording is found. *)
Definition no_recording : world :=
  session ["5"; EmptyString] [audio_reply] false.

End Samples.

Import Samples.

(* ===================================================================== *)
(** * What a run shows                                                    *)
(* ===================================================================== *)

Module Observe.

(** How a statement ends, whatever it returns. *)
Inductive ending :=
| Returned
| Raised (e : exn)
| Continued
| Broke
| Diverged.

Definition ending_of {A} (o : outcome A) : ending :=
  match o with
  | Returns _ => Returned
  | Raises e => Raised e
  | Continue => Continued
  | Break => Broke
  | Diverges => Diverged
  end.

(** A statement all of whose runs end as [P] allows. *)
Definition ends {A} (P : ending → Prop) (m : M A) : Prop :=
  ∀ w, P (ending_of (run m w).1).

(** The seconds slept, the numbers counted down, the files written (with
    success), the requests sent and the files opened, in a list of events. *)
Definition slept (tr : list event) : Z :=
  foldr (λ e total, match e with Slept s => s + total | _ => total end) 0 tr.

Definition countdowns (tr : list event) : list Z :=
  omap (λ e, match e with Printed (Countdown r) => Some r | _ => None end) tr.

Definition written (tr : list event) : list (string * list Byte.byte) :=
  omap (λ e, match e with Wrote p d true => Some (p, d) | _ => None end) tr.

Definition requests (tr : list event) : list request :=
  omap (λ e, match e with Posted req _ => Some req | _ => None end) tr.

Definition opened (tr : list event) : list string :=
  omap (λ e, match e with Opened p _ => Some p | _ => None end) tr.

(** The events of a countdown over the numbers [l]. *)
Definition ticks (l : list Z) : list event :=
  flat_map (λ r, [Printed (Countdown r); Slept 1]) l.

(** The phonemes a row of the report shows, with their scores. *)
Definition row_phonemes (lines : list line) : list (list (value * value)) :=
  omap (λ l, match l with
             | WordRow _ _ parts _ =>
                 Some ((λ part : value * formatted,
                          (part.1, fmt_value part.2)) <$> parts)
             | _ => None
             end) lines.

(** The exceptions that the built-ins of [print_feedback] raise. *)
Definition is_type_error (e : exn) : Prop :=
  e = TypeError ∨ e = AttributeError ∨ e = ValueError ∨ e = OverflowError.

(** How [print_feedback] may end: it returns, or raises one of the
    exceptions of its built-ins. *)
Definition feedback_ending (k : ending) : Prop :=
  k = Returned ∨ ∃ e, k = Raised e ∧ is_type_error e.

(** An ending that is not a service error raised to the caller. *)
Definition no_service_error (k : ending) : Prop :=
  ∀ e, k = Raised e → is_HTTPError e = false.

(** How a step of the loop body may end: normally, with [continue], or
    with an exception that is not a service error. *)
Definition step_ending (k : ending) : Prop :=
  k ≠ Broke ∧ k ≠ Diverged ∧ no_service_error k.

(** ** More sample worlds *)

(** A scripted world: the answers of each part of the environment. *)
Definition world_with (stdin : list string) (service : list post_outcome)
    (present : list bool) (readable : list (option (list Byte.byte)))
    (writable : list bool) : world :=
  World stdin (script service (PostRaises RequestError)) (script present false)
        (script readable None) (script writable false) [].

(** A success status with a body that is not JSON. *)
Definition html_reply : post_outcome := json_reply html_body.

(** The three services answer and the recording is there. *)
Definition happy : world :=
  session ["5"; EmptyString]
          [audio_reply; json_reply heard_body; json_reply fox_body] true.

(** The reference audio cannot be written. *)
Definition disk_full : world :=
  world_with ["5"; EmptyString] [audio_reply] [true] [Some wav] [false].

(** The recording is found but cannot be opened. *)
Definition unreadable : world :=
  world_with ["5"; EmptyString] [audio_reply] [true] [None] [true].

(** The transcription service answers 200 with a page of HTML. *)
Definition stt_garbled : world :=
  session ["5"; EmptyString] [audio_reply; html_reply] true.

(** The assessment service answers 200 with bytes that are not UTF-8. *)
Definition assess_not_utf8 : world :=
  session ["5"; EmptyString]
          [audio_reply; json_reply heard_body; json_reply not_utf8] true.

End Observe.

Import Observe.

(* ===================================================================== *)
(** * Running statements                                                  *)
(* ===================================================================== *)

Section Running.

Lemma run_bind {A B} (m : M A) (k : A → M B) w :
  run (bind m k) w =
  match run m w with
  | (Returns a, w') => run (k a) w'
  | (Raises e, w') => (Raises e, w')
  | (Continue, w') => (Continue, w')
  | (Break, w') => (Break, w')
  | (Diverges, w') => (Diverges, w')
  end.
Proof. reflexivity. Qed.

Lemma run_bind_returns {A B} (m : M A) (k : A → M B) w a w' :
  run m w = (Returns a, w') → run (bind m k) w = run (k a) w'.
Proof. intros H. rewrite run_bind, H. reflexivity. Qed.

Lemma run_bind_continue {A B} (m : M A) (k : A → M B) w w' :
  run m w = (Continue, w') → run (bind m k) w = (Continue, w').
Proof. intros H. rewrite run_bind, H. reflexivity. Qed.

Lemma run_bind_break {A B} (m : M A) (k : A → M B) w w' :
  run m w = (Break, w') → run (bind m k) w = (Break, w').
Proof. intros H. rewrite run_bind, H. reflexivity. Qed.

Lemma prints_nil w : prints [] w = w.
Proof. destruct w. unfold prints. simpl. by rewrite app_nil_r. Qed.

Lemma prints_app l1 l2 w : prints (l1 ++ l2) w = prints l2 (prints l1 w).
Proof. unfold prints. simpl. by rewrite fmap_app, app_assoc. Qed.

Lemma prints_cons l lines w : prints (l :: lines) w = prints lines (prints [l] w).
Proof. apply (prints_app [l]). Qed.

Lemma run_print l w : run (print l) w = (Returns tt, prints [l] w).
Proof. reflexivity. Qed.

Lemma printed_app tr1 tr2 : printed (tr1 ++ tr2) = printed tr1 ++ printed tr2.
Proof. apply omap_app. Qed.

Lemma printed_Printed lines : printed (Printed <$> lines) = lines.
Proof.
  unfold printed. induction lines as [|l lines IH]; [done|].
  rewrite fmap_cons. csimpl. f_equal. exact IH.
Qed.

Lemma print_only_ret {A} (a : A) : print_only (ret a).
Proof. exists (Returns a), []. intros w. by rewrite prints_nil. Qed.

Lemma print_only_raise {A} e : print_only (@raise A e).
Proof. exists (Raises e), []. intros w. by rewrite prints_nil. Qed.

Lemma print_only_lift {A} (r : result A) : print_only (lift r).
Proof. destruct r; [apply print_only_raise | apply print_only_ret]. Qed.

Lemma print_only_print l : print_only (print l).
Proof. exists (Returns tt), [l]. intros w. apply run_print. Qed.

Lemma print_only_bind {A B} (m : M A) (k : A → M B) :
  print_only m → (∀ a, print_only (k a)) → print_only (bind m k).
Proof.
  intros (out & lines & Hm) Hk.
  destruct out as [a|e| | |].
  - destruct (Hk a) as (out' & lines' & Hka).
    exists out', (lines ++ lines'). intros w.
    by rewrite run_bind, Hm, Hka, prints_app.
  - exists (Raises e), lines. intros w. by rewrite run_bind, Hm.
  - exists Continue, lines. intros w. by rewrite run_bind, Hm.
  - exists Break, lines. intros w. by rewrite run_bind, Hm.
  - exists Diverges, lines. intros w. by rewrite run_bind, Hm.
Qed.

Lemma print_only_for_with {A S} (items : list A) (s : S) body :
  (∀ s x, print_only (body s x)) → print_only (for_with items s body).
Proof.
  intros Hbody. revert s.
  induction items as [|x items IH]; intros s; simpl.
  - apply print_only_ret.
  - apply print_only_bind; auto.
Qed.

Lemma print_only_for {A} (items : list A) body :
  (∀ x, print_only (body x)) → print_only (for_ items body).
Proof.
  intros Hbody.
  induction items as [|x items IH]; simpl.
  - apply print_only_ret.
  - apply print_only_bind; auto.
Qed.

End Running.

Ltac print_only :=
  repeat first
    [ apply print_only_ret
    | apply print_only_raise
    | apply print_only_lift
    | apply print_only_print
    | apply print_only_for_with; intros
    | apply print_only_for; intros
    | apply print_only_bind; [|intros]
    | match goal with
      | |- print_only (if ?b then _ else _) => destruct b
      | |- print_only (let '(_, _) := ?p in _) => destruct p
      | |- print_only (match ?p with _ => _ end) => destruct p
      end ].

Section FeedbackOnlyPrints.

Lemma print_only_grade_of overall : print_only (grade_of overall).
Proof. unfold grade_of. print_only. Qed.

Lemma print_only_closing_tip overall : print_only (closing_tip overall).
Proof. unfold closing_tip. print_only. Qed.

Lemma print_only_phoneme_step word locals p :
  print_only (phoneme_step word locals p).
Proof. unfold phoneme_step. print_only. Qed.

Lemma print_only_word_step weak w : print_only (word_step weak w).
Proof.
  unfold word_step. print_only.
  all: try apply print_only_phoneme_step.
Qed.

Lemma print_only_print_feedback assessment transcription reference :
  print_only (print_feedback assessment transcription reference).
Proof.
  unfold print_feedback. print_only.
  all: apply print_only_phoneme_step.
Qed.

End FeedbackOnlyPrints.


Section Feedback.

(** ** Comparisons and formats of scores *)

Lemma py_ge_num x k : py_ge (num_value x) k = inr (bool_decide (ge x k)).
Proof.
  destruct x as [z|[q| | |]]; unfold py_ge; simpl; f_equal.
  - apply eq_true_iff_eq.
    by rewrite Qle_bool_iff, bool_decide_eq_true, <- Zle_Qle.
  - apply eq_true_iff_eq. by rewrite Qle_bool_iff, bool_decide_eq_true.
Qed.

Lemma Qlt_bool_iff x y : Qlt_bool x y = true ↔ (x < y)%Q.
Proof.
  unfold Qlt_bool. rewrite Qlt_alt.
  destruct (x ?= y)%Q; split; congruence.
Qed.

Lemma py_lt_num x k : py_lt (num_value x) k = inr (bool_decide (lt x k)).
Proof.
  destruct x as [z|[q| | |]]; unfold py_lt; simpl; f_equal.
  - apply eq_true_iff_eq.
    by rewrite Qlt_bool_iff, bool_decide_eq_true, <- Zlt_Qlt.
  - apply eq_true_iff_eq. by rewrite Qlt_bool_iff, bool_decide_eq_true.
Qed.

Lemma py_format_num x s :
  renderable x → py_format (num_value x) s = inr (Formatted (num_value x) s).
Proof.
  destruct x as [z|f]; simpl; [|done].
  intros H. apply Z.leb_gt in H. rewrite H. by rewrite andb_false_r.
Qed.

Lemma py_format_str x : py_format (VStr x) spec_left15 = inr (Formatted (VStr x) spec_left15).
Proof. reflexivity. Qed.

(** ** Reading the dictionaries *)

Lemma lookup_field_eq key v d : field key v d !! key = v.
Proof.
  destruct v; simpl; [apply lookup_insert_eq | apply lookup_delete_eq].
Qed.

Lemma lookup_field_ne key key' v d :
  key ≠ key' → field key v d !! key' = d !! key'.
Proof.
  intros H. destruct v; simpl; [by apply lookup_insert_ne | by apply lookup_delete_ne].
Qed.

Ltac lookup_field :=
  repeat first
    [ rewrite lookup_field_eq
    | rewrite lookup_field_ne by (intros ?; discriminate) ].

Lemma get_phoneme p :
  py_get (phoneme_dict p) "phoneme" (VStr EmptyString) = inr (VStr (phoneme p)).
Proof.
  unfold py_get, phoneme_dict, phoneme. lookup_field. by destruct (ph_phoneme p).
Qed.

Lemma get_pscore p :
  py_get (phoneme_dict p) "score" (VInt 0) = inr (num_value (pscore p)).
Proof.
  unfold py_get, phoneme_dict, pscore. lookup_field. by destruct (ph_score p).
Qed.

Lemma get_word w :
  py_get (word_dict w) "word" (VStr EmptyString) = inr (VStr (word w)).
Proof.
  unfold py_get, word_dict, word. lookup_field. by destruct (ws_word w).
Qed.

Lemma get_score w :
  py_get (word_dict w) "score" (VInt 0) = inr (num_value (score w)).
Proof.
  unfold py_get, word_dict, score. lookup_field. by destruct (ws_score w).
Qed.

Lemma get_phonemes w :
  py_get (word_dict w) "phonemes" (VList []) =
  inr (VList (phoneme_dict <$> phonemes w)).
Proof.
  unfold py_get, word_dict, phonemes. lookup_field. by destruct (ws_phonemes w).
Qed.

Lemma get_overall a :
  py_get (assessment_dict a) "overallScore" (VInt 0) =
  inr (num_value (overall a)).
Proof.
  unfold py_get, assessment_dict, overall. lookup_field.
  by destruct (ar_overallScore a).
Qed.

Lemma get_words a :
  py_get (assessment_dict a) "words" (VList []) =
  inr (VList (word_dict <$> words a)).
Proof.
  unfold py_get, assessment_dict, words. lookup_field. by destruct (ar_words a).
Qed.

End Feedback.

Section Loops.

#[local] Arguments run : simpl never.
#[local] Arguments bind : simpl never.
#[local] Arguments lift : simpl never.
#[local] Arguments ret : simpl never.
#[local] Arguments print : simpl never.
#[local] Arguments py_get : simpl never.
#[local] Arguments py_lt : simpl never.
#[local] Arguments py_format : simpl never.
#[local] Arguments for_with : simpl never.

Lemma run_bind_lift {A B} (r : result A) (k : A → M B) w :
  run (bind (lift r) k) w =
  match r with
  | inr a => run (k a) w
  | inl e => (Raises e, w)
  end.
Proof. by destruct r. Qed.

Lemma run_bind_print {B} l (k : unit → M B) w :
  run (bind (print l) k) w = run (k tt) (prints [l] w).
Proof. reflexivity. Qed.

Lemma for_with_cons {A S} (x : A) items (s : S) body :
  for_with (x :: items) s body = bind (body s x) (λ s', for_with items s' body).
Proof. reflexivity. Qed.

Lemma run_ret {A} (a : A) w : run (ret a) w = (Returns a, w).
Proof. reflexivity. Qed.

(** The loop over the phonemes of a word prints nothing; it extends the
    two local lists. *)
Lemma run_phoneme_loop wd ps parts0 weak0 w :
  Forall (λ p, renderable (pscore p)) ps →
  run (for_with (phoneme_dict <$> ps) (parts0, weak0) (phoneme_step (VStr wd))) w =
  (Returns (parts0 ++ parts ps,
            weak0 ++ (triple_value <$>
                        ((λ p, (wd, phoneme p, pscore p)) <$> List.filter weak ps))),
   w).
Proof.
  intros Hps. revert parts0 weak0.
  induction Hps as [|p ps Hp Hps IH]; intros parts0 weak0.
  - simpl. by rewrite !app_nil_r.
  - rewrite fmap_cons. rewrite for_with_cons. rewrite run_bind.
    unfold phoneme_step at 1. cbn.
    rewrite run_bind_lift, get_phoneme.
    rewrite run_bind_lift, get_pscore.
    rewrite run_bind_lift, py_format_num by done.
    rewrite run_bind_lift, py_lt_num.
    unfold weak at 1.
    destruct (bool_decide (lt (pscore p) 60)); rewrite run_ret; cbn;
      rewrite IH; unfold parts; by rewrite <- !app_assoc.
Qed.

Lemma run_word_step w0 weak0 w :
  renderable_word w0 →
  run (word_step weak0 (word_dict w0)) w =
  (Returns (weak0 ++ (triple_value <$> weak_of w0)), prints [row w0] w).
Proof.
  intros [Hs Hps]. unfold word_step.
  rewrite run_bind_lift, get_word.
  rewrite run_bind_lift, get_score.
  rewrite run_bind_lift, get_phonemes.
  rewrite run_bind_lift, py_lt_num.
  rewrite run_bind_lift. simpl py_iter. cbv iota.
  rewrite run_bind, run_phoneme_loop by done.
  rewrite run_bind_lift, py_format_str.
  rewrite run_bind_lift, py_format_num by done.
  rewrite run_bind_print, run_ret.
  reflexivity.
Qed.

Lemma run_word_loop ws weak0 w :
  Forall renderable_word ws →
  run (for_with (word_dict <$> ws) weak0 word_step) w =
  (Returns (weak0 ++ (triple_value <$> weak_triples ws)), prints (row <$> ws) w).
Proof.
  intros Hws. revert weak0 w.
  induction Hws as [|w0 ws Hw0 Hws IH]; intros weak0 w.
  - simpl. by rewrite app_nil_r, prints_nil.
  - rewrite fmap_cons. rewrite for_with_cons.
    rewrite run_bind, run_word_step by done. rewrite IH.
    rewrite fmap_cons, (prints_cons (row w0) (row <$> ws)).
    unfold weak_triples. simpl flat_map.
    by rewrite fmap_app, app_assoc.
Qed.

Lemma run_grade_of x w :
  run (grade_of (num_value x)) w = (Returns (grade_name (band x)), w).
Proof.
  unfold grade_of, band.
  repeat (rewrite run_bind_lift, py_ge_num; cbn;
          case_bool_decide; [by repeat case_decide|]).
  by repeat case_decide.
Qed.

Lemma run_closing_tip x w :
  run (closing_tip (num_value x)) w = (Returns tt, prints [Tip (tip x)] w).
Proof.
  unfold closing_tip, tip.
  repeat (rewrite run_bind_lift, py_ge_num; cbn;
          case_bool_decide; [by repeat case_decide|]).
  by repeat case_decide.
Qed.

Lemma weak_triples_renderable ws :
  Forall renderable_word ws → Forall (λ t, renderable t.2) (weak_triples ws).
Proof.
  intros Hws. unfold weak_triples.
  induction Hws as [|w0 ws [_ Hps] _ IH]; simpl; [constructor|].
  apply Forall_app. split; [|done].
  unfold weak_of. apply Forall_fmap.
  induction Hps as [|p ps Hp _ IHps]; simpl; [constructor|].
  destruct (weak p); [constructor|]; done.
Qed.

Lemma run_focus_loop ts w :
  Forall (λ t, renderable t.2) ts →
  run (for_ (triple_value <$> ts)
            (λ '(word, phoneme, score),
               fscore ← lift (py_format score spec_0f);
               print (FocusLine phoneme word fscore))) w =
  (Returns tt, prints (focus_line <$> (triple_value <$> ts)) w).
Proof.
  intros Hts. revert w.
  induction Hts as [|[[wd ph] s] ts Hs _ IH]; intros w.
  - simpl. by rewrite prints_nil.
  - rewrite !fmap_cons. simpl for_. rewrite run_bind.
    simpl triple_value. cbv beta iota.
    rewrite run_bind_lift, py_format_num by done.
    rewrite run_print, IH.
    by rewrite (prints_cons _ (focus_line <$> _)).
Qed.

Lemma get_text t dflt :
  py_get (VDict t) "text" dflt = inr (default dflt (t !! "text")).
Proof. reflexivity. Qed.

Lemma run_focus_areas ts w :
  Forall (λ t, renderable t.2) ts →
  run (if nonempty (triple_value <$> ts) then
         print (Text (nl +:+ "  FOCUS AREAS:"));;
         for_ (triple_value <$> ts)
              (λ '(word, phoneme, score),
                 fscore ← lift (py_format score spec_0f);
                 print (FocusLine phoneme word fscore))
       else ret tt) w =
  (Returns tt, prints (focus_areas (triple_value <$> ts)) w).
Proof.
  intros Hts. unfold focus_areas.
  destruct (nonempty (triple_value <$> ts)).
  - rewrite run_bind_print, run_focus_loop by done.
    by rewrite (prints_cons _ (focus_line <$> _)).
  - by rewrite run_ret, prints_nil.
Qed.

Lemma nonempty_fmap {A B} (f : A → B) l : nonempty (f <$> l) = nonempty l.
Proof. by destruct l. Qed.

(** What [print_feedback] does with a payload that follows the data model:
    it returns, having printed the report and done nothing else. *)
Lemma run_print_feedback a t reference w :
  renderable_assessment a →
  run (print_feedback (assessment_dict a) (VDict t) reference) w =
  (Returns tt, prints (report a t reference) w).
Proof.
  intros [Ho Hws]. unfold print_feedback.
  rewrite run_bind_lift, get_overall.
  rewrite run_bind_lift, get_words.
  rewrite run_bind_lift, get_text.
  rewrite !run_bind_print.
  rewrite run_bind, run_grade_of.
  rewrite run_bind_lift, py_format_num by done.
  rewrite !run_bind_print.
  rewrite run_bind_lift. change (py_iter (VList ?l)) with (@inr exn _ l).
  cbv iota. rewrite run_bind, run_word_loop by done.
  rewrite app_nil_l.
  rewrite run_bind, run_focus_areas by by apply weak_triples_renderable.
  rewrite run_bind, run_closing_tip, run_print.
  unfold report. rewrite !prints_app.
  by repeat rewrite (prints_cons _ (_ :: _)).
Qed.

End Loops.

(* ===================================================================== *)
(** * The feedback engine                                                 *)
(* ===================================================================== *)

Section Views.

Lemma omap_app_line {B} (f : line → option B) l1 l2 :
  omap f (l1 ++ l2) = omap f l1 ++ omap f l2.
Proof. apply omap_app. Qed.

Lemma grades_rows ws : grades (row <$> ws) = [].
Proof. unfold grades. by induction ws. Qed.

Lemma grades_focus ts : grades (focus_areas ts) = [].
Proof.
  unfold grades, focus_areas. destruct (nonempty ts); [|done]. csimpl.
  induction ts as [|[[??]?] ts IH]; by csimpl.
Qed.

Lemma grades_report a t reference :
  grades (report a t reference) = [grade_name (band (overall a))].
Proof.
  unfold report, grades. rewrite !omap_app. fold (grades (row <$> words a)).
  fold (grades (focus_areas (triple_value <$> weak_triples (words a)))).
  by rewrite grades_rows, grades_focus.
Qed.

Lemma closing_tips_rows ws : closing_tips (row <$> ws) = [].
Proof. unfold closing_tips. by induction ws. Qed.

Lemma closing_tips_focus ts : closing_tips (focus_areas ts) = [].
Proof.
  unfold closing_tips, focus_areas. destruct (nonempty ts); [|done]. csimpl.
  induction ts as [|[[??]?] ts IH]; by csimpl.
Qed.

Lemma closing_tips_report a t reference :
  closing_tips (report a t reference) = [tip (overall a)].
Proof.
  unfold report, closing_tips. rewrite !omap_app.
  fold (closing_tips (row <$> words a)).
  fold (closing_tips (focus_areas (triple_value <$> weak_triples (words a)))).
  by rewrite closing_tips_rows, closing_tips_focus.
Qed.

Lemma per_word_rows ws :
  per_word (row <$> ws) =
  (λ w, (VStr (word w), num_value (score w), flagged w)) <$> ws.
Proof.
  unfold per_word. induction ws as [|w ws IH]; [done|].
  rewrite !fmap_cons. csimpl. rewrite IH. f_equal. f_equal.
  unfold row. by destruct (flagged w).
Qed.

Lemma per_word_focus ts : per_word (focus_areas ts) = [].
Proof.
  unfold per_word, focus_areas. destruct (nonempty ts); [|done]. csimpl.
  induction ts as [|[[??]?] ts IH]; by csimpl.
Qed.

Lemma per_word_report a t reference :
  per_word (report a t reference) =
  (λ w, (VStr (word w), num_value (score w), flagged w)) <$> words a.
Proof.
  unfold report, per_word at 1. rewrite !omap_app.
  fold (per_word (row <$> words a)).
  fold (per_word (focus_areas (triple_value <$> weak_triples (words a)))).
  rewrite per_word_rows, per_word_focus. simpl. by rewrite app_nil_r.
Qed.

Lemma weak_phonemes_rows ws : weak_phonemes (row <$> ws) = [].
Proof. unfold weak_phonemes. by induction ws. Qed.

Lemma weak_phonemes_focus_lines ts : weak_phonemes (focus_line <$> ts) = ts.
Proof.
  unfold weak_phonemes. induction ts as [|[[??]?] ts IH]; [done|].
  rewrite fmap_cons. csimpl. by rewrite IH.
Qed.

Lemma weak_phonemes_focus ts : weak_phonemes (focus_areas ts) = ts.
Proof.
  unfold focus_areas. destruct ts as [|t0 ts]; [done|].
  change (nonempty (t0 :: ts)) with true. cbv iota.
  apply (weak_phonemes_focus_lines (t0 :: ts)).
Qed.

Lemma weak_phonemes_report a t reference :
  weak_phonemes (report a t reference) = triple_value <$> weak_triples (words a).
Proof.
  unfold report, weak_phonemes at 1. rewrite !omap_app.
  fold (weak_phonemes (row <$> words a)).
  fold (weak_phonemes (focus_areas (triple_value <$> weak_triples (words a)))).
  rewrite weak_phonemes_rows, weak_phonemes_focus. simpl. by rewrite app_nil_r.
Qed.

Lemma num_value_inj x y : num_value x = num_value y → x = y.
Proof. destruct x, y; simpl; congruence. Qed.

Lemma triple_value_inj t1 t2 : triple_value t1 = triple_value t2 → t1 = t2.
Proof.
  destruct t1 as [[w1 p1] s1], t2 as [[w2 p2] s2]. simpl.
  intros [= -> -> Hs]. by rewrite (num_value_inj _ _ Hs).
Qed.

Lemma elem_of_weak_triples ws wd ph s :
  (wd, ph, s) ∈ weak_triples ws ↔
  ∃ w p, w ∈ ws ∧ p ∈ phonemes w ∧ word w = wd ∧ phoneme p = ph
         ∧ pscore p = s ∧ lt s 60.
Proof.
  unfold weak_triples. rewrite list_elem_of_In, in_flat_map. split.
  - intros (w & Hw & Hin). unfold weak_of in Hin.
    apply list_elem_of_In, list_elem_of_fmap in Hin.
    destruct Hin as (p & [= -> -> ->] & Hp).
    apply list_elem_of_In, filter_In in Hp. destruct Hp as [Hp Hweak].
    exists w, p. repeat split; try done.
    + by apply list_elem_of_In.
    + by apply list_elem_of_In.
    + unfold weak in Hweak. by apply bool_decide_eq_true in Hweak.
  - intros (w & p & Hw & Hp & <- & <- & <- & Hlt).
    exists w. split; [by apply list_elem_of_In|].
    unfold weak_of. apply list_elem_of_In, list_elem_of_fmap.
    exists p. split; [done|].
    apply list_elem_of_In, filter_In. split; [by apply list_elem_of_In|].
    unfold weak. by apply bool_decide_eq_true.
Qed.

Lemma tips_distinct :
  tip_harder ≠ tip_starred ∧ tip_harder ≠ tip_slowly ∧ tip_starred ≠ tip_slowly.
Proof. repeat split; discriminate. Qed.

End Views.

Section FeedbackClaims.

Lemma ge_le x k k' : k ≤ k' → ge x k' → ge x k.
Proof.
  intros Hk. destruct x as [z|[q| | |]]; simpl; try done; [lia|].
  intros H. eapply Qle_trans; [|exact H]. by rewrite <- Zle_Qle.
Qed.

Ltac not_ge :=
  let H := fresh in
  intros H;
  match goal with
  | Hn : ¬ ge _ _ |- _ => apply Hn; revert H; apply ge_le; lia
  end.

(** The boundary scores of the grade bands (89.99 is [8999 # 100]). *)
Example grade_at_boundaries w :
  run (grade_of (VInt 90)) w = (Returns "Excellent", w)
  ∧ run (grade_of (VFloat (Finite (8999 # 100)))) w = (Returns "Good", w)
  ∧ run (grade_of (VInt 75)) w = (Returns "Good", w)
  ∧ run (grade_of (VFloat (Finite (7499 # 100)))) w = (Returns "Fair", w)
  ∧ run (grade_of (VInt 60)) w = (Returns "Fair", w)
  ∧ run (grade_of (VFloat (Finite (5999 # 100)))) w = (Returns "Needs Work", w)
  ∧ run (grade_of (VInt 40)) w = (Returns "Needs Work", w)
  ∧ run (grade_of (VFloat (Finite (3999 # 100)))) w = (Returns "Keep Practicing", w).
Proof. repeat split. Qed.

(** C1.  For every overall score [x] (an int, a float, even an infinity or
    nan) the chain that assigns the grade returns, and the grade follows
    the descending bands, the first that matches winning and each being
    closed on its lower bound: 90 and above is Excellent, otherwise 75
    and above is Good, otherwise 60 and above is Fair, otherwise 40 and
    above is Needs Work, and anything else is Keep Practicing.  It is the
    grade that the report of an assessment with that overall score shows. *)
Theorem grade_bands (x : num) :
  ∃ g : grade,
    (∀ w, run (grade_of (num_value x)) w = (Returns (grade_name g), w))
    ∧ (ge x 90 → g = Excellent)
    ∧ (ge x 75 → ¬ ge x 90 → g = Good)
    ∧ (ge x 60 → ¬ ge x 75 → g = Fair)
    ∧ (ge x 40 → ¬ ge x 60 → g = NeedsWork)
    ∧ (¬ ge x 40 → g = KeepPracticing)
    ∧ (∀ a t reference w,
         overall a = x → renderable_assessment a →
         ∃ lines,
           run (print_feedback (assessment_dict a) (VDict t) reference) w
           = (Returns tt, prints lines w)
           ∧ grades lines = [grade_name g]).
Proof.
  exists (band x). split; [intros w; apply run_grade_of|].
  repeat split.
  1-5: intros; unfold band;
       repeat first [ rewrite decide_True by done
                    | rewrite decide_False by first [done | not_ge] ];
       done.
  - intros a t reference w <- Ha. exists (report a t reference).
    split; [by apply run_print_feedback | apply grades_report].
Qed.

(** At 89.99 the grade is Good. *)
Lemma grade_bands_witness :
  run (grade_of (VFloat (Finite (8999 # 100)))) quiet = (Returns "Good", quiet).
Proof.
  destruct (grade_bands (Float (Finite (8999 # 100))))
    as (g & Hrun & _ & Hgood & _).
  rewrite Hgood in Hrun; [apply Hrun | | ]; vm_compute; congruence.
Defined.

Lemma lt_not_ge x k : lt x k → ¬ ge x k.
Proof.
  destruct x as [z|[q| | |]]; simpl; try done; try lia.
  intros H. by apply Qlt_not_le.
Qed.

(** C2.  The closing message is chosen by three tiers of the overall score
    [x], with 70 as the middle threshold: 90 and above gives the message
    about a harder sentence, 70 and above (and below 90) the one about
    the starred words, a score below 70 (and, as the last branch, any other
    value) the one about listening again and speaking more slowly.  The
    threshold is not one of the grade bands: every score from 70 up to, but
    not including, 75 has the grade Fair and the starred-words message.  It
    is the message that closes the report of an assessment with that
    overall score. *)
Theorem closing_tip_tiers (x : num) :
  ∃ msg : string,
    (∀ w, run (closing_tip (num_value x)) w = (Returns tt, prints [Tip msg] w))
    ∧ (ge x 90 → msg = tip_harder)
    ∧ (ge x 70 → lt x 90 → msg = tip_starred)
    ∧ (lt x 70 → msg = tip_slowly)
    ∧ (¬ ge x 70 → msg = tip_slowly)
    ∧ (ge x 70 → lt x 75 →
         msg = tip_starred
         ∧ ∀ w, run (grade_of (num_value x)) w = (Returns "Fair", w))
    ∧ (∀ a t reference w,
         overall a = x → renderable_assessment a →
         ∃ lines,
           run (print_feedback (assessment_dict a) (VDict t) reference) w
           = (Returns tt, prints lines w)
           ∧ closing_tips lines = [msg]).
Proof.
  exists (tip x). split; [intros w; apply run_closing_tip|].
  split_and!.
  - intros H. unfold tip. by rewrite decide_True.
  - intros H1 H2%lt_not_ge. unfold tip. by rewrite decide_False, decide_True.
  - intros H%lt_not_ge. unfold tip.
    rewrite !decide_False; [done|done|not_ge].
  - intros H. unfold tip. rewrite !decide_False; [done|done|not_ge].
  - intros H1 H2%lt_not_ge. split.
    + unfold tip. rewrite decide_False, decide_True; [done|done|not_ge].
    + intros w. rewrite run_grade_of. unfold band.
      rewrite decide_False by not_ge. rewrite decide_False by done.
      rewrite decide_True; [done|]. revert H1. apply ge_le. lia.
  - intros a t reference w <- Ha. exists (report a t reference).
    split; [by apply run_print_feedback | apply closing_tips_report].
Qed.

(** At 72 the grade is Fair and the message is the one about the starred
    words. *)
Lemma closing_tip_tiers_witness :
  run (closing_tip (VInt 72)) quiet = (Returns tt, prints [Tip tip_starred] quiet)
  ∧ run (grade_of (VInt 72)) quiet = (Returns "Fair", quiet).
Proof.
  destruct (closing_tip_tiers (Int 72)) as (msg & Hrun & _ & _ & _ & _ & H & _).
  destruct H as [-> Hgrade]; [vm_compute; congruence | reflexivity |].
  split; [apply Hrun | apply Hgrade].
Defined.

(** C3.  In the report of an assessment the focus areas are exactly the
    triples (word, phoneme, score) of the phonemes whose score is strictly
    below 60, in the order of the input: word after word and, within a
    word, phoneme after phoneme.  A phoneme of the input is listed if and
    only if its score is below 60. *)
Theorem weak_phonemes_below_60 a t reference w :
  renderable_assessment a →
  ∃ lines,
    run (print_feedback (assessment_dict a) (VDict t) reference) w
    = (Returns tt, prints lines w)
    ∧ weak_phonemes lines =
      flat_map
        (λ wd, (λ p, (VStr (word wd), VStr (phoneme p), num_value (pscore p)))
               <$> List.filter (λ p, bool_decide (lt (pscore p) 60)) (phonemes wd))
        (words a)
    ∧ (∀ wd p, wd ∈ words a → p ∈ phonemes wd →
         (VStr (word wd), VStr (phoneme p), num_value (pscore p))
           ∈ weak_phonemes lines
         ↔ lt (pscore p) 60)
    ∧ (∀ t, t ∈ weak_phonemes lines →
         ∃ wd p, wd ∈ words a ∧ p ∈ phonemes wd ∧ lt (pscore p) 60 ∧
           t = (VStr (word wd), VStr (phoneme p), num_value (pscore p))).
Proof.
  intros Ha. exists (report a t reference).
  split; [by apply run_print_feedback|].
  rewrite weak_phonemes_report. split_and!; [|intros wd p Hwd Hp; split|].
  - unfold weak_triples. induction (words a) as [|wd ws IH]; [done|].
    simpl. rewrite fmap_app, IH. f_equal.
    unfold weak_of. rewrite <- list_fmap_compose. done.
  - intros H. apply list_elem_of_fmap in H. destruct H as ([[wd' ph'] s'] & Heq & H).
    simpl in Heq. injection Heq as _ _ Hs. apply num_value_inj in Hs.
    apply elem_of_weak_triples in H.
    destruct H as (_ & _ & _ & _ & _ & _ & _ & Hlt). by rewrite Hs.
  - intros Hlt. apply list_elem_of_fmap.
    exists (word wd, phoneme p, pscore p). split; [done|].
    apply elem_of_weak_triples. exists wd, p. done.
  - intros t0 H. apply list_elem_of_fmap in H.
    destruct H as ([[wd' ph'] s'] & -> & H).
    apply elem_of_weak_triples in H.
    destruct H as (wd & p & Hwd & Hp & <- & <- & <- & Hlt).
    exists wd, p. done.
Qed.

(** In the sample assessment the only weak phoneme is the "ks" of "fox". *)
Lemma weak_phonemes_below_60_witness :
  ∃ lines,
    run (print_feedback (assessment_dict fox) (VDict ∅) fox_sentence) quiet
    = (Returns tt, prints lines quiet)
    ∧ weak_phonemes lines = [(VStr "fox", VStr "ks", VInt 55)].
Proof.
  destruct (weak_phonemes_below_60 fox ∅ fox_sentence quiet)
    as (lines & Hrun & Hweak & _).
  - repeat constructor.
  - exists lines. split; [exact Hrun|]. rewrite Hweak. reflexivity.
Defined.

(** The boundary scores of a phoneme: 60 is not weak, 59.99 is. *)
Example weak_at_boundaries :
  weak {| ph_phoneme := None; ph_score := Some (Int 60); ph_other := ∅ |} = false
  ∧ weak {| ph_phoneme := None; ph_score := Some (Float (Finite (5999 # 100)));
            ph_other := ∅ |} = true.
Proof. split; reflexivity. Qed.

(** C4.  The report of an assessment has one row for each word of the
    input, in the order of the input, and the row of a word is flagged
    (it carries the star) if and only if the score of the word is strictly
    below 70. *)
Theorem words_flagged_below_70 a t reference w :
  renderable_assessment a →
  ∃ lines,
    run (print_feedback (assessment_dict a) (VDict t) reference) w
    = (Returns tt, prints lines w)
    ∧ per_word lines =
      (λ wd, (VStr (word wd), num_value (score wd),
              bool_decide (lt (score wd) 70))) <$> words a
    ∧ length (per_word lines) = length (words a)
    ∧ (∀ i wd, words a !! i = Some wd →
         ∃ flag, per_word lines !! i
                 = Some (VStr (word wd), num_value (score wd), flag)
                 ∧ (flag = true ↔ lt (score wd) 70)).
Proof.
  intros Ha. exists (report a t reference).
  split; [by apply run_print_feedback|].
  rewrite per_word_report. split_and!.
  - done.
  - by rewrite length_fmap.
  - intros i wd Hi. exists (flagged wd). split.
    + by rewrite list_lookup_fmap, Hi.
    + unfold flagged. apply bool_decide_eq_true.
Qed.

(** The word of the sample assessment, scored 95, is not flagged. *)
Lemma words_flagged_below_70_witness :
  ∃ lines,
    run (print_feedback (assessment_dict fox) (VDict ∅) fox_sentence) quiet
    = (Returns tt, prints lines quiet)
    ∧ per_word lines = [(VStr "fox", VInt 95, false)].
Proof.
  destruct (words_flagged_below_70 fox ∅ fox_sentence quiet)
    as (lines & Hrun & Hrows & _).
  - repeat constructor.
  - exists lines. split; [exact Hrun|]. rewrite Hrows. reflexivity.
Defined.

(** The boundary scores of a word: 70 is not flagged, 69.99 is. *)
Example flagged_at_boundaries :
  flagged {| ws_word := None; ws_score := Some (Int 70);
             ws_phonemes := None; ws_other := ∅ |} = false
  ∧ flagged {| ws_word := None; ws_score := Some (Float (Finite (6999 # 100)));
               ws_phonemes := None; ws_other := ∅ |} = true.
Proof. split; reflexivity. Qed.

(** C9.  Whatever its three arguments (well formed or not), the run of
    [print_feedback] is a function of them alone: in every world it ends
    the same way and prints the same lines, and it leaves the world as it
    found it but for these lines (nothing is read from the standard
    input, no request is sent, no file is touched).  Two evaluations of
    the same inputs therefore give the same report, also when the second
    follows the first. *)
Theorem print_feedback_deterministic
    (assessment transcription : value) (reference : string) :
  ∃ out lines,
    (∀ w, run (print_feedback assessment transcription reference) w
          = (out, prints lines w))
    ∧ (∀ w1 w2,
         (run (print_feedback assessment transcription reference) w1).1
         = (run (print_feedback assessment transcription reference) w2).1)
    ∧ (∀ w,
         let w' := (run (print_feedback assessment transcription reference) w).2 in
         stdin w' = stdin w ∧ service w' = service w ∧ present w' = present w
         ∧ readable w' = readable w ∧ writable w' = writable w
         ∧ printed (trace w') = printed (trace w) ++ lines)
    ∧ (∀ w,
         let w' := (run (print_feedback assessment transcription reference) w).2 in
         run (print_feedback assessment transcription reference) w'
         = (out, prints lines w')).
Proof.
  destruct (print_only_print_feedback assessment transcription reference)
    as (out & lines & Hrun).
  exists out, lines. split_and!.
  - exact Hrun.
  - intros w1 w2. by rewrite !Hrun.
  - intros w. rewrite Hrun. simpl. split_and!; try done.
    by rewrite printed_app, printed_Printed.
  - intros w. apply Hrun.
Qed.

(** C10.  Missing fields do not make the engine fail, and each is read as
    its default: a missing overall score as 0 (grade Keep Practicing and
    the message about speaking more slowly), a missing list of words as
    the empty list (no row, no focus area), a missing word score as 0 (the
    row is flagged), a missing phoneme score as 0 (the phoneme is a focus
    area); a missing word or phoneme name is read as the empty string. *)
Theorem missing_fields_default a t reference w :
  renderable_assessment a →
  ∃ lines,
    run (print_feedback (assessment_dict a) (VDict t) reference) w
    = (Returns tt, prints lines w)
    ∧ (ar_overallScore a = None →
         grades lines = ["Keep Practicing"] ∧ closing_tips lines = [tip_slowly])
    ∧ (ar_words a = None → per_word lines = [] ∧ weak_phonemes lines = [])
    ∧ (∀ i wd, words a !! i = Some wd → ws_score wd = None →
         per_word lines !! i = Some (VStr (word wd), VInt 0, true))
    ∧ (∀ wd p, wd ∈ words a → p ∈ phonemes wd → ph_score p = None →
         (VStr (word wd), VStr (phoneme p), VInt 0) ∈ weak_phonemes lines)
    ∧ (∀ i wd, words a !! i = Some wd → ws_word wd = None →
         ∃ s flag, per_word lines !! i = Some (VStr EmptyString, s, flag)).
Proof.
  intros Ha. exists (report a t reference).
  split; [by apply run_print_feedback|].
  rewrite grades_report, closing_tips_report, per_word_report,
    weak_phonemes_report.
  split_and!.
  - intros H. unfold overall. rewrite H. split; reflexivity.
  - intros H. unfold words. rewrite H. split; reflexivity.
  - intros i wd Hi Hs. rewrite list_lookup_fmap, Hi. simpl.
    unfold flagged, score. by rewrite Hs.
  - intros wd p Hwd Hp Hs. apply list_elem_of_fmap.
    exists (word wd, phoneme p, Int 0). split; [done|].
    apply elem_of_weak_triples. exists wd, p.
    unfold pscore. rewrite Hs. by split_and!.
  - intros i wd Hi Hs. rewrite list_lookup_fmap, Hi. simpl.
    unfold word. rewrite Hs. eauto.
Qed.

(** The assessment without any field: the report is that of the score 0
    and of no word. *)
Lemma missing_fields_default_witness :
  ∃ lines,
    run (print_feedback (assessment_dict blank) (VDict ∅) fox_sentence) quiet
    = (Returns tt, prints lines quiet)
    ∧ grades lines = ["Keep Practicing"]
    ∧ closing_tips lines = [tip_slowly]
    ∧ per_word lines = []
    ∧ weak_phonemes lines = [].
Proof.
  destruct (missing_fields_default blank ∅ fox_sentence quiet)
    as (lines & Hrun & Hoverall & Hwords & _).
  - repeat constructor.
  - destruct Hoverall as [Hg Ht]; [reflexivity|].
    destruct Hwords as [Hr Hw]; [reflexivity|].
    exists lines. done.
Defined.

End FeedbackClaims.

(* ===================================================================== *)
(** * The session loop                                                    *)
(* ===================================================================== *)

Section Session.

Context {decoder : Decoder}.

Lemma run_while_true_continue fuel body w w' :
  run body w = (Continue, w') →
  run (while_true (S fuel) body) w = run (while_true fuel body) w'.
Proof. unfold run. intros H. simpl. by rewrite H. Qed.

Lemma run_while_true_returns fuel body w w' :
  run body w = (Returns tt, w') →
  run (while_true (S fuel) body) w = run (while_true fuel body) w'.
Proof. unfold run. intros H. simpl. by rewrite H. Qed.

Lemma run_while_true_break fuel body w w' :
  run body w = (Break, w') →
  run (while_true (S fuel) body) w = (Returns tt, w').
Proof. unfold run. intros H. simpl. by rewrite H. Qed.

(** ** Step 3 and step 4 *)

Lemma run_transcribe_error w audio e :
  shd (readable w) = Some audio →
  service_error (shd (service w)) = Some e →
  run transcribe w =
  (Continue,
   World (stdin w) (stl (service w)) (present w) (stl (readable w))
         (writable w)
         (trace w ++
          [ Printed (Text (nl +:+ "  Step 3: Transcribing your recording..."));
            Opened user_audio (Some audio);
            Posted (Request (BASE_URL +:+ "/stt/transcribe/base64")
                            (SttPayload audio true))
                   (shd (service w));
            Printed (SttError e) ])).
Proof.
  intros Hread Herr.
  unfold transcribe, try_except, stt_transcribe, read_file, post,
    raise_for_status, resp_json, print, continue, bind, run, log.
  simpl. rewrite Hread. simpl.
  unfold service_error in Herr.
  destruct (shd (service w)) as [r|e']; simpl in *.
  - destruct ((200 <=? status_code r) && (status_code r <=? 299));
      [discriminate|].
    injection Herr as <-. simpl. by rewrite <- !app_assoc.
  - destruct (is_HTTPError e') eqn:He; [|discriminate].
    injection Herr as <-. by rewrite <- !app_assoc.
Qed.

Lemma run_assess_error sentence w audio e :
  shd (readable w) = Some audio →
  service_error (shd (service w)) = Some e →
  run (assess sentence) w =
  (Continue,
   World (stdin w) (stl (service w)) (present w) (stl (readable w))
         (writable w)
         (trace w ++
          [ Printed (Text "  Step 4: Scoring pronunciation...");
            Opened user_audio (Some audio);
            Posted (Request (BASE_URL +:+ "/pronunciation/assess/base64")
                            (AssessPayload audio sentence "wav"))
                   (shd (service w));
            Printed (AssessmentError e) ])).
Proof.
  intros Hread Herr.
  unfold assess, try_except, pronunciation_assess, read_file, post,
    raise_for_status, resp_json, print, continue, bind, run, log.
  simpl. rewrite Hread. simpl.
  unfold service_error in Herr.
  destruct (shd (service w)) as [r|e']; simpl in *.
  - destruct ((200 <=? status_code r) && (status_code r <=? 299));
      [discriminate|].
    injection Herr as <-. simpl. by rewrite <- !app_assoc.
  - destruct (is_HTTPError e') eqn:He; [|discriminate].
    injection Herr as <-. by rewrite <- !app_assoc.
Qed.

(** ** Step 1 *)

Lemma run_tts_synthesize_error text output_path voice speed w e :
  service_error (shd (service w)) = Some e →
  run (tts_synthesize text output_path voice speed) w =
  (Returns false,
   World (stdin w) (stl (service w)) (present w) (readable w) (writable w)
         (trace w ++
          [ Posted (Request (BASE_URL +:+ "/tts/synthesize")
                            (TtsPayload text voice speed "wav"))
                   (shd (service w));
            Printed (TtsError e) ])).
Proof.
  intros Herr.
  unfold tts_synthesize, try_except, post, raise_for_status, write_file,
    print, bind, run, log.
  simpl. unfold service_error in Herr.
  destruct (shd (service w)) as [r|e']; simpl in *.
  - destruct ((200 <=? status_code r) && (status_code r <=? 299));
      [discriminate|].
    injection Herr as <-. simpl. by rewrite <- !app_assoc.
  - destruct (is_HTTPError e') eqn:He; [|discriminate].
    injection Herr as <-. by rewrite <- !app_assoc.
Qed.

Lemma run_generate_reference_error sentence w e :
  service_error (shd (service w)) = Some e →
  run (generate_reference sentence) w =
  (Returns tt,
   World (stdin w) (stl (service w)) (present w) (readable w) (writable w)
         (trace w ++
          [ Printed (Text (nl +:+ "  Step 1: Generating reference audio..."));
            Posted (Request (BASE_URL +:+ "/tts/synthesize")
                            (TtsPayload sentence "af_heart" (9 # 10) "wav"))
                   (shd (service w));
            Printed (TtsError e);
            Printed (Text "  Could not generate reference audio. Continuing anyway...") ])).
Proof.
  intros Herr. unfold generate_reference.
  rewrite run_bind_print, run_bind.
  rewrite (run_tts_synthesize_error _ _ _ _ _ e) by done.
  rewrite run_print. unfold prints. simpl. by rewrite <- !app_assoc.
Qed.

(** Step 1 never leaves the iteration, and lets no service error out. *)
Lemma run_generate_reference_outcome sentence w :
  ∃ out w',
    run (generate_reference sentence) w = (out, w')
    ∧ out ≠ Continue ∧ out ≠ Break
    ∧ (∀ e, out = Raises e → is_HTTPError e = false).
Proof.
  unfold generate_reference, tts_synthesize, try_except, post,
    raise_for_status, write_file, print, bind, run.
  simpl.
  destruct (shd (service w)) as [r|e']; simpl.
  - destruct ((200 <=? status_code r) && (status_code r <=? 299)); simpl.
    + destruct (shd (writable w)); simpl.
      * eexists _, _. split; [reflexivity|]. split_and!; done.
      * eexists _, _. split; [reflexivity|]. split_and!; try done.
        by intros e [= <-].
    + eexists _, _. split; [reflexivity|]. split_and!; done.
  - destruct (is_HTTPError e') eqn:He; simpl.
    + eexists _, _. split; [reflexivity|]. split_and!; done.
    + eexists _, _. split; [reflexivity|]. split_and!; try done.
      by intros e [= <-].
Qed.

(** ** Step 2 *)

Lemma run_countdown l w :
  run (for_ l (λ remaining, print (Countdown remaining);; sleep 1)) w =
  (Returns tt,
   World (stdin w) (service w) (present w) (readable w) (writable w)
         (trace w ++ flat_map (λ r, [Printed (Countdown r); Slept 1]) l)).
Proof.
  revert w. induction l as [|r l IH]; intros w.
  - simpl. unfold run, ret. destruct w. simpl. by rewrite app_nil_r.
  - cbn [for_]. rewrite run_bind, run_bind_print.
    change (run (sleep 1) (prints [Countdown r] w))
      with (Returns tt, log (Slept 1) (prints [Countdown r] w)).
    cbv iota. rewrite IH. simpl. by rewrite <- !app_assoc.
Qed.

Lemma run_record_audio output_path duration w answer rest :
  stdin w = answer :: rest →
  run (record_audio output_path duration) w =
  (Returns (shd (present w)),
   World rest (service w) (stl (present w)) (readable w) (writable w)
         (trace w ++
          [ Printed (RecordingPlaceholder duration);
            Printed (PlaceFileAt output_path);
            Printed (Text "  Then press Enter to continue...") ] ++
          flat_map (λ r, [Printed (Countdown r); Slept 1])
                   (range_down (trunc duration)) ++
          [ Printed Blank;
            Prompted "  Press Enter when your recording is ready > "
                     (Some answer);
            Checked output_path (shd (present w)) ] ++
          (if shd (present w) then []
           else [Printed (FileNotFound output_path)]))).
Proof.
  intros Hin. unfold record_audio.
  rewrite !run_bind_print, run_bind, run_countdown.
  unfold input, path_exists, print, bind, run, log, prints. simpl.
  rewrite Hin. simpl.
  destruct (shd (present w)); simpl; rewrite <- ?app_assoc; simpl;
    rewrite ?app_nil_r; reflexivity.
Qed.

Lemma run_record_attempt w answer rest :
  stdin w = answer :: rest →
  run record_attempt w =
  ((if shd (present w) then Returns tt else Continue),
   World rest (service w) (stl (present w)) (readable w) (writable w)
         (trace w ++ recording_events answer ++
          Checked user_audio (shd (present w))
          :: (if shd (present w) then []
              else [Printed (FileNotFound user_audio); Printed Skipping]))).
Proof.
  intros Hin. unfold record_attempt.
  rewrite run_bind_print, run_bind.
  rewrite (run_record_audio _ _ _ answer rest) by done.
  change (range_down (trunc 5)) with [5; 4; 3; 2; 1].
  unfold prints, recording_events. simpl.
  destruct (shd (present w)); simpl; unfold run, print, continue, bind, ret, log;
    simpl; by rewrite <- !app_assoc.
Qed.

Lemma run_record_attempt_missing w answer rest :
  stdin w = answer :: rest →
  shd (present w) = false →
  run record_attempt w =
  (Continue,
   World rest (service w) (stl (present w)) (readable w) (writable w)
         (trace w ++ recording_events answer ++
          [ Checked user_audio false;
            Printed (FileNotFound user_audio);
            Printed Skipping ])).
Proof.
  intros Hin Hfile. rewrite (run_record_attempt _ answer rest) by done.
  by rewrite Hfile.
Qed.

(** ** The choice of a sentence *)

Lemma run_input prompt w line rest :
  stdin w = line :: rest →
  run (input prompt) w =
  (Returns line,
   World rest (service w) (present w) (readable w) (writable w)
         (trace w ++ [Prompted prompt (Some line)])).
Proof. intros Hin. unfold run, input. by rewrite Hin. Qed.

Lemma run_try_except_returns {A} (m : M A) catches handler w a w' :
  run m w = (Returns a, w') →
  run (try_except m catches handler) w = (Returns a, w').
Proof. unfold run, try_except. by intros ->. Qed.

Lemma run_try_except_caught {A} (m : M A) catches handler w e w' :
  run m w = (Raises e, w') → catches e = true →
  run (try_except m catches handler) w = run (handler e) w'.
Proof. unfold run, try_except. by intros -> ->. Qed.

Lemma py_index_lookup {A} (l : list A) i x :
  0 ≤ i → l !! Z.to_nat i = Some x → py_index l i = inr x.
Proof.
  intros Hi Hx. unfold py_index.
  assert ((i <? 0) = false) as Hneg by lia.
  rewrite Hneg. cbv iota. by rewrite Hneg, Hx.
Qed.

Lemma picked_input line rest w :
  stdin w = line :: rest →
  run (input pick_prompt) (prints [Blank] w) = (Returns line, picked line rest w).
Proof.
  intros Hin. rewrite (run_input _ _ line rest) by done.
  unfold picked, prints. simpl. by rewrite <- app_assoc.
Qed.

Lemma run_pick_sentence_quit w line rest :
  stdin w = line :: rest →
  lower (strip line) ∈ ["q"; "quit"; "exit"] →
  run pick_sentence w =
  (Break,
   prints [Text (nl +:+ "Keep practicing! Goodbye." +:+ nl)] (picked line rest w)).
Proof.
  intros Hin Hquit. unfold pick_sentence.
  rewrite run_bind_print. fold pick_prompt.
  rewrite run_bind, (picked_input line rest) by done. cbv beta iota zeta.
  rewrite bool_decide_eq_true_2 by done.
  by rewrite run_bind, run_bind_print.
Qed.

(** The index that a line gives, when it gives one. *)
Lemma run_parse_index choice w :
  run (try_except
         (n ← lift (py_int choice);
          let idx := n - 1 in
          if (idx <? 0) || (idx >=? len SENTENCES)
          then raise ValueError else ret idx)
         is_ValueError
         (λ _, print (EnterNumber (len SENTENCES));; continue)) w =
  match py_int choice with
  | inr n =>
      if (n - 1 <? 0) || (n - 1 >=? len SENTENCES)
      then (Continue, prints [EnterNumber (len SENTENCES)] w)
      else (Returns (n - 1), w)
  | inl e =>
      if is_ValueError e
      then (Continue, prints [EnterNumber (len SENTENCES)] w)
      else (Raises e, w)
  end.
Proof.
  destruct (py_int choice) as [e|n].
  - unfold run, try_except, bind, lift, raise.
    destruct (is_ValueError e); reflexivity.
  - unfold run, try_except, bind, lift, raise, ret. cbv beta zeta.
    destruct ((n - 1 <? 0) || (n - 1 >=? len SENTENCES)); reflexivity.
Qed.

Lemma run_pick_sentence_invalid w line rest :
  stdin w = line :: rest →
  lower (strip line) ∉ ["q"; "quit"; "exit"] →
  (py_int (strip line) = inl ValueError
   ∨ ∃ n, py_int (strip line) = inr n
          ∧ (n - 1 < 0 ∨ len SENTENCES ≤ n - 1)) →
  run pick_sentence w =
  (Continue, prints [EnterNumber (len SENTENCES)] (picked line rest w)).
Proof.
  intros Hin Hquit Hbad. unfold pick_sentence.
  rewrite run_bind_print. fold pick_prompt.
  rewrite run_bind, (picked_input line rest) by done. cbv beta iota zeta.
  rewrite bool_decide_eq_false_2 by done.
  rewrite run_bind, run_ret. cbv beta iota.
  rewrite run_bind, run_parse_index.
  destruct Hbad as [->|(n & -> & Hn)]; [done|].
  assert ((n - 1 <? 0) || (n - 1 >=? len SENTENCES) = true) as ->; [|done].
  apply orb_true_iff. destruct Hn; [left|right]; lia.
Qed.

Lemma run_pick_sentence_valid w line rest n :
  stdin w = line :: rest →
  lower (strip line) ∉ ["q"; "quit"; "exit"] →
  py_int (strip line) = inr n →
  0 ≤ n - 1 < len SENTENCES →
  ∃ sentence,
    SENTENCES !! Z.to_nat (n - 1) = Some sentence
    ∧ run pick_sentence w =
      (Returns sentence,
       prints [TargetSentence sentence] (picked line rest w)).
Proof.
  intros Hin Hquit Hint Hn.
  destruct (SENTENCES !! Z.to_nat (n - 1)) as [sentence|] eqn:Hs.
  2:{ apply lookup_ge_None in Hs. unfold len in Hn. lia. }
  exists sentence. split; [done|]. unfold pick_sentence.
  rewrite run_bind_print. fold pick_prompt.
  rewrite run_bind, (picked_input line rest) by done. cbv beta iota zeta.
  rewrite bool_decide_eq_false_2 by done.
  rewrite run_bind, run_ret. cbv beta iota.
  rewrite run_bind, run_parse_index, Hint.
  assert ((n - 1 <? 0) || (n - 1 >=? len SENTENCES) = false) as ->.
  { apply orb_false_iff. split; lia. }
  rewrite run_bind_lift, (py_index_lookup _ _ sentence) by (done || lia).
  by rewrite run_bind_print, run_ret.
Qed.

(** ** Reaching a step *)

Ltac case_run H :=
  rewrite run_bind in H;
  match type of H with
  | context [run ?m ?w] =>
      let E := fresh "E" in
      destruct (run m w) as [[?|?| | |] ?] eqn:E; try discriminate H
  end.

Lemma reach_generate w sentence w1 :
  run pick_sentence w = (Returns sentence, w1) →
  run main_iteration w =
  run (generate_reference sentence;;
       record_attempt;;
       transcription ← transcribe;
       assessment ← assess sentence;
       print_feedback assessment transcription sentence) w1.
Proof. intros H. unfold main_iteration. by rewrite run_bind, H. Qed.

Lemma reach_record w sentence w1 :
  run (s ← pick_sentence; generate_reference s;; ret s) w
  = (Returns sentence, w1) →
  run main_iteration w =
  run (record_attempt;;
       transcription ← transcribe;
       assessment ← assess sentence;
       print_feedback assessment transcription sentence) w1.
Proof.
  intros H. unfold main_iteration.
  case_run H. case_run H. injection H as <- <-.
  by rewrite run_bind, E, run_bind, E0.
Qed.

Lemma reach_transcribe w sentence w1 :
  run (s ← pick_sentence; generate_reference s;; record_attempt;; ret s) w
  = (Returns sentence, w1) →
  run main_iteration w =
  run (transcription ← transcribe;
       assessment ← assess sentence;
       print_feedback assessment transcription sentence) w1.
Proof.
  intros H. unfold main_iteration.
  case_run H. case_run H. case_run H. injection H as <- <-.
  by rewrite run_bind, E, run_bind, E0, run_bind, E1.
Qed.

Lemma reach_assess w sentence transcription w1 :
  run (s ← pick_sentence; generate_reference s;; record_attempt;;
       t ← transcribe; ret (s, t)) w
  = (Returns (sentence, transcription), w1) →
  run main_iteration w =
  run (assessment ← assess sentence;
       print_feedback assessment transcription sentence) w1.
Proof.
  intros H. unfold main_iteration.
  case_run H. case_run H. case_run H. case_run H. injection H as <- <- <-.
  by rewrite run_bind, E, run_bind, E0, run_bind, E1, run_bind, E2.
Qed.

(** ** The claims about the loop *)

(** C5.  A service error in the transcription step, or in the assessment
    step, ends the iteration with [continue]: once the failed request is
    logged and the error line printed nothing else happens, whatever the
    steps downstream are, and the loop goes on with the choice of the
    next sentence.  After a failed transcription no assessment request is
    sent and no report is printed; after a failed assessment no report is
    printed. *)
Theorem service_error_aborts_iteration :
  (∀ w sentence w1 audio e,
     run (s ← pick_sentence; generate_reference s;; record_attempt;; ret s) w
     = (Returns sentence, w1) →
     shd (readable w1) = Some audio →
     service_error (shd (service w1)) = Some e →
     let w2 :=
       World (stdin w1) (stl (service w1)) (present w1) (stl (readable w1))
             (writable w1)
             (trace w1 ++
              [ Printed (Text (nl +:+ "  Step 3: Transcribing your recording..."));
                Opened user_audio (Some audio);
                Posted (Request (BASE_URL +:+ "/stt/transcribe/base64")
                                (SttPayload audio true))
                       (shd (service w1));
                Printed (SttError e) ]) in
     (∀ downstream : value → M unit,
        run (transcription ← transcribe; downstream transcription) w1
        = (Continue, w2))
     ∧ run main_iteration w = (Continue, w2)
     ∧ ∀ fuel, run (while_true (S fuel) main_iteration) w
               = run (while_true fuel main_iteration) w2)
  ∧ (∀ w sentence transcription w1 audio e,
       run (s ← pick_sentence; generate_reference s;; record_attempt;;
            t ← transcribe; ret (s, t)) w
       = (Returns (sentence, transcription), w1) →
       shd (readable w1) = Some audio →
       service_error (shd (service w1)) = Some e →
       let w2 :=
         World (stdin w1) (stl (service w1)) (present w1) (stl (readable w1))
               (writable w1)
               (trace w1 ++
                [ Printed (Text "  Step 4: Scoring pronunciation...");
                  Opened user_audio (Some audio);
                  Posted (Request (BASE_URL +:+ "/pronunciation/assess/base64")
                                  (AssessPayload audio sentence "wav"))
                         (shd (service w1));
                  Printed (AssessmentError e) ]) in
       (∀ downstream : value → M unit,
          run (assessment ← assess sentence; downstream assessment) w1
          = (Continue, w2))
       ∧ run main_iteration w = (Continue, w2)
       ∧ ∀ fuel, run (while_true (S fuel) main_iteration) w
                 = run (while_true fuel main_iteration) w2).
Proof.
  split.
  - intros w sentence w1 audio e Hreach Hread Herr w2.
    assert (∀ downstream : value → M unit,
              run (transcription ← transcribe; downstream transcription) w1
              = (Continue, w2)) as Hskip.
    { intros downstream. apply run_bind_continue.
      by apply run_transcribe_error. }
    assert (run main_iteration w = (Continue, w2)) as Hrun.
    { rewrite (reach_transcribe _ _ _ Hreach). apply Hskip. }
    split_and!; [done|done|].
    intros fuel. by apply run_while_true_continue.
  - intros w sentence transcription w1 audio e Hreach Hread Herr w2.
    assert (∀ downstream : value → M unit,
              run (assessment ← assess sentence; downstream assessment) w1
              = (Continue, w2)) as Hskip.
    { intros downstream. apply run_bind_continue.
      by apply run_assess_error. }
    assert (run main_iteration w = (Continue, w2)) as Hrun.
    { rewrite (reach_assess _ _ _ _ Hreach). apply Hskip. }
    split_and!; [done|done|].
    intros fuel. by apply run_while_true_continue.
Qed.

(** C7.  A service error in the synthesis step is not fatal:
    [tts_synthesize] prints the error and returns [False], step 1 prints
    that it continues anyway and returns, and the iteration goes on with
    the recording step, followed by the transcription, the assessment and
    the feedback.  Whatever the service answers, step 1 neither leaves
    the iteration ([continue]) nor the loop ([break]), and it lets no
    service error out. *)
Theorem synthesis_error_is_not_fatal :
  (∀ w sentence w1 e,
     run pick_sentence w = (Returns sentence, w1) →
     service_error (shd (service w1)) = Some e →
     let request :=
       Posted (Request (BASE_URL +:+ "/tts/synthesize")
                       (TtsPayload sentence "af_heart" (9 # 10) "wav"))
              (shd (service w1)) in
     let w2 :=
       World (stdin w1) (stl (service w1)) (present w1) (readable w1)
             (writable w1)
             (trace w1 ++
              [ Printed (Text (nl +:+ "  Step 1: Generating reference audio..."));
                request;
                Printed (TtsError e);
                Printed (Text "  Could not generate reference audio. Continuing anyway...") ]) in
     run (tts_synthesize sentence ref_audio "af_heart" (9 # 10)) w1
     = (Returns false,
        World (stdin w1) (stl (service w1)) (present w1) (readable w1)
              (writable w1) (trace w1 ++ [request; Printed (TtsError e)]))
     ∧ run (generate_reference sentence) w1 = (Returns tt, w2)
     ∧ run main_iteration w =
       run (record_attempt;;
            transcription ← transcribe;
            assessment ← assess sentence;
            print_feedback assessment transcription sentence) w2)
  ∧ (∀ sentence w,
       ∃ out w',
         run (generate_reference sentence) w = (out, w')
         ∧ out ≠ Continue ∧ out ≠ Break
         ∧ (∀ e, out = Raises e → is_HTTPError e = false)).
Proof.
  split.
  - intros w sentence w1 e Hpick Herr request w2. split_and!.
    + by apply run_tts_synthesize_error.
    + by apply run_generate_reference_error.
    + rewrite (reach_generate _ _ _ Hpick), run_bind.
      by rewrite (run_generate_reference_error _ _ e).
  - intros sentence w. apply run_generate_reference_outcome.
Qed.

(** C8.  When the recording is not there once the learner has pressed
    Enter, [record_audio] says so and returns [False], and the iteration
    ends with [continue] after the line that tells it is skipped: the
    recording is not opened, no request is sent, no report is printed,
    whatever the steps downstream are, and the loop goes on with the
    choice of the next sentence. *)
Theorem no_recording_aborts_iteration w sentence w1 answer rest :
  run (s ← pick_sentence; generate_reference s;; ret s) w
  = (Returns sentence, w1) →
  stdin w1 = answer :: rest →
  shd (present w1) = false →
  let w2 :=
    World rest (service w1) (stl (present w1)) (readable w1) (writable w1)
          (trace w1 ++ recording_events answer ++
           [ Checked user_audio false;
             Printed (FileNotFound user_audio);
             Printed Skipping ]) in
  (∃ w', run (record_audio user_audio 5)
             (prints [Text (nl +:+ "  Step 2: Record yourself saying the sentence.")] w1)
         = (Returns false, w'))
  ∧ (∀ downstream : M unit, run (record_attempt;; downstream) w1 = (Continue, w2))
  ∧ run main_iteration w = (Continue, w2)
  ∧ ∀ fuel, run (while_true (S fuel) main_iteration) w
            = run (while_true fuel main_iteration) w2.
Proof.
  intros Hreach Hin Hfile w2.
  assert (∀ downstream : M unit,
            run (record_attempt;; downstream) w1 = (Continue, w2)) as Hskip.
  { intros downstream. apply run_bind_continue.
    by apply run_record_attempt_missing. }
  assert (run main_iteration w = (Continue, w2)) as Hrun.
  { rewrite (reach_record _ _ _ Hreach). apply Hskip. }
  split_and!; [|done|done|].
  - eexists. rewrite (run_record_audio _ _ _ answer rest) by done.
    simpl. by rewrite Hfile.
  - intros fuel. by apply run_while_true_continue.
Qed.

(** ** The choice of a sentence *)

Lemma run_main_iteration_break w w' :
  run pick_sentence w = (Break, w') → run main_iteration w = (Break, w').
Proof. intros H. unfold main_iteration. by apply run_bind_break. Qed.

Lemma run_main_iteration_continue w w' :
  run pick_sentence w = (Continue, w') → run main_iteration w = (Continue, w').
Proof. intros H. unfold main_iteration. by apply run_bind_continue. Qed.

(** [int] either gives a number or raises [ValueError]. *)
Lemma py_int_cases s : py_int s = inl ValueError ∨ ∃ n, py_int s = inr n.
Proof.
  unfold py_int.
  destruct (match reverse (lskip (reverse (lskip (to_ascii_space <$> _)))) with
            | [] => _ | _ => _ end) as [sign l].
  destruct (digits l 0 false); [|by left].
  destruct (_ <? _); eauto.
Qed.

(** C6.  At the choice of a sentence, whatever the line typed (and
    whatever happened before):
    - when the line, stripped and put in lower case, is [q], [quit] or
      [exit], the goodbye line is printed, the iteration ends with [break]
      and the loop returns;
    - otherwise, when [int] rejects the line (it is no integer literal,
      or one of more digits than [int] converts), or when the index it
      gives (the number minus one) is negative or not less than the
      number of sentences, the line asking for a number between 1 and
      that number is printed, and the iteration ends with [continue]: the
      loop goes on with the next choice, it does not return;
    - otherwise the sentence chosen is the one stored at that index, and
      it is the one shown as the target and passed on to the steps. *)
Theorem selection_outcomes w line rest :
  stdin w = line :: rest →
  let choice := strip line in
  let w1 := picked line rest w in
  (lower choice ∈ ["q"; "quit"; "exit"] →
     let w2 := prints [Text (nl +:+ "Keep practicing! Goodbye." +:+ nl)] w1 in
     run main_iteration w = (Break, w2)
     ∧ ∀ fuel, run (while_true (S fuel) main_iteration) w = (Returns tt, w2))
  ∧ (lower choice ∉ ["q"; "quit"; "exit"] →
     (py_int choice = inl ValueError
      ∨ ∃ n, py_int choice = inr n ∧ (n - 1 < 0 ∨ len SENTENCES ≤ n - 1)) →
     let w2 := prints [EnterNumber (len SENTENCES)] w1 in
     run main_iteration w = (Continue, w2)
     ∧ ∀ fuel, run (while_true (S fuel) main_iteration) w
               = run (while_true fuel main_iteration) w2)
  ∧ (lower choice ∉ ["q"; "quit"; "exit"] →
     ∀ n, py_int choice = inr n → 0 ≤ n - 1 < len SENTENCES →
     ∃ sentence,
       SENTENCES !! Z.to_nat (n - 1) = Some sentence
       ∧ let w2 := prints [TargetSentence sentence] w1 in
         run pick_sentence w = (Returns sentence, w2)
         ∧ run main_iteration w =
           run (generate_reference sentence;;
                record_attempt;;
                transcription ← transcribe;
                assessment ← assess sentence;
                print_feedback assessment transcription sentence) w2).
Proof.
  intros Hin choice w1. split_and!.
  - intros Hquit w2.
    assert (run main_iteration w = (Break, w2)) as Hrun.
    { apply run_main_iteration_break. by apply run_pick_sentence_quit. }
    split; [done|]. intros fuel. by apply run_while_true_break.
  - intros Hquit Hbad w2.
    assert (run main_iteration w = (Continue, w2)) as Hrun.
    { apply run_main_iteration_continue. by apply run_pick_sentence_invalid. }
    split; [done|]. intros fuel. by apply run_while_true_continue.
  - intros Hquit n Hint Hn.
    destruct (run_pick_sentence_valid w line rest n) as (sentence & Hs & Hrun);
      try done.
    exists sentence. split; [done|]. intros w2. split; [done|].
    by apply reach_generate.
Qed.

Example quit_tokens :
  Forall (λ line, lower (strip line) ∈ ["q"; "quit"; "exit"])
         ["q"; "Q"; "quit"; "QUIT"; "Exit"; " eXiT  "].
Proof. repeat constructor. Qed.

(** [int] converts a literal of 4300 digits and refuses one of 4301,
    whatever its value: 4300 zeros before a 3 are no choice of the third
    sentence. *)
Example int_digit_limit :
  py_int (strip (times "0" 4299 +:+ "3")) = inr 3
  ∧ py_int (strip (times "0" 4300 +:+ "3")) = inl ValueError
  ∧ py_int (" 1_0" +:+ times "0" 4298) = inr (10 ^ 4299)
  ∧ py_int (" 1_0" +:+ times "0" 4299) = inl ValueError.
Proof. split_and!; vm_compute; reflexivity. Qed.

(** With such a line the learner is asked again. *)
Example long_line_is_refused (w : world) (rest : list string) :
  stdin w = (times "0" 4300 +:+ "3") :: rest →
  run pick_sentence w =
  (Continue,
   prints [EnterNumber (len SENTENCES)]
          (picked (times "0" 4300 +:+ "3") rest w)).
Proof.
  intros Hin. apply run_pick_sentence_invalid; [done| |].
  - apply (bool_decide_unpack _). vm_compute. reflexivity.
  - left. vm_compute. reflexivity.
Qed.

End Session.

(** Examples, with the decoder of the sample bodies. *)
Section SessionExamples.

#[local] Existing Instance sample_decoder.

(** The learner picks sentence 5 and records it, and the reference audio
    is generated.  When the transcription service then answers 503, the
    iteration ends with [continue] after the error line: neither an
    assessment request nor a report follows.  When the transcription
    succeeds and the assessment service cannot be reached, the iteration
    ends with [continue] after the error line: no report follows. *)
Lemma service_error_aborts_iteration_witness :
  (∃ w2,
     run main_iteration stt_down = (Continue, w2)
     ∧ drop 25 (trace w2) =
       [ Printed (Text (nl +:+ "  Step 3: Transcribing your recording..."));
         Opened user_audio (Some wav);
         Posted (Request (BASE_URL +:+ "/stt/transcribe/base64")
                         (SttPayload wav true))
                unavailable;
         Printed (SttError (HTTPStatusError 503)) ])
  ∧ (∃ w2,
       run main_iteration assess_down = (Continue, w2)
       ∧ drop 28 (trace w2) =
         [ Printed (Text "  Step 4: Scoring pronunciation...");
           Opened user_audio (Some wav);
           Posted (Request (BASE_URL +:+ "/pronunciation/assess/base64")
                           (AssessPayload wav fox_sentence "wav"))
                  (PostRaises RequestError);
           Printed (AssessmentError RequestError) ]).
Proof.
  destruct service_error_aborts_iteration as [Hstt Hassess]. split.
  - pose (w1 := (run (s ← pick_sentence; generate_reference s;;
                      record_attempt;; ret s) stt_down).2).
    destruct (Hstt stt_down fox_sentence w1 wav (HTTPStatusError 503))
      as (_ & Hrun & _); [vm_compute; reflexivity..|].
    eexists. split; [exact Hrun|]. vm_compute. reflexivity.
  - pose (w1 := (run (s ← pick_sentence; generate_reference s;;
                      record_attempt;; t ← transcribe; ret (s, t))
                     assess_down).2).
    destruct (Hassess assess_down fox_sentence heard w1 wav RequestError)
      as (_ & Hrun & _); [vm_compute; reflexivity..|].
    eexists. split; [exact Hrun|]. vm_compute. reflexivity.
Defined.

(** The synthesis service answers 503, the other two answer: the
    iteration runs to its end and the report is printed. *)
Lemma synthesis_error_is_not_fatal_witness :
  ∃ w3,
    run main_iteration tts_down = (Returns tt, w3)
    ∧ take 7 (trace w3) =
      [ Printed Blank;
        Prompted pick_prompt (Some "5");
        Printed (TargetSentence fox_sentence);
        Printed (Text (nl +:+ "  Step 1: Generating reference audio..."));
        Posted (Request (BASE_URL +:+ "/tts/synthesize")
                        (TtsPayload fox_sentence "af_heart" (9 # 10) "wav"))
               unavailable;
        Printed (TtsError (HTTPStatusError 503));
        Printed (Text "  Could not generate reference audio. Continuing anyway...") ]
    ∧ grades (printed (trace w3)) = ["Excellent"].
Proof.
  destruct synthesis_error_is_not_fatal as [Htts _].
  pose (w1 := (run pick_sentence tts_down).2).
  destruct (Htts tts_down fox_sentence w1 (HTTPStatusError 503))
    as (_ & _ & Hrun); [vm_compute; reflexivity..|].
  eexists. split; [rewrite Hrun; vm_compute; reflexivity|].
  split; vm_compute; reflexivity.
Defined.

(** The learner picks sentence 5 and presses Enter, but no recording is
    found: the iteration ends with [continue], and its last events are the
    check of the file and the two lines that report it. *)
Lemma no_recording_aborts_iteration_witness :
  ∃ w2,
    run main_iteration no_recording = (Continue, w2)
    ∧ drop 24 (trace w2) =
      [ Checked user_audio false;
        Printed (FileNotFound user_audio);
        Printed Skipping ]
    ∧ shd (readable w2) = Some wav.
Proof.
  pose (w1 := (run (s ← pick_sentence; generate_reference s;; ret s)
                   no_recording).2).
  destruct (no_recording_aborts_iteration no_recording fox_sentence w1
              EmptyString [])
    as (_ & _ & Hrun & _); [vm_compute; reflexivity..|].
  eexists. split; [exact Hrun|]. split; vm_compute; reflexivity.
Defined.

(** [Quit] typed between blanks ends the session; so do [q] and [EXIT]. *)
Lemma selection_outcomes_witness :
  (∃ w2, ∀ fuel,
     run (while_true (S fuel) main_iteration)
         (session ["  Quit "; "3"] [] false) = (Returns tt, w2))
  ∧ (∃ w2, run main_iteration (session ["0"; "3"] [] false) = (Continue, w2)
           ∧ drop 2 (trace w2) = [Printed (EnterNumber 7)])
  ∧ (∃ w2, run pick_sentence (session ["3"] [] false)
           = (Returns "She sells seashells by the seashore.", w2)).
Proof.
  split_and!.
  - destruct (selection_outcomes (session ["  Quit "; "3"] [] false)
                "  Quit " ["3"] eq_refl) as ((_ & Hloop) & _).
    + by apply (bool_decide_unpack _).
    + eexists. exact Hloop.
  - destruct (selection_outcomes (session ["0"; "3"] [] false)
                "0" ["3"] eq_refl) as (_ & Hbad & _).
    destruct Hbad as (Hrun & _).
    + by apply (bool_decide_unpack _).
    + right. exists 0. split; [reflexivity|]. left. lia.
    + eexists. split; [exact Hrun|reflexivity].
  - destruct (selection_outcomes (session ["3"] [] false)
                "3" [] eq_refl) as (_ & _ & Hok).
    destruct (Hok ltac:(by apply (bool_decide_unpack _)) 3 eq_refl
                  ltac:(by vm_compute))
      as (sentence & Hs & Hrun & _).
    injection Hs as <-. eexists. exact Hrun.
Defined.

End SessionExamples.

(* ===================================================================== *)
(** * Termination of the loop                                             *)
(* ===================================================================== *)

Section Termination.

Context {decoder : Decoder}.

Lemma tame_ret {A} (a : A) : tame (ret a).
Proof. intros w. split; [done|reflexivity]. Qed.

Lemma tame_raise {A} e : tame (@raise A e).
Proof. intros w. split; [done|reflexivity]. Qed.

Lemma tame_continue {A} : tame (@continue A).
Proof. intros w. split; [done|reflexivity]. Qed.

Lemma tame_break {A} : tame (@break A).
Proof. intros w. split; [done|reflexivity]. Qed.

Lemma tame_lift {A} (r : result A) : tame (lift r).
Proof. destruct r; [apply tame_raise | apply tame_ret]. Qed.

Lemma tame_print l : tame (print l).
Proof. intros w. split; [done|reflexivity]. Qed.

Lemma tame_sleep n : tame (sleep n).
Proof. intros w. split; [done|reflexivity]. Qed.

Lemma tame_input prompt : tame (input prompt).
Proof.
  intros w. unfold run, input. destruct (stdin w) eqn:E; simpl.
  - rewrite E. split; [done|reflexivity].
  - split; [done|lia].
Qed.

Lemma tame_post req : tame (post req).
Proof.
  intros w. unfold run, post. destruct (shd (service w)); simpl;
    (split; [done|reflexivity]).
Qed.

Lemma tame_raise_for_status resp : tame (raise_for_status resp).
Proof.
  unfold raise_for_status.
  destruct (_ && _); [apply tame_ret | apply tame_raise].
Qed.

Lemma tame_resp_json resp : tame (resp_json resp).
Proof. unfold resp_json. apply tame_lift. Qed.

Lemma tame_write_file path data : tame (write_file path data).
Proof.
  intros w. unfold run, write_file. destruct (shd (writable w)); simpl;
    (split; [done|reflexivity]).
Qed.

Lemma tame_read_file path : tame (read_file path).
Proof.
  intros w. unfold run, read_file. destruct (shd (readable w)); simpl;
    (split; [done|reflexivity]).
Qed.

Lemma tame_path_exists path : tame (path_exists path).
Proof. intros w. split; [done|reflexivity]. Qed.

Lemma tame_bind {A B} (m : M A) (k : A → M B) :
  tame m → (∀ a, tame (k a)) → tame (bind m k).
Proof.
  intros Hm Hk w. rewrite run_bind.
  destruct (Hm w) as [Hout Hlen].
  destruct (run m w) as [[a|e| | |] w']; simpl in *; try done.
  destruct (Hk a w') as [Hout' Hlen']. split; [done|lia].
Qed.

Lemma tame_try_except {A} (m : M A) catches handler :
  tame m → (∀ e, tame (handler e)) → tame (try_except m catches handler).
Proof.
  intros Hm Hh w. unfold run, try_except.
  destruct (Hm w) as [Hout Hlen]. unfold run in *.
  destruct (m w) as [[a|e| | |] w']; simpl in *; try done.
  destruct (catches e); [|done].
  destruct (Hh e w') as [Hout' Hlen']. unfold run in *. split; [done|lia].
Qed.

Lemma tame_for {A} (items : list A) body :
  (∀ x, tame (body x)) → tame (for_ items body).
Proof.
  intros Hbody. induction items as [|x items IH]; simpl.
  - apply tame_ret.
  - apply tame_bind; auto.
Qed.

Lemma tame_for_with {A S} (items : list A) (s : S) body :
  (∀ s x, tame (body s x)) → tame (for_with items s body).
Proof.
  intros Hbody. revert s. induction items as [|x items IH]; intros s; simpl.
  - apply tame_ret.
  - apply tame_bind; auto.
Qed.

Ltac tame :=
  repeat first
    [ apply tame_ret
    | apply tame_raise
    | apply tame_continue
    | apply tame_break
    | apply tame_lift
    | apply tame_print
    | apply tame_sleep
    | apply tame_input
    | apply tame_post
    | apply tame_raise_for_status
    | apply tame_resp_json
    | apply tame_write_file
    | apply tame_read_file
    | apply tame_path_exists
    | apply tame_for_with; intros
    | apply tame_for; intros
    | apply tame_try_except; [|intros]
    | apply tame_bind; [|intros]
    | match goal with
      | |- tame (if ?b then _ else _) => destruct b
      | |- tame (let '(_, _) := ?p in _) => destruct p
      | |- tame (match ?p with _ => _ end) => destruct p
      end ].

Lemma tame_phoneme_step word locals p : tame (phoneme_step word locals p).
Proof. unfold phoneme_step. tame. Qed.

Lemma tame_print_feedback assessment transcription reference :
  tame (print_feedback assessment transcription reference).
Proof. unfold print_feedback. tame. all: apply tame_phoneme_step. Qed.

Lemma tame_tts_synthesize text output_path voice speed :
  tame (tts_synthesize text output_path voice speed).
Proof. unfold tts_synthesize. tame. Qed.

Lemma tame_stt_transcribe audio_path : tame (stt_transcribe audio_path).
Proof. unfold stt_transcribe. tame. Qed.

Lemma tame_pronunciation_assess audio_path reference_text :
  tame (pronunciation_assess audio_path reference_text).
Proof. unfold pronunciation_assess. tame. Qed.

Lemma tame_record_audio output_path duration :
  tame (record_audio output_path duration).
Proof. unfold record_audio. tame. Qed.

Lemma tame_generate_reference sentence : tame (generate_reference sentence).
Proof.
  unfold generate_reference.
  apply tame_bind; [apply tame_print|intros].
  apply tame_bind; [apply tame_tts_synthesize|intros]. tame.
Qed.

Lemma tame_record_attempt : tame record_attempt.
Proof.
  unfold record_attempt.
  apply tame_bind; [apply tame_print|intros].
  apply tame_bind; [apply tame_record_audio|intros]. tame.
Qed.

Lemma tame_transcribe : tame transcribe.
Proof.
  unfold transcribe.
  apply tame_bind; [apply tame_print|intros].
  apply tame_try_except; [apply tame_stt_transcribe|intros]. tame.
Qed.

Lemma tame_assess sentence : tame (assess sentence).
Proof.
  unfold assess.
  apply tame_bind; [apply tame_print|intros].
  apply tame_try_except; [apply tame_pronunciation_assess|intros]. tame.
Qed.

Lemma tame_pick_sentence : tame pick_sentence.
Proof. unfold pick_sentence. tame. Qed.

(** The choice of a sentence reads a line, unless it raises. *)
Lemma pick_sentence_reads w :
  match run pick_sentence w with
  | (Returns _, w') | (Continue, w') | (Break, w') =>
      (length (stdin w') < length (stdin w))%nat
  | _ => True
  end.
Proof.
  unfold pick_sentence, input, print, break, continue, try_except, bind, run.
  simpl. destruct (stdin w) as [|line rest]; simpl; [done|].
  case_bool_decide; simpl; [lia|].
  destruct (py_int (strip line)) as [e|n]; simpl.
  - destruct (is_ValueError e); simpl; [lia|done].
  - destruct (_ || _); simpl; [lia|].
    destruct (py_index SENTENCES (n - 1)); simpl; [done|lia].
Qed.

Lemma main_iteration_reads w :
  (run main_iteration w).1 ≠ Diverges
  ∧ match run main_iteration w with
    | (Returns _, w') | (Continue, w') =>
        (length (stdin w') < length (stdin w))%nat
    | _ => True
    end.
Proof.
  assert (∀ sentence,
            tame (generate_reference sentence;;
                  record_attempt;;
                  transcription ← transcribe;
                  assessment ← assess sentence;
                  print_feedback assessment transcription sentence)) as Hrest.
  { intros sentence.
    apply tame_bind; [apply tame_generate_reference|intros].
    apply tame_bind; [apply tame_record_attempt|intros].
    apply tame_bind; [apply tame_transcribe|intros].
    apply tame_bind; [apply tame_assess|intros].
    apply tame_print_feedback. }
  unfold main_iteration. rewrite run_bind.
  pose proof (pick_sentence_reads w) as Hpick.
  destruct (run pick_sentence w) as [[sentence|e| | |] w1] eqn:E; simpl; try done.
  - destruct (Hrest sentence w1) as [Hout Hlen]. split; [done|].
    destruct (run _ w1) as [[?|?| | |] w2]; simpl in *; try done; lia.
  - pose proof (tame_pick_sentence w) as [Hout _]. by rewrite E in Hout.
Qed.

(** With more steps than lines on the standard input the loop ends: by
    [break], or with an exception ([EOFError] at the latest). *)
Lemma while_true_ends fuel w :
  (length (stdin w) < fuel)%nat →
  (run (while_true fuel main_iteration) w).1 ≠ Diverges.
Proof.
  revert w. induction fuel as [|fuel IH]; intros w Hfuel; [lia|].
  unfold run in *. simpl.
  pose proof (main_iteration_reads w) as [Hout Hlen]. unfold run in *.
  destruct (main_iteration w) as [[[]|e| | |] w']; simpl in *; try done.
  - apply IH. lia.
  - apply IH. lia.
Qed.

Lemma run_menu l w :
  run (for_ l (λ '(i, sentence), print (MenuEntry i sentence))) w =
  (Returns tt, prints ((λ '(i, sentence), MenuEntry i sentence) <$> l) w).
Proof.
  revert w. induction l as [|[i sentence] l IH]; intros w.
  - by rewrite prints_nil.
  - cbn [for_]. rewrite run_bind_print, IH.
    by rewrite fmap_cons, (prints_cons _ (_ <$> _)).
Qed.

(** [main] ends when it is given more steps than there are lines on the
    standard input. *)
Lemma main_ends w :
  (run (main (S (length (stdin w)))) w).1 ≠ Diverges.
Proof.
  unfold main. rewrite !run_bind_print, run_bind, run_menu.
  apply while_true_ends. simpl. lia.
Qed.

End Termination.

(* ===================================================================== *)
(** * The API wrappers                                                    *)
(* ===================================================================== *)

Section Wrappers.

Context {decoder : Decoder}.

Lemma written_app tr1 tr2 : written (tr1 ++ tr2) = written tr1 ++ written tr2.
Proof. apply omap_app. Qed.


Lemma run_post_json req w :
  ∃ r,
    run (resp ← post req; raise_for_status resp;; resp_json resp) w
    = (r, World (stdin w) (stl (service w)) (present w) (readable w)
                (writable w) (trace w ++ [Posted req (shd (service w))]))
    ∧ (∀ v, r = Returns v ↔
            ∃ resp, shd (service w) = Responds resp
                    ∧ service_error (Responds resp) = None
                    ∧ json_loads (content resp) = inr v)
    ∧ (∀ e, service_error (shd (service w)) = Some e → r = Raises e)
    ∧ (∀ resp e, shd (service w) = Responds resp →
                 service_error (Responds resp) = None →
                 json_loads (content resp) = inl e →
                 r = Raises e ∧ is_HTTPError e = false)
    ∧ r ≠ Continue ∧ r ≠ Break ∧ r ≠ Diverges.
Proof.
  unfold post, raise_for_status, resp_json, lift, bind, ret, raise, run, log,
    service_error.
  simpl.
  destruct (shd (service w)) as [resp|e] eqn:Hout; simpl.
  - destruct ((200 <=? status_code resp) && (status_code resp <=? 299))
      eqn:Hstatus; simpl.
    + destruct (json_loads (content resp)) as [e|v] eqn:Hjson; simpl;
        (eexists; split; [reflexivity|]); split_and!; try done.
      * intros v. split; [done|].
        intros (resp0 & [= <-] & _ & Hv). congruence.
      * intros resp0 e0 [= <-] _ Hv. split; [congruence|].
        by eapply json_loads_raises.
      * intros v0. split.
        -- intros [= <-]. exists resp. by rewrite Hstatus.
        -- intros (resp0 & [= <-] & _ & Hv). congruence.
      * intros resp0 e0 [= <-] _ Hv. congruence.
    + eexists; split; [reflexivity|]. split_and!; try done.
      * intros v. split; [done|].
        intros (resp0 & [= <-] & Hok & _). by rewrite Hstatus in Hok.
      * by intros e [= <-].
      * intros resp0 e0 [= <-] Hok. by rewrite Hstatus in Hok.
  - eexists; split; [reflexivity|]. split_and!; try done.
    + intros v. split; [done|]. by intros (resp0 & [=] & _).
    + intros e0. destruct (is_HTTPError e); [by intros [= <-]|done].
Qed.

(** X2.  [stt_transcribe] and [pronunciation_assess] open the audio file
    first: when it cannot be opened they raise [OSError] and send nothing.
    Otherwise they send exactly one request, which carries the content of
    the file (and, for the assessment, the reference text), and they
    return a value exactly when the answer has a success status and
    [json.loads] accepts its content; the value is the one [json.loads]
    gives for that content.  A service error is raised to the caller.
    When the status is a success and [json.loads] raises on the content
    ([JSONDecodeError], [UnicodeDecodeError], [ValueError]), that
    exception is raised to the caller; it is no [httpx.HTTPError]. *)
Theorem wrappers_read_then_post audio_path reference_text w :
  let after_open out :=
    World (stdin w) (service w) (present w) (stl (readable w)) (writable w)
          (trace w ++ [Opened audio_path out]) in
  let after_post audio req :=
    World (stdin w) (stl (service w)) (present w) (stl (readable w))
          (writable w)
          (trace w ++ [Opened audio_path (Some audio);
                       Posted req (shd (service w))]) in
  let decoded (r : outcome value) :=
    (∀ v, r = Returns v ↔
          ∃ resp, shd (service w) = Responds resp
                  ∧ service_error (Responds resp) = None
                  ∧ json_loads (content resp) = inr v)
    ∧ (∀ e, service_error (shd (service w)) = Some e → r = Raises e)
    ∧ (∀ resp e, shd (service w) = Responds resp →
                 service_error (Responds resp) = None →
                 json_loads (content resp) = inl e →
                 r = Raises e ∧ is_HTTPError e = false) in
  (shd (readable w) = None →
     run (stt_transcribe audio_path) w = (Raises OSError, after_open None)
     ∧ run (pronunciation_assess audio_path reference_text) w
       = (Raises OSError, after_open None))
  ∧ (∀ audio, shd (readable w) = Some audio →
       (∃ r, run (stt_transcribe audio_path) w
             = (r, after_post audio
                     (Request (BASE_URL +:+ "/stt/transcribe/base64")
                              (SttPayload audio true)))
             ∧ decoded r)
       ∧ (∃ r, run (pronunciation_assess audio_path reference_text) w
               = (r, after_post audio
                       (Request (BASE_URL +:+ "/pronunciation/assess/base64")
                                (AssessPayload audio reference_text "wav")))
               ∧ decoded r)).
Proof.
  intros after_open after_post decoded. split.
  - intros Hread. unfold stt_transcribe, pronunciation_assess.
    rewrite !run_bind. unfold run at 1 3, read_file. rewrite Hread.
    split; reflexivity.
  - intros audio Hread. unfold stt_transcribe, pronunciation_assess. split.
    + rewrite run_bind. unfold run at 1, read_file. rewrite Hread. cbv iota.
      destruct (run_post_json
                  (Request (BASE_URL +:+ "/stt/transcribe/base64")
                           (SttPayload audio true))
                  (log (Opened audio_path (Some audio))
                       (World (stdin w) (service w) (present w)
                              (stl (readable w)) (writable w) (trace w))))
        as (r & Hrun & Hv & He & Hj & _).
      exists r. split; [|done].
      rewrite Hrun. unfold after_post, log. simpl. by rewrite <- app_assoc.
    + rewrite run_bind. unfold run at 1, read_file. rewrite Hread. cbv iota.
      destruct (run_post_json
                  (Request (BASE_URL +:+ "/pronunciation/assess/base64")
                           (AssessPayload audio reference_text "wav"))
                  (log (Opened audio_path (Some audio))
                       (World (stdin w) (service w) (present w)
                              (stl (readable w)) (writable w) (trace w))))
        as (r & Hrun & Hv & He & Hj & _).
      exists r. split; [|done].
      rewrite Hrun. unfold after_post, log. simpl. by rewrite <- app_assoc.
Qed.

End Wrappers.

(** Examples, with the decoder of the sample bodies. *)
Section WrappersExamples.

#[local] Existing Instance sample_decoder.

(** The recording is there.  The transcription service answers 503: the
    error is raised.  It answers 200 with bytes that are not UTF-8:
    [UnicodeDecodeError] is raised.  It answers 200 with the text of a
    transcription: the dictionary is returned. *)
Lemma wrappers_read_then_post_witness :
  (∃ w', run (stt_transcribe user_audio) (session [] [unavailable] true)
         = (Raises (HTTPStatusError 503), w')
         ∧ requests (trace w')
           = [Request (BASE_URL +:+ "/stt/transcribe/base64")
                      (SttPayload wav true)])
  ∧ (∃ w', run (stt_transcribe user_audio)
               (session [] [json_reply not_utf8] true)
           = (Raises UnicodeDecodeError, w'))
  ∧ (∃ w', run (stt_transcribe user_audio)
               (session [] [json_reply heard_body] true)
           = (Returns heard, w')).
Proof.
  split_and!.
  - destruct (wrappers_read_then_post user_audio fox_sentence
                (session [] [unavailable] true)) as [_ Hsome].
    destruct (Hsome wav eq_refl) as [(r & Hrun & _ & He & _) _].
    rewrite (He (HTTPStatusError 503) eq_refl) in Hrun.
    eexists. split; [exact Hrun|]. reflexivity.
  - destruct (wrappers_read_then_post user_audio fox_sentence
                (session [] [json_reply not_utf8] true)) as [_ Hsome].
    destruct (Hsome wav eq_refl) as [(r & Hrun & _ & _ & Hj) _].
    destruct (Hj (Response 200 not_utf8) UnicodeDecodeError eq_refl eq_refl)
      as [Hr _]; [vm_compute; reflexivity|].
    rewrite Hr in Hrun. eexists. exact Hrun.
  - destruct (wrappers_read_then_post user_audio fox_sentence
                (session [] [json_reply heard_body] true)) as [_ Hsome].
    destruct (Hsome wav eq_refl) as [(r & Hrun & Hv & _) _].
    assert (r = Returns heard) as Hr.
    { apply Hv. exists (Response 200 heard_body).
      split_and!; [reflexivity|reflexivity|vm_compute; reflexivity]. }
    rewrite Hr in Hrun. eexists. exact Hrun.
Defined.

End WrappersExamples.

(* ===================================================================== *)
(** * The recording placeholder                                           *)
(* ===================================================================== *)

Section Recording.

Lemma slept_app tr1 tr2 : slept (tr1 ++ tr2) = slept tr1 + slept tr2.
Proof.
  unfold slept. induction tr1 as [|e tr1 IH]; simpl; [done|].
  destruct e; lia.
Qed.

Lemma countdowns_app tr1 tr2 :
  countdowns (tr1 ++ tr2) = countdowns tr1 ++ countdowns tr2.
Proof. apply omap_app. Qed.

Lemma requests_app tr1 tr2 : requests (tr1 ++ tr2) = requests tr1 ++ requests tr2.
Proof. apply omap_app. Qed.

Lemma opened_app tr1 tr2 : opened (tr1 ++ tr2) = opened tr1 ++ opened tr2.
Proof. apply omap_app. Qed.

Lemma ticks_views l :
  slept (ticks l) = Z.of_nat (length l) ∧ countdowns (ticks l) = l
  ∧ requests (ticks l) = [] ∧ opened (ticks l) = [] ∧ written (ticks l) = []
  ∧ ∀ p, Printed (FileNotFound p) ∉ ticks l.
Proof.
  induction l as [|r l (Hs & Hc & Hr & Ho & Hw & Hn)]; simpl.
  - split_and!; try done. intros p H. by apply elem_of_nil in H.
  - split_and!; try done.
    + unfold slept in *. simpl. lia.
    + unfold countdowns in *. simpl. by rewrite Hc.
    + intros p H. apply elem_of_cons in H as [?|H]; [done|].
      apply elem_of_cons in H as [?|H]; [done|]. by apply (Hn p).
Qed.

(** The countdown runs from [n] down to 1. *)
Lemma range_down_seqZ n : range_down n = reverse (seqZ 1 n).
Proof.
  unfold range_down. apply list_eq. intros i.
  destruct (decide (i < Z.to_nat n)%nat) as [Hi|Hi].
  - rewrite list_lookup_fmap, reverse_lookup by (rewrite length_seqZ; lia).
    rewrite lookup_seq_lt by lia. simpl.
    rewrite length_seqZ, lookup_seqZ_lt by lia. f_equal. lia.
  - rewrite !lookup_ge_None_2; [done| |].
    + rewrite length_reverse, length_seqZ. lia.
    + rewrite length_fmap, length_seq. lia.
Qed.

Lemma run_record_audio_eof output_path duration w :
  stdin w = [] →
  run (record_audio output_path duration) w =
  (Raises EOFError,
   World [] (service w) (present w) (readable w) (writable w)
         (trace w ++
          [ Printed (RecordingPlaceholder duration);
            Printed (PlaceFileAt output_path);
            Printed (Text "  Then press Enter to continue...") ] ++
          ticks (range_down (trunc duration)) ++
          [ Printed Blank;
            Prompted "  Press Enter when your recording is ready > " None ])).
Proof.
  intros Hin. unfold record_audio.
  rewrite !run_bind_print, run_bind, run_countdown.
  unfold input, print, bind, run, log, prints, ticks. simpl.
  rewrite Hin. simpl. by rewrite <- ?app_assoc.
Qed.

(** X3.  [record_audio] counts down from the whole seconds of [duration] to
    1, sleeping one second after each number (no countdown when there is
    no whole second), then waits for a line on the standard input and
    checks the file once.  It returns what the check says, and prints that
    the file was not found exactly when it returns [False]; it sends no
    request and neither opens nor writes any file.  At the end of the
    standard input the prompt raises [EOFError] and the file is not
    checked. *)
Theorem record_audio_behaviour output_path duration w :
  (∀ answer rest, stdin w = answer :: rest →
     ∃ w' evs,
       run (record_audio output_path duration) w
       = (Returns (shd (present w)), w')
       ∧ trace w' = trace w ++ evs
       ∧ stdin w' = rest
       ∧ present w' = stl (present w)
       ∧ countdowns evs = reverse (seqZ 1 (trunc duration))
       ∧ slept evs = Z.max 0 (trunc duration)
       ∧ requests evs = [] ∧ opened evs = [] ∧ written evs = []
       ∧ (Printed (FileNotFound output_path) ∈ evs ↔ shd (present w) = false))
  ∧ (stdin w = [] →
     ∃ w' evs,
       run (record_audio output_path duration) w = (Raises EOFError, w')
       ∧ trace w' = trace w ++ evs
       ∧ present w' = present w
       ∧ slept evs = Z.max 0 (trunc duration)).
Proof.
  pose proof (ticks_views (range_down (trunc duration)))
    as (Hs & Hc & Hr & Ho & Hw & Hn).
  assert (Z.of_nat (length (range_down (trunc duration)))
          = Z.max 0 (trunc duration)) as Hlen.
  { unfold range_down. rewrite length_fmap, length_seq. lia. }
  split.
  - intros answer rest Hin.
    rewrite (run_record_audio _ _ _ answer rest) by done.
    eexists _, _. split; [reflexivity|]. split; [reflexivity|].
    fold (ticks (range_down (trunc duration))).
    split_and!; try done.
    + rewrite (countdowns_app [_; _; _]), countdowns_app, countdowns_app, Hc.
      rewrite range_down_seqZ. simpl.
      destruct (shd (present w)); simpl; by rewrite app_nil_r.
    + rewrite (slept_app [_; _; _]), slept_app, slept_app, Hs, Hlen.
      destruct (shd (present w)); simpl; unfold slept; simpl; lia.
    + rewrite (requests_app [_; _; _]), requests_app, requests_app, Hr.
      by destruct (shd (present w)).
    + rewrite (opened_app [_; _; _]), opened_app, opened_app, Ho.
      by destruct (shd (present w)).
    + rewrite (written_app [_; _; _]), written_app, written_app, Hw.
      by destruct (shd (present w)).
    + rewrite !elem_of_app. destruct (shd (present w)); split; try done.
      * intros [H|[H|[H|H]]].
        -- set_solver.
        -- by apply Hn in H.
        -- set_solver.
        -- by apply elem_of_nil in H.
      * intros _. right. right. right. set_solver.
  - intros Hin. rewrite run_record_audio_eof by done.
    eexists _, _. split; [reflexivity|]. split; [reflexivity|].
    split; [done|].
    rewrite (slept_app [_; _; _]), slept_app, Hs, Hlen. unfold slept. simpl. lia.
Qed.

(** With the duration 5.0 and no recording: five numbers counted, five
    seconds slept, [False] returned. *)
Lemma record_audio_behaviour_witness :
  ∃ w' evs,
    run (record_audio user_audio 5) (session [EmptyString] [] false)
    = (Returns false, w')
    ∧ trace w' = evs
    ∧ countdowns evs = [5; 4; 3; 2; 1]
    ∧ slept evs = 5.
Proof.
  destruct (record_audio_behaviour user_audio 5 (session [EmptyString] [] false))
    as [Hline _].
  destruct (Hline EmptyString [] eq_refl)
    as (w' & evs & Hrun & Htr & _ & _ & Hc & Hs & _).
  exists w', evs. split_and!; try done.
Defined.

End Recording.

(* ===================================================================== *)
(** * How statements end                                                  *)
(* ===================================================================== *)

Section Endings.

Context {decoder : Decoder}.

Lemma ends_mono {A} (P Q : ending → Prop) (m : M A) :
  (∀ k, P k → Q k) → ends P m → ends Q m.
Proof. intros HPQ Hm w. apply HPQ, Hm. Qed.

Lemma ends_ret {A} (P : ending → Prop) (a : A) : P Returned → ends P (ret a).
Proof. intros H w. exact H. Qed.

Lemma ends_raise {A} (P : ending → Prop) e : P (Raised e) → ends P (@raise A e).
Proof. intros H w. exact H. Qed.

Lemma ends_continue {A} (P : ending → Prop) : P Continued → ends P (@continue A).
Proof. intros H w. exact H. Qed.

Lemma ends_break {A} (P : ending → Prop) : P Broke → ends P (@break A).
Proof. intros H w. exact H. Qed.

Lemma ends_lift {A} (P : ending → Prop) (r : result A) :
  P Returned → (∀ e, r = inl e → P (Raised e)) → ends P (lift r).
Proof.
  intros Hret Hraise. destruct r as [e|a].
  - apply ends_raise. by apply Hraise.
  - by apply ends_ret.
Qed.

Lemma ends_print (P : ending → Prop) l : P Returned → ends P (print l).
Proof. intros H w. exact H. Qed.

Lemma ends_sleep (P : ending → Prop) n : P Returned → ends P (sleep n).
Proof. intros H w. exact H. Qed.

Lemma ends_path_exists (P : ending → Prop) path :
  P Returned → ends P (path_exists path).
Proof. intros H w. exact H. Qed.

Lemma ends_input (P : ending → Prop) prompt :
  P Returned → P (Raised EOFError) → ends P (input prompt).
Proof. intros H1 H2 w. unfold run, input. by destruct (stdin w). Qed.

Lemma ends_read_file (P : ending → Prop) path :
  P Returned → P (Raised OSError) → ends P (read_file path).
Proof. intros H1 H2 w. unfold run, read_file. by destruct (shd (readable w)). Qed.

Lemma ends_write_file (P : ending → Prop) path data :
  P Returned → P (Raised OSError) → ends P (write_file path data).
Proof. intros H1 H2 w. unfold run, write_file. by destruct (shd (writable w)). Qed.

Lemma ends_post (P : ending → Prop) req :
  P Returned → (∀ e, P (Raised e)) → ends P (post req).
Proof.
  intros H1 H2 w. unfold run, post.
  destruct (shd (service w)); simpl; [exact H1 | apply H2].
Qed.

Lemma ends_raise_for_status (P : ending → Prop) resp :
  P Returned → (∀ s, P (Raised (HTTPStatusError s))) →
  ends P (raise_for_status resp).
Proof.
  intros H1 H2. unfold raise_for_status.
  destruct (_ && _); [by apply ends_ret | by apply ends_raise].
Qed.

Lemma ends_resp_json (P : ending → Prop) resp :
  P Returned → (∀ e, is_HTTPError e = false → P (Raised e)) →
  ends P (resp_json resp).
Proof.
  intros H1 H2. unfold resp_json. apply ends_lift; [done|].
  intros e He. by eapply H2, json_loads_raises.
Qed.

Lemma ends_bind {A B} (P : ending → Prop) (m : M A) (k : A → M B) :
  ends P m → (∀ a, ends P (k a)) → ends P (bind m k).
Proof.
  intros Hm Hk w. rewrite run_bind. specialize (Hm w).
  destruct (run m w) as [[a|e| | |] w']; simpl in *; try done. apply Hk.
Qed.

Lemma ends_try_except {A} (P : ending → Prop) (m : M A) catches handler :
  ends (λ k, P k ∨ ∃ e, k = Raised e ∧ catches e = true) m →
  (∀ e, ends P (handler e)) →
  ends P (try_except m catches handler).
Proof.
  intros Hm Hh w. specialize (Hm w). unfold run, try_except in *.
  destruct (m w) as [[a|e| | |] w']; simpl in *;
    try (destruct Hm as [Hm|(e' & [=] & _)]; done).
  destruct (catches e) eqn:Hc.
  - apply Hh.
  - destruct Hm as [Hm|(e' & [= <-] & He)]; [done|congruence].
Qed.

Lemma ends_for {A} (P : ending → Prop) (items : list A) body :
  P Returned → (∀ x, ends P (body x)) → ends P (for_ items body).
Proof.
  intros Hret Hbody. induction items as [|x items IH]; simpl.
  - by apply ends_ret.
  - apply ends_bind; auto.
Qed.

Lemma ends_for_with {A S} (P : ending → Prop) (items : list A) (s : S) body :
  P Returned → (∀ s x, ends P (body s x)) → ends P (for_with items s body).
Proof.
  intros Hret Hbody. revert s. induction items as [|x items IH]; intros s; simpl.
  - by apply ends_ret.
  - apply ends_bind; auto.
Qed.

End Endings.

(** The rules above, applied as far as they go. *)
Ltac ends :=
  repeat first
    [ apply ends_ret
    | apply ends_raise
    | apply ends_continue
    | apply ends_break
    | apply ends_print
    | apply ends_sleep
    | apply ends_path_exists
    | apply ends_input
    | apply ends_read_file
    | apply ends_write_file
    | apply ends_raise_for_status; [|intros]
    | apply ends_resp_json; [|intros ? ?]
    | apply ends_for_with; [|intros]
    | apply ends_for; [|intros]
    | apply ends_bind; [|intros]
    | match goal with
      | |- ends _ (if ?b then _ else _) => destruct b
      | |- ends _ (let '(_, _) := ?p in _) => destruct p
      | |- ends _ (match ?p with _ => _ end) => destruct p
      end ].


(* ===================================================================== *)
(** * More on the feedback engine                                         *)
(* ===================================================================== *)

Section FeedbackMore.

Lemma py_get_raises d key dflt e :
  py_get d key dflt = inl e → e = AttributeError.
Proof. destruct d; simpl; congruence. Qed.

Lemma py_ge_raises v k e : py_ge v k = inl e → e = TypeError.
Proof. unfold py_ge. destruct (as_number v); congruence. Qed.

Lemma py_lt_raises v k e : py_lt v k = inl e → e = TypeError.
Proof. unfold py_lt. destruct (as_number v); congruence. Qed.

Lemma py_iter_raises v e : py_iter v = inl e → e = TypeError.
Proof. destruct v; simpl; congruence. Qed.

Lemma py_format_raises v s e : py_format v s = inl e → is_type_error e.
Proof.
  unfold is_type_error. destruct v; simpl; try destruct (fixed_point s); simpl;
    try destruct (_ <=? _); naive_solver.
Qed.

Ltac feedback_lift :=
  apply ends_lift; [by left|];
  let e := fresh "e" in let H := fresh "H" in
  intros e H; right; exists e; split; [done|]; unfold is_type_error;
  first [ apply py_get_raises in H; naive_solver
        | apply py_ge_raises in H; naive_solver
        | apply py_lt_raises in H; naive_solver
        | apply py_iter_raises in H; naive_solver
        | by apply py_format_raises in H ].

Ltac feedback_ends :=
  repeat first [ feedback_lift | progress ends ]; try by left.

Lemma feedback_ending_grade_of overall :
  ends feedback_ending (grade_of overall).
Proof. unfold grade_of. feedback_ends. Qed.

Lemma feedback_ending_closing_tip overall :
  ends feedback_ending (closing_tip overall).
Proof. unfold closing_tip. feedback_ends. Qed.

Lemma feedback_ending_phoneme_step word locals p :
  ends feedback_ending (phoneme_step word locals p).
Proof. unfold phoneme_step. feedback_ends. Qed.

Lemma feedback_ending_word_step weak w :
  ends feedback_ending (word_step weak w).
Proof.
  unfold word_step. feedback_ends.
  all: try apply feedback_ending_phoneme_step.
Qed.

Lemma feedback_ending_print_feedback assessment transcription reference :
  ends feedback_ending (print_feedback assessment transcription reference).
Proof.
  unfold print_feedback. feedback_ends.
  all: try apply feedback_ending_phoneme_step.
Qed.

(** X4.  Whatever the payloads, [print_feedback] either returns or raises
    [TypeError], [AttributeError], [ValueError] or [OverflowError]: no
    other exception (no [KeyError], no [IndexError]), and never a
    [continue] or a [break] of the caller's loop. *)
Theorem print_feedback_endings assessment transcription reference w :
  (run (print_feedback assessment transcription reference) w).1 = Returns tt
  ∨ ∃ e, (run (print_feedback assessment transcription reference) w).1
         = Raises e
         ∧ (e = TypeError ∨ e = AttributeError ∨ e = ValueError
            ∨ e = OverflowError).
Proof.
  pose proof (feedback_ending_print_feedback assessment transcription
                reference w) as H.
  destruct (run _ w) as [[[]|e| | |] w']; simpl in *.
  - by left.
  - right. exists e. split; [done|].
    destruct H as [H|(e' & [= <-] & H)]; [done|exact H].
  - destruct H as [H|(e' & H & _)]; done.
  - destruct H as [H|(e' & H & _)]; done.
  - destruct H as [H|(e' & H & _)]; done.
Qed.

(** The three lines that open the report. *)
Lemma run_report_head (k : M unit) w :
  run (print (Text (nl +:+ times "=" 60));;
       print (Text "  PRONUNCIATION REPORT");;
       print (Text (times "=" 60));;
       k) w
  = run k (prints [ Text (nl +:+ times "=" 60);
                    Text "  PRONUNCIATION REPORT";
                    Text (times "=" 60) ] w).
Proof.
  rewrite !run_bind_print. f_equal.
  rewrite (prints_cons _ [_; _]), (prints_cons _ [_]). reflexivity.
Qed.

(** X5.  A payload that is not a dictionary makes [print_feedback] raise
    [AttributeError] before anything is printed, and so does a
    transcription that is not one.  An overall score that is there but is
    not a number (JSON [null], a string, a list, a dictionary) is not read
    as missing: the comparison raises [TypeError], after the three lines
    that open the report.  An overall score that is an integer too large
    for a double is graded, but the line that shows it raises
    [OverflowError], after the same three lines. *)
Theorem print_feedback_ill_typed assessment transcription reference w :
  ((∀ d, assessment ≠ VDict d) →
     run (print_feedback assessment transcription reference) w
     = (Raises AttributeError, w))
  ∧ (∀ d, assessment = VDict d → (∀ t, transcription ≠ VDict t) →
       run (print_feedback assessment transcription reference) w
       = (Raises AttributeError, w))
  ∧ (∀ d t v, assessment = VDict d → transcription = VDict t →
       d !! "overallScore" = Some v → as_number v = None →
       run (print_feedback assessment transcription reference) w
       = (Raises TypeError,
          prints [ Text (nl +:+ times "=" 60);
                   Text "  PRONUNCIATION REPORT";
                   Text (times "=" 60) ] w))
  ∧ (∀ d t z, assessment = VDict d → transcription = VDict t →
       d !! "overallScore" = Some (VInt z) → float_overflow ≤ Z.abs z →
       run (print_feedback assessment transcription reference) w
       = (Raises OverflowError,
          prints [ Text (nl +:+ times "=" 60);
                   Text "  PRONUNCIATION REPORT";
                   Text (times "=" 60) ] w)).
Proof.
  split_and!.
  - intros Hd. unfold print_feedback. rewrite run_bind_lift.
    destruct assessment; try done. by destruct (Hd d).
  - intros d -> Ht. unfold print_feedback.
    do 2 (rewrite run_bind_lift; cbn [py_get]). rewrite run_bind_lift.
    destruct transcription; try done. by destruct (Ht d0).
  - intros d t v -> -> Hv Hnum. unfold print_feedback.
    do 3 (rewrite run_bind_lift; cbn [py_get]). rewrite Hv.
    change (default (VInt 0) (Some v)) with v.
    rewrite run_report_head, run_bind. unfold grade_of.
    rewrite run_bind_lift. unfold py_ge. by rewrite Hnum.
  - intros d t z -> -> Hv Hbig. unfold print_feedback.
    do 3 (rewrite run_bind_lift; cbn [py_get]). rewrite Hv.
    change (default (VInt 0) (Some (VInt z))) with (num_value (Int z)).
    rewrite run_report_head, run_bind, run_grade_of, run_bind_lift.
    cbn [num_value py_format fixed_point andb].
    by rewrite (proj2 (Z.leb_le _ _) Hbig).
Qed.

(** The overall score is [null]. *)
Lemma print_feedback_ill_typed_witness :
  ∃ w', run (print_feedback (VDict {[ "overallScore" := VNone ]}) (VDict ∅)
                            fox_sentence) quiet
        = (Raises TypeError, w')
        ∧ length (trace w') = 3%nat.
Proof.
  destruct (print_feedback_ill_typed (VDict {[ "overallScore" := VNone ]})
              (VDict ∅) fox_sentence quiet) as (_ & _ & Hnull & _).
  eexists. split.
  - apply (Hnull _ ∅ VNone eq_refl eq_refl); reflexivity.
  - reflexivity.
Defined.

Lemma row_phonemes_rows ws :
  row_phonemes (row <$> ws) =
  (λ wd, (λ p, (VStr (phoneme p), num_value (pscore p))) <$> phonemes wd) <$> ws.
Proof.
  unfold row_phonemes. induction ws as [|wd ws IH]; [done|].
  rewrite !fmap_cons. csimpl. rewrite IH. f_equal.
  unfold parts. by rewrite <- list_fmap_compose.
Qed.

Lemma row_phonemes_focus ts : row_phonemes (focus_areas ts) = [].
Proof.
  unfold row_phonemes, focus_areas. destruct (nonempty ts); [|done]. csimpl.
  induction ts as [|[[??]?] ts IH]; by csimpl.
Qed.

(** X6.  In the report of an assessment every row lists all the phonemes of
    its word with their scores, weak or not, in the order of the input; a
    word without phonemes has an empty list. *)
Theorem rows_list_every_phoneme a t reference w :
  renderable_assessment a →
  ∃ lines,
    run (print_feedback (assessment_dict a) (VDict t) reference) w
    = (Returns tt, prints lines w)
    ∧ row_phonemes lines =
      (λ wd, (λ p, (VStr (phoneme p), num_value (pscore p))) <$> phonemes wd)
        <$> words a.
Proof.
  intros Ha. exists (report a t reference).
  split; [by apply run_print_feedback|].
  unfold report, row_phonemes at 1. rewrite !omap_app.
  fold (row_phonemes (row <$> words a)).
  fold (row_phonemes (focus_areas (triple_value <$> weak_triples (words a)))).
  rewrite row_phonemes_rows, row_phonemes_focus. simpl. by rewrite app_nil_r.
Qed.

(** The row of "fox" lists "f" and "ks". *)
Lemma rows_list_every_phoneme_witness :
  ∃ lines,
    run (print_feedback (assessment_dict fox) (VDict ∅) fox_sentence) quiet
    = (Returns tt, prints lines quiet)
    ∧ row_phonemes lines = [[(VStr "f", VInt 98); (VStr "ks", VInt 55)]].
Proof.
  destruct (rows_list_every_phoneme fox ∅ fox_sentence quiet)
    as (lines & Hrun & Hrows).
  - repeat constructor.
  - exists lines. split; [exact Hrun|]. rewrite Hrows. reflexivity.
Defined.

Lemma prints_inj lines1 lines2 w : prints lines1 w = prints lines2 w → lines1 = lines2.
Proof.
  intros H. apply (f_equal trace) in H. simpl in H.
  apply app_inv_head in H. revert lines2 H.
  induction lines1 as [|l1 lines1 IH]; intros [|l2 lines2] H; try done.
  rewrite !fmap_cons in H. injection H as -> H. f_equal. by apply IH.
Qed.

Lemma length_focus_areas ts :
  length (focus_areas ts) = match ts with [] => 0 | _ => S (length ts) end%nat.
Proof.
  unfold focus_areas. destruct ts; [done|]. simpl. by rewrite length_fmap.
Qed.

Lemma focus_header_iff ts :
  Text (nl +:+ "  FOCUS AREAS:") ∈ focus_areas ts ↔ ts ≠ [].
Proof.
  unfold focus_areas. destruct ts as [|t0 ts]; simpl.
  - split; [intros H; by apply elem_of_nil in H|done].
  - split; [done|]. intros _. set_solver.
Qed.

Lemma focus_header_not_in_rows (ws : list WordScore) :
  Text (nl +:+ "  FOCUS AREAS:") ∉ row <$> ws.
Proof. intros H. apply list_elem_of_fmap in H as (wd & H & _). discriminate. Qed.

Lemma weak_triples_values ws :
  triple_value <$> weak_triples ws =
  flat_map
    (λ wd, (λ p, (VStr (word wd), VStr (phoneme p), num_value (pscore p)))
           <$> List.filter (λ p, bool_decide (lt (pscore p) 60)) (phonemes wd))
    ws.
Proof.
  unfold weak_triples. induction ws as [|wd ws IH]; [done|].
  simpl. rewrite fmap_app, IH. f_equal.
  unfold weak_of. by rewrite <- list_fmap_compose.
Qed.

Lemma focus_areas_cases ts :
  focus_areas ts =
  match ts with
  | [] => []
  | _ => Text (nl +:+ "  FOCUS AREAS:")
         :: ((λ '(word, phoneme, score),
                FocusLine phoneme word (Formatted score spec_0f)) <$> ts)
  end.
Proof. by destruct ts. Qed.

(** X7.  The report of an assessment is, in this order:
    - eight lines of heading: the title between two rules, the overall
      score with its grade, the reference sentence, the transcribed text
      (the empty string when the transcription has none), the header of
      the table and its rule;
    - one row for each word, in the order of the input, with the word,
      its score, its phonemes and the star when the score is below 70;
    - the block of focus areas, which is there exactly when some phoneme
      scores below 60, and then has its title and one line for each such
      phoneme, word after word and phoneme after phoneme;
    - the closing message, which is one of the three, and an empty line.
    So the report has ten lines, one more for each word and, when a
    phoneme is weak, one for the title of the block and one for each weak
    phoneme. *)
Theorem report_shape a t reference w :
  renderable_assessment a →
  let heading :=
    [ Text (nl +:+ times "=" 60);
      Text "  PRONUNCIATION REPORT";
      Text (times "=" 60);
      OverallScore (Formatted (num_value (overall a)) spec_1f)
                   (grade_name (band (overall a)));
      Target reference;
      YouSaid (default (VStr EmptyString) (t !! "text"));
      TableHeader;
      TableRule ] in
  let rows :=
    (λ wd, WordRow (Formatted (VStr (word wd)) spec_left15)
                   (Formatted (num_value (score wd)) spec_5_1f)
                   ((λ p, (VStr (phoneme p),
                           Formatted (num_value (pscore p)) spec_0f))
                      <$> phonemes wd)
                   (if bool_decide (lt (score wd) 70) then " *"
                    else EmptyString))
      <$> words a in
  let weak :=
    flat_map
      (λ wd, (λ p, (VStr (word wd), VStr (phoneme p), num_value (pscore p)))
             <$> List.filter (λ p, bool_decide (lt (pscore p) 60))
                             (phonemes wd))
      (words a) in
  let focus :=
    match weak with
    | [] => []
    | _ => Text (nl +:+ "  FOCUS AREAS:")
           :: ((λ '(word, phoneme, score),
                  FocusLine phoneme word (Formatted score spec_0f)) <$> weak)
    end in
  ∃ lines,
    run (print_feedback (assessment_dict a) (VDict t) reference) w
    = (Returns tt, prints lines w)
    ∧ lines = heading ++ rows ++ focus ++ [Tip (tip (overall a)); Blank]
    ∧ tip (overall a) ∈ [tip_harder; tip_starred; tip_slowly]
    ∧ (let n := length (weak_phonemes lines) in
       length lines
       = (10 + length (words a) + match n with O => 0 | S _ => S n end)%nat)
    ∧ (Text (nl +:+ "  FOCUS AREAS:") ∈ lines ↔
       ∃ wd p, wd ∈ words a ∧ p ∈ phonemes wd ∧ lt (pscore p) 60)
    ∧ lines !! 4%nat = Some (Target reference)
    ∧ lines !! 5%nat = Some (YouSaid (default (VStr EmptyString) (t !! "text")))
    ∧ last lines = Some Blank.
Proof.
  intros Ha heading rows weak focus. exists (report a t reference).
  split; [by apply run_print_feedback|].
  split.
  { unfold report, focus, weak.
    by rewrite focus_areas_cases, weak_triples_values. }
  split.
  { unfold tip. repeat case_decide; set_solver. }
  rewrite weak_phonemes_report. split_and!.
  - unfold report. rewrite !length_app, length_fmap, length_focus_areas.
    simpl. destruct (triple_value <$> weak_triples (words a)); simpl; lia.
  - unfold report. rewrite !elem_of_app, focus_header_iff. split.
    + intros [H|[H|[H|H]]].
      * set_solver.
      * by apply focus_header_not_in_rows in H.
      * destruct (weak_triples (words a)) as [|[[wd ph] s] ts] eqn:Hw; [done|].
        assert ((wd, ph, s) ∈ weak_triples (words a)) as Hin
          by (rewrite Hw; set_solver).
        apply elem_of_weak_triples in Hin
          as (wd' & p & Hwd & Hp & _ & _ & <- & Hlt).
        by exists wd', p.
      * set_solver.
    + intros (wd & p & Hwd & Hp & Hlt). right. right. left.
      assert ((word wd, phoneme p, pscore p) ∈ weak_triples (words a)) as Hin.
      { apply elem_of_weak_triples. by exists wd, p. }
      intros Hnil. apply fmap_nil_inv in Hnil. rewrite Hnil in Hin.
      by apply elem_of_nil in Hin.
  - reflexivity.
  - reflexivity.
  - unfold report. rewrite !app_assoc.
    by rewrite (last_app _ [_; _]).
Qed.

(** The report of the sample assessment: the heading, the row of "fox"
    (not starred), the focus area "ks", the message and the empty line. *)
Lemma report_shape_witness :
  ∃ lines,
    run (print_feedback (assessment_dict fox) (VDict ∅) fox_sentence) quiet
    = (Returns tt, prints lines quiet)
    ∧ drop 8 lines =
      [ WordRow (Formatted (VStr "fox") spec_left15)
                (Formatted (VInt 95) spec_5_1f)
                [ (VStr "f", Formatted (VInt 98) spec_0f);
                  (VStr "ks", Formatted (VInt 55) spec_0f) ]
                EmptyString;
        Text (nl +:+ "  FOCUS AREAS:");
        FocusLine (VStr "ks") (VStr "fox") (Formatted (VInt 55) spec_0f);
        Tip tip_harder;
        Blank ]
    ∧ length lines = 13%nat.
Proof.
  pose proof (report_shape fox ∅ fox_sentence quiet) as H.
  destruct H as (lines & Hrun & Hlines & _); [repeat constructor|].
  exists lines. split; [exact Hrun|].
  rewrite Hlines. split; vm_compute; reflexivity.
Defined.

End FeedbackMore.

(* ===================================================================== *)
(** * More on the session                                                 *)
(* ===================================================================== *)

Section SessionMore.

Context {decoder : Decoder}.

Lemma type_error_not_service e : is_type_error e → is_HTTPError e = false.
Proof. by intros [->|[->|[->| ->]]]. Qed.

Lemma step_ending_returned : step_ending Returned.
Proof. by split_and!. Qed.

Lemma step_ending_continued : step_ending Continued.
Proof. by split_and!. Qed.

Lemma step_ending_raised e : is_HTTPError e = false → step_ending (Raised e).
Proof. intros H. split_and!; try done. by intros e' [= <-]. Qed.

(** Inside a [try] whose handler catches the service errors. *)
Lemma guarded_returned :
  step_ending Returned ∨ ∃ e, Returned = Raised e ∧ is_HTTPError e = true.
Proof. left. apply step_ending_returned. Qed.

Lemma guarded_raised e :
  step_ending (Raised e) ∨ ∃ e', Raised e = Raised e' ∧ is_HTTPError e' = true.
Proof.
  destruct (is_HTTPError e) eqn:He.
  - right. by exists e.
  - left. by apply step_ending_raised.
Qed.

Ltac guarded :=
  repeat first [ apply ends_post; [|intros] | progress ends ];
  first [ apply guarded_returned | apply guarded_raised ].

Ltac step_side :=
  first [ exact step_ending_returned
        | exact step_ending_continued
        | by apply step_ending_raised ].

Lemma step_ending_tts_synthesize text output_path voice speed :
  ends step_ending (tts_synthesize text output_path voice speed).
Proof.
  unfold tts_synthesize. apply ends_try_except.
  - guarded.
  - intros e. ends; step_side.
Qed.

Lemma step_ending_generate_reference sentence :
  ends step_ending (generate_reference sentence).
Proof.
  unfold generate_reference.
  apply ends_bind; [ends; step_side|intros _].
  apply ends_bind; [apply step_ending_tts_synthesize|intros ok].
  destruct ok; ends; step_side.
Qed.

Lemma step_ending_record_audio output_path duration :
  ends step_ending (record_audio output_path duration).
Proof. unfold record_audio. ends; step_side. Qed.

Lemma step_ending_record_attempt : ends step_ending record_attempt.
Proof.
  unfold record_attempt.
  apply ends_bind; [ends; step_side|intros _].
  apply ends_bind; [apply step_ending_record_audio|intros recorded].
  destruct recorded; simpl; ends; step_side.
Qed.

Lemma step_ending_transcribe : ends step_ending transcribe.
Proof.
  unfold transcribe.
  apply ends_bind; [ends; step_side|intros _].
  apply ends_try_except.
  - unfold stt_transcribe. guarded.
  - intros e. ends; step_side.
Qed.

Lemma step_ending_assess sentence : ends step_ending (assess sentence).
Proof.
  unfold assess.
  apply ends_bind; [ends; step_side|intros _].
  apply ends_try_except.
  - unfold pronunciation_assess. guarded.
  - intros e. ends; step_side.
Qed.

Lemma step_ending_print_feedback assessment transcription reference :
  ends step_ending (print_feedback assessment transcription reference).
Proof.
  eapply ends_mono; [|apply feedback_ending_print_feedback].
  intros k [->|(e & -> & He)]; [apply step_ending_returned|].
  by apply step_ending_raised, type_error_not_service.
Qed.

(** Steps 1 to 5 for a chosen sentence. *)
Lemma step_ending_steps sentence :
  ends step_ending
       (generate_reference sentence;;
        record_attempt;;
        transcription ← transcribe;
        assessment ← assess sentence;
        print_feedback assessment transcription sentence).
Proof.
  apply ends_bind; [apply step_ending_generate_reference|intros _].
  apply ends_bind; [apply step_ending_record_attempt|intros _].
  apply ends_bind; [apply step_ending_transcribe|intros transcription].
  apply ends_bind; [apply step_ending_assess|intros assessment].
  apply step_ending_print_feedback.
Qed.

(** ** The choice of a sentence, case by case *)

Lemma run_pick_sentence_eof w :
  stdin w = [] →
  run pick_sentence w =
  (Raises EOFError, log (Prompted pick_prompt None) (prints [Blank] w)).
Proof.
  intros Hin. unfold pick_sentence. rewrite run_bind_print. fold pick_prompt.
  rewrite run_bind. unfold run at 1, input. simpl. by rewrite Hin.
Qed.

Lemma run_pick_sentence_cases w :
  (stdin w = []
   ∧ run pick_sentence w =
     (Raises EOFError, log (Prompted pick_prompt None) (prints [Blank] w)))
  ∨ ∃ line rest,
      stdin w = line :: rest
      ∧ ((lower (strip line) ∈ ["q"; "quit"; "exit"]
          ∧ run pick_sentence w =
            (Break, prints [Text (nl +:+ "Keep practicing! Goodbye." +:+ nl)]
                           (picked line rest w)))
         ∨ (lower (strip line) ∉ ["q"; "quit"; "exit"]
            ∧ (py_int (strip line) = inl ValueError
               ∨ ∃ n, py_int (strip line) = inr n
                      ∧ (n - 1 < 0 ∨ len SENTENCES ≤ n - 1))
            ∧ run pick_sentence w =
              (Continue, prints [EnterNumber (len SENTENCES)]
                                (picked line rest w)))
         ∨ (lower (strip line) ∉ ["q"; "quit"; "exit"]
            ∧ ∃ n sentence,
                py_int (strip line) = inr n
                ∧ 0 ≤ n - 1 < len SENTENCES
                ∧ SENTENCES !! Z.to_nat (n - 1) = Some sentence
                ∧ run pick_sentence w =
                  (Returns sentence,
                   prints [TargetSentence sentence] (picked line rest w)))).
Proof.
  destruct (stdin w) as [|line rest] eqn:Hin.
  { left. split; [done|]. by apply run_pick_sentence_eof. }
  right. exists line, rest. split; [done|].
  destruct (decide (lower (strip line) ∈ ["q"; "quit"; "exit"])) as [Hq|Hq].
  { left. split; [done|]. by apply run_pick_sentence_quit. }
  right.
  assert (py_int (strip line) = inl ValueError
          ∨ (∃ n, py_int (strip line) = inr n
                  ∧ (n - 1 < 0 ∨ len SENTENCES ≤ n - 1))
          ∨ ∃ n, py_int (strip line) = inr n ∧ 0 ≤ n - 1 < len SENTENCES)
    as [Hbad|[Hbad|(n & Hint & Hn)]].
  { destruct (py_int_cases (strip line)) as [H|(n & H)]; [by left|].
    right. destruct (decide (0 ≤ n - 1 < len SENTENCES)).
    - right. by exists n.
    - left. exists n. split; [done|lia]. }
  - left. split; [done|]. split; [by left|].
    apply run_pick_sentence_invalid; auto.
  - left. split; [done|]. split; [by right|].
    apply run_pick_sentence_invalid; auto.
  - right. split; [done|].
    destruct (run_pick_sentence_valid w line rest n) as (sentence & Hs & Hrun);
      try done.
    by exists n, sentence.
Qed.

(** The choice of a sentence lets no service error out and ends. *)
Lemma pick_sentence_ending w :
  ∀ e, (run pick_sentence w).1 = Raises e → e = EOFError.
Proof.
  intros e.
  destruct (run_pick_sentence_cases w)
    as [[_ ->]|(line & rest & _ & [[_ ->]|[(_ & _ & ->)|(_ & n & s & _ & _ & _ & ->)]])];
    simpl; congruence.
Qed.

Lemma main_iteration_raises w e :
  (run main_iteration w).1 = Raises e → is_HTTPError e = false.
Proof.
  unfold main_iteration. rewrite run_bind.
  pose proof (pick_sentence_ending w) as Hpick.
  destruct (run pick_sentence w) as [[sentence|e'| | |] w1]; simpl in *;
    try done.
  - intros H. pose proof (step_ending_steps sentence w1) as (_ & _ & Hno).
    apply Hno. by rewrite H.
  - intros [= <-]. by rewrite (Hpick e').
Qed.

Lemma while_true_raises fuel w e :
  (run (while_true fuel main_iteration) w).1 = Raises e →
  is_HTTPError e = false.
Proof.
  revert w. induction fuel as [|fuel IH]; intros w; [done|].
  unfold run in *. simpl.
  pose proof (main_iteration_raises w) as Hit. unfold run in Hit.
  destruct (main_iteration w) as [[[]|e'| | |] w']; simpl in *; try done.
  - apply IH.
  - intros [= <-]. by apply Hit.
  - apply IH.
Qed.

(** X8.  No service error ever leaves the loop: whatever the service
    answers and however often it fails, an iteration of the loop, and so
    [main], never raises an [httpx.HTTPError]. *)
Theorem no_service_error_escapes fuel w e :
  ((run main_iteration w).1 = Raises e → is_HTTPError e = false)
  ∧ ((run (main fuel) w).1 = Raises e → is_HTTPError e = false).
Proof.
  split; [apply main_iteration_raises|].
  unfold main. rewrite !run_bind_print, run_bind, run_menu.
  apply while_true_raises.
Qed.

(** X9.  The choice of a sentence raises nothing but [EOFError], and that
    only when the standard input is at its end: the [ValueError] of [int]
    and of the range check is caught, and the range check keeps
    [SENTENCES[idx]] from raising [IndexError] and a negative index from
    counting from the end of the list.  When a sentence is chosen, a
    number [n] from 1 to the number of sentences was typed and the
    sentence is the one stored at [n - 1]; the last line printed shows it.
    Unless the input is at its end exactly one line is read. *)
Theorem pick_sentence_outcomes w out w' :
  run pick_sentence w = (out, w') →
  (stdin w = [] ↔ out = Raises EOFError)
  ∧ (∀ e, out = Raises e → e = EOFError)
  ∧ out ≠ Diverges
  ∧ (stdin w ≠ [] → ∃ line, stdin w = line :: stdin w')
  ∧ (∀ sentence, out = Returns sentence →
       ∃ line n,
         stdin w = line :: stdin w'
         ∧ py_int (strip line) = inr n
         ∧ 1 ≤ n ≤ len SENTENCES
         ∧ SENTENCES !! Z.to_nat (n - 1) = Some sentence
         ∧ last (trace w') = Some (Printed (TargetSentence sentence))).
Proof.
  intros Hrun.
  destruct (run_pick_sentence_cases w)
    as [[Hin H]|(line & rest & Hin &
                 [[_ H]|[(_ & _ & H)|(_ & n & s & Hint & Hn & Hs & H)]])];
    rewrite H in Hrun; injection Hrun as <- <-; rewrite Hin;
    (split_and!; [split; done|congruence|done| |]); try done.
  - intros _. by exists line.
  - intros _. by exists line.
  - intros _. by exists line.
  - intros sentence [= <-]. exists line, n. split_and!; try done; try lia.
    apply last_snoc.
Qed.

(** ** How the loop returns *)

Lemma main_iteration_break_inv w w' :
  run main_iteration w = (Break, w') →
  ∃ line rest,
    stdin w = line :: rest
    ∧ lower (strip line) ∈ ["q"; "quit"; "exit"]
    ∧ w' = prints [Text (nl +:+ "Keep practicing! Goodbye." +:+ nl)]
                  (picked line rest w).
Proof.
  unfold main_iteration. rewrite run_bind.
  destruct (run_pick_sentence_cases w)
    as [[Hin H]|(line & rest & Hin &
                 [[Hq H]|[(_ & _ & H)|(_ & n & s & _ & _ & _ & H)]])];
    rewrite H; try done.
  - intros [= <-]. by exists line, rest.
  - intros Hrun. pose proof (step_ending_steps s
      (prints [TargetSentence s] (picked line rest w))) as (Hno & _).
    by rewrite Hrun in Hno.
Qed.

Lemma while_true_returns_inv fuel body w w' :
  run (while_true fuel body) w = (Returns tt, w') →
  ∃ w0, run body w0 = (Break, w').
Proof.
  revert w. induction fuel as [|fuel IH]; intros w; [done|].
  unfold run in *. simpl.
  destruct (body w) as [[[]|e| | |] w1] eqn:E; try done.
  - apply IH.
  - apply IH.
  - intros [= <-]. by exists w.
Qed.

(** X10.  [main] returns only when the learner asks for it: whenever it
    returns, the last events of the run are the prompt for a sentence,
    answered with [q], [quit] or [exit] (in any case, between any white
    space), and the goodbye line.  No service error, missing recording or
    wrong choice makes it return. *)
Theorem main_returns_only_on_quit fuel w w' :
  run (main fuel) w = (Returns tt, w') →
  ∃ tr line,
    trace w' =
      tr ++ [ Printed Blank;
              Prompted pick_prompt (Some line);
              Printed (Text (nl +:+ "Keep practicing! Goodbye." +:+ nl)) ]
    ∧ lower (strip line) ∈ ["q"; "quit"; "exit"].
Proof.
  unfold main. rewrite !run_bind_print, run_bind, run_menu. intros Hrun.
  apply while_true_returns_inv in Hrun as (w0 & Hrun).
  apply main_iteration_break_inv in Hrun as (line & rest & _ & Hq & ->).
  exists (trace w0), line. split; [|done].
  simpl. by rewrite <- app_assoc.
Qed.

(** ** The loop ends *)

Lemma run_while_true_raises fuel body w e w' :
  run body w = (Raises e, w') →
  run (while_true (S fuel) body) w = (Raises e, w').
Proof. unfold run. intros H. simpl. by rewrite H. Qed.

Lemma while_true_fuel fuel fuel' w :
  (length (stdin w) < fuel)%nat → (length (stdin w) < fuel')%nat →
  run (while_true fuel main_iteration) w
  = run (while_true fuel' main_iteration) w.
Proof.
  revert fuel' w. induction fuel as [|fuel IH]; intros fuel' w H H'; [lia|].
  destruct fuel' as [|fuel']; [lia|].
  unfold run in *. simpl.
  pose proof (main_iteration_reads w) as [_ Hlen]. unfold run in *.
  destruct (main_iteration w) as [[[]|e| | |] w1]; simpl in *; try done.
  - apply IH; lia.
  - apply IH; lia.
Qed.

(** X11.  An iteration of the loop that returns or ends with [continue]
    has read at least one line of the standard input, so that [main]
    ends: as many iterations as there are lines, and one more, are
    enough, and allowing more of them changes nothing.  Without any
    input [main] raises [EOFError], at the first prompt. *)
Theorem main_ends_within_input w fuel :
  (length (stdin w) < fuel)%nat →
  (run (main fuel) w).1 ≠ Diverges
  ∧ (∀ fuel', (length (stdin w) < fuel')%nat →
              run (main fuel') w = run (main fuel) w)
  ∧ (stdin w = [] → (run (main fuel) w).1 = Raises EOFError)
  ∧ (∀ w', run main_iteration w = (Returns tt, w')
           ∨ run main_iteration w = (Continue, w') →
           (length (stdin w') < length (stdin w))%nat).
Proof.
  intros Hfuel. split_and!.
  - unfold main. rewrite !run_bind_print, run_bind, run_menu.
    apply while_true_ends. simpl. lia.
  - intros fuel' Hfuel'. unfold main.
    rewrite !run_bind_print, !run_bind, !run_menu.
    apply while_true_fuel; simpl; lia.
  - intros Hin. unfold main. rewrite !run_bind_print, run_bind, run_menu.
    destruct fuel as [|fuel]; [lia|].
    erewrite run_while_true_raises; [done|].
    unfold main_iteration. rewrite run_bind, run_pick_sentence_eof; done.
  - intros w' Hrun. pose proof (main_iteration_reads w) as [_ Hlen].
    destruct Hrun as [Hrun|Hrun]; by rewrite Hrun in Hlen.
Qed.

End SessionMore.

(** Examples, with the decoder of the sample bodies. *)
Section SessionMoreExamples.

#[local] Existing Instance sample_decoder.

(** Nobody types anything: [main] ends with [EOFError]. *)
Lemma no_service_error_escapes_witness :
  (run (main 1) quiet).1 = Raises EOFError ∧ is_HTTPError EOFError = false.
Proof.
  split; [vm_compute; reflexivity|].
  apply (no_service_error_escapes 1 quiet EOFError). vm_compute. reflexivity.
Defined.

(** The line "0" gives the index -1: the learner is asked again. *)
Lemma pick_sentence_outcomes_witness :
  ∃ line w',
    run pick_sentence (session ["0"] [] false) = (Continue, w')
    ∧ stdin (session ["0"] [] false) = line :: stdin w'.
Proof.
  destruct (pick_sentence_outcomes (session ["0"] [] false) Continue
              (run pick_sentence (session ["0"] [] false)).2)
    as (_ & _ & _ & Hline & _); [vm_compute; reflexivity|].
  destruct Hline as (line & Hline); [discriminate|].
  exists line, (run pick_sentence (session ["0"] [] false)).2.
  split; [vm_compute; reflexivity|exact Hline].
Defined.

(** A wrong choice, then [Quit]. *)
Lemma main_returns_only_on_quit_witness :
  ∃ tr line,
    trace (run (main 2) (session ["9"; " Quit"] [] false)).2 =
      tr ++ [ Printed Blank;
              Prompted pick_prompt (Some line);
              Printed (Text (nl +:+ "Keep practicing! Goodbye." +:+ nl)) ]
    ∧ lower (strip line) ∈ ["q"; "quit"; "exit"].
Proof.
  apply (main_returns_only_on_quit 2 (session ["9"; " Quit"] [] false)).
  vm_compute. reflexivity.
Defined.

(** Two wrong choices: three iterations, the third one at the end of the
    input. *)
Lemma main_ends_within_input_witness :
  (run (main 3) (session ["0"; "8"] [] false)).1 = Raises EOFError
  ∧ run (main 10) (session ["0"; "8"] [] false)
    = run (main 3) (session ["0"; "8"] [] false).
Proof.
  destruct (main_ends_within_input (session ["0"; "8"] [] false) 3)
    as (_ & Hfuel & _); [simpl; lia|].
  split; [vm_compute; reflexivity|].
  apply Hfuel. simpl. lia.
Defined.

End SessionMoreExamples.

(* ===================================================================== *)
(** * Failures that end the session, and the run without failure          *)
(* ===================================================================== *)

Section Iteration.

Context {decoder : Decoder}.

Lemma success_status resp :
  service_error (Responds resp) = None →
  (200 <=? status_code resp) && (status_code resp <=? 299) = true.
Proof. unfold service_error. by destruct (_ && _). Qed.

(** ** Step 1 *)

Lemma run_generate_reference_saved sentence w resp :
  shd (service w) = Responds resp →
  service_error (Responds resp) = None →
  shd (writable w) = true →
  run (generate_reference sentence) w =
  (Returns tt,
   World (stdin w) (stl (service w)) (present w) (readable w)
         (stl (writable w))
         (trace w ++
          [ Printed (Text (nl +:+ "  Step 1: Generating reference audio..."));
            Posted (Request (BASE_URL +:+ "/tts/synthesize")
                            (TtsPayload sentence "af_heart" (9 # 10) "wav"))
                   (Responds resp);
            Wrote ref_audio (content resp) true;
            Printed (SavedTo ref_audio);
            Printed (Text "  (Play this file to hear the correct pronunciation)") ])).
Proof.
  intros Hout Hok Hw. apply success_status in Hok.
  unfold generate_reference, tts_synthesize, try_except, post,
    raise_for_status, write_file, print, bind, run, log.
  simpl. rewrite Hout. simpl. rewrite Hok. simpl. rewrite Hw. simpl.
  by rewrite <- !app_assoc.
Qed.

Lemma run_generate_reference_unwritable sentence w resp :
  shd (service w) = Responds resp →
  service_error (Responds resp) = None →
  shd (writable w) = false →
  run (generate_reference sentence) w =
  (Raises OSError,
   World (stdin w) (stl (service w)) (present w) (readable w)
         (stl (writable w))
         (trace w ++
          [ Printed (Text (nl +:+ "  Step 1: Generating reference audio..."));
            Posted (Request (BASE_URL +:+ "/tts/synthesize")
                            (TtsPayload sentence "af_heart" (9 # 10) "wav"))
                   (Responds resp);
            Wrote ref_audio (content resp) false ])).
Proof.
  intros Hout Hok Hw. apply success_status in Hok.
  unfold generate_reference, tts_synthesize, try_except, post,
    raise_for_status, write_file, print, bind, run, log.
  simpl. rewrite Hout. simpl. rewrite Hok. simpl. rewrite Hw. simpl.
  by rewrite <- !app_assoc.
Qed.

(** ** Steps 3 and 4 *)

Lemma run_transcribe_unreadable w :
  shd (readable w) = None →
  run transcribe w =
  (Raises OSError,
   World (stdin w) (service w) (present w) (stl (readable w)) (writable w)
         (trace w ++
          [ Printed (Text (nl +:+ "  Step 3: Transcribing your recording..."));
            Opened user_audio None ])).
Proof.
  intros Hread.
  unfold transcribe, try_except, stt_transcribe, read_file, print, bind, run,
    log.
  simpl. rewrite Hread. simpl. by rewrite <- !app_assoc.
Qed.

Lemma run_assess_unreadable sentence w :
  shd (readable w) = None →
  run (assess sentence) w =
  (Raises OSError,
   World (stdin w) (service w) (present w) (stl (readable w)) (writable w)
         (trace w ++
          [ Printed (Text "  Step 4: Scoring pronunciation...");
            Opened user_audio None ])).
Proof.
  intros Hread.
  unfold assess, try_except, pronunciation_assess, read_file, print, bind,
    run, log.
  simpl. rewrite Hread. simpl. by rewrite <- !app_assoc.
Qed.

(** The answer has a success status: the body is decoded. *)
Lemma run_transcribe_answer w audio resp :
  shd (readable w) = Some audio →
  shd (service w) = Responds resp →
  service_error (Responds resp) = None →
  run transcribe w =
  (match json_loads (content resp) with
   | inr v => Returns v
   | inl e => Raises e
   end,
   World (stdin w) (stl (service w)) (present w) (stl (readable w))
         (writable w)
         (trace w ++
          [ Printed (Text (nl +:+ "  Step 3: Transcribing your recording..."));
            Opened user_audio (Some audio);
            Posted (Request (BASE_URL +:+ "/stt/transcribe/base64")
                            (SttPayload audio true))
                   (Responds resp) ])).
Proof.
  intros Hread Hout Hok. apply success_status in Hok.
  unfold transcribe, try_except, stt_transcribe, read_file, post,
    raise_for_status, resp_json, lift, print, continue, bind, run, log.
  simpl. rewrite Hread. simpl. rewrite Hout. simpl. rewrite Hok. simpl.
  destruct (json_loads (content resp)) as [e|v] eqn:Hjson; simpl;
    rewrite ?(json_loads_raises _ _ Hjson); by rewrite <- !app_assoc.
Qed.

Lemma run_assess_answer sentence w audio resp :
  shd (readable w) = Some audio →
  shd (service w) = Responds resp →
  service_error (Responds resp) = None →
  run (assess sentence) w =
  (match json_loads (content resp) with
   | inr v => Returns v
   | inl e => Raises e
   end,
   World (stdin w) (stl (service w)) (present w) (stl (readable w))
         (writable w)
         (trace w ++
          [ Printed (Text "  Step 4: Scoring pronunciation...");
            Opened user_audio (Some audio);
            Posted (Request (BASE_URL +:+ "/pronunciation/assess/base64")
                            (AssessPayload audio sentence "wav"))
                   (Responds resp) ])).
Proof.
  intros Hread Hout Hok. apply success_status in Hok.
  unfold assess, try_except, pronunciation_assess, read_file, post,
    raise_for_status, resp_json, lift, print, continue, bind, run, log.
  simpl. rewrite Hread. simpl. rewrite Hout. simpl. rewrite Hok. simpl.
  destruct (json_loads (content resp)) as [e|v] eqn:Hjson; simpl;
    rewrite ?(json_loads_raises _ _ Hjson); by rewrite <- !app_assoc.
Qed.

Lemma run_bind_raises {A B} (m : M A) (k : A → M B) w e w' :
  run m w = (Raises e, w') → run (bind m k) w = (Raises e, w').
Proof. intros H. by rewrite run_bind, H. Qed.

(** X12.  Failures that are not service errors are not recovered: they
    leave the iteration as exceptions and end the loop.
    - Step 1: the service answers with a success status but the reference
      audio cannot be written: [OSError], which the handler of
      [tts_synthesize] does not catch.
    - Steps 3 and 4: the recording, though found, cannot be opened:
      [OSError], before any request is sent.
    - Steps 3 and 4: the answer has a success status and [json.loads]
      raises on its content ([JSONDecodeError] for a body that is not
      JSON, [UnicodeDecodeError] for one that is not UTF-8, ...): that
      exception; after step 3 no assessment is requested. *)
Theorem unrecovered_errors_end_the_session :
  let fatal w e w2 :=
    run main_iteration w = (Raises e, w2)
    ∧ ∀ fuel, run (while_true (S fuel) main_iteration) w = (Raises e, w2) in
  (∀ w sentence w1 resp,
     run pick_sentence w = (Returns sentence, w1) →
     shd (service w1) = Responds resp →
     service_error (Responds resp) = None →
     shd (writable w1) = false →
     fatal w OSError
       (World (stdin w1) (stl (service w1)) (present w1) (readable w1)
          (stl (writable w1))
          (trace w1 ++
           [ Printed (Text (nl +:+ "  Step 1: Generating reference audio..."));
             Posted (Request (BASE_URL +:+ "/tts/synthesize")
                             (TtsPayload sentence "af_heart" (9 # 10) "wav"))
                    (Responds resp);
             Wrote ref_audio (content resp) false ])))
  ∧ (∀ w sentence w1,
       run (s ← pick_sentence; generate_reference s;; record_attempt;; ret s) w
       = (Returns sentence, w1) →
       (shd (readable w1) = None →
          fatal w OSError
            (World (stdin w1) (service w1) (present w1) (stl (readable w1))
               (writable w1)
               (trace w1 ++
                [ Printed (Text (nl +:+ "  Step 3: Transcribing your recording..."));
                  Opened user_audio None ])))
       ∧ (∀ audio resp e,
            shd (readable w1) = Some audio →
            shd (service w1) = Responds resp →
            service_error (Responds resp) = None →
            json_loads (content resp) = inl e →
            fatal w e
              (World (stdin w1) (stl (service w1)) (present w1)
                 (stl (readable w1)) (writable w1)
                 (trace w1 ++
                  [ Printed (Text (nl +:+ "  Step 3: Transcribing your recording..."));
                    Opened user_audio (Some audio);
                    Posted (Request (BASE_URL +:+ "/stt/transcribe/base64")
                                    (SttPayload audio true))
                           (Responds resp) ]))))
  ∧ (∀ w sentence transcription w1,
       run (s ← pick_sentence; generate_reference s;; record_attempt;;
            t ← transcribe; ret (s, t)) w
       = (Returns (sentence, transcription), w1) →
       (shd (readable w1) = None →
          fatal w OSError
            (World (stdin w1) (service w1) (present w1) (stl (readable w1))
               (writable w1)
               (trace w1 ++
                [ Printed (Text "  Step 4: Scoring pronunciation...");
                  Opened user_audio None ])))
       ∧ (∀ audio resp e,
            shd (readable w1) = Some audio →
            shd (service w1) = Responds resp →
            service_error (Responds resp) = None →
            json_loads (content resp) = inl e →
            fatal w e
              (World (stdin w1) (stl (service w1)) (present w1)
                 (stl (readable w1)) (writable w1)
                 (trace w1 ++
                  [ Printed (Text "  Step 4: Scoring pronunciation...");
                    Opened user_audio (Some audio);
                    Posted (Request (BASE_URL +:+ "/pronunciation/assess/base64")
                                    (AssessPayload audio sentence "wav"))
                           (Responds resp) ])))).
Proof.
  intros fatal.
  assert (∀ w e w2, run main_iteration w = (Raises e, w2) → fatal w e w2)
    as Hfatal.
  { intros w e w2 Hrun. split; [done|].
    intros fuel. by apply run_while_true_raises. }
  split_and!.
  - intros w sentence w1 resp Hpick Hout Hok Hw. apply Hfatal.
    rewrite (reach_generate _ _ _ Hpick). apply run_bind_raises.
    by apply run_generate_reference_unwritable.
  - intros w sentence w1 Hreach. split.
    + intros Hread. apply Hfatal.
      rewrite (reach_transcribe _ _ _ Hreach). apply run_bind_raises.
      by apply run_transcribe_unreadable.
    + intros audio resp e Hread Hout Hok Hjson. apply Hfatal.
      rewrite (reach_transcribe _ _ _ Hreach). apply run_bind_raises.
      rewrite (run_transcribe_answer _ audio resp) by done.
      by rewrite Hjson.
  - intros w sentence transcription w1 Hreach. split.
    + intros Hread. apply Hfatal.
      rewrite (reach_assess _ _ _ _ Hreach). apply run_bind_raises.
      by apply run_assess_unreadable.
    + intros audio resp e Hread Hout Hok Hjson. apply Hfatal.
      rewrite (reach_assess _ _ _ _ Hreach). apply run_bind_raises.
      rewrite (run_assess_answer _ _ audio resp) by done.
      by rewrite Hjson.
Qed.

(** X13.  An iteration in which nothing fails: the sentence chosen is sent
    to the synthesis service and the answer is written to the reference
    file; after the countdown of five seconds and the learner's Enter the
    recording is opened twice, once for each of the two requests that
    follow, and each request carries what was read at that moment; the
    assessment is asked for the same sentence.  The report is then that
    of [print_feedback] for the two decoded answers and this sentence. *)
Theorem iteration_without_failure
    w sentence w1 synthesis answer rest audio audio' r_stt r_assess
    transcription assessment :
  run pick_sentence w = (Returns sentence, w1) →
  shd (service w1) = Responds synthesis →
  service_error (Responds synthesis) = None →
  shd (writable w1) = true →
  stdin w1 = answer :: rest →
  shd (present w1) = true →
  shd (readable w1) = Some audio →
  shd (stl (service w1)) = Responds r_stt →
  service_error (Responds r_stt) = None →
  json_loads (content r_stt) = inr transcription →
  shd (stl (readable w1)) = Some audio' →
  shd (stl (stl (service w1))) = Responds r_assess →
  service_error (Responds r_assess) = None →
  json_loads (content r_assess) = inr assessment →
  ∃ w2 events,
    run main_iteration w
    = run (print_feedback assessment transcription sentence) w2
    ∧ trace w2 = trace w1 ++ events
    ∧ stdin w2 = rest
    ∧ requests events =
      [ Request (BASE_URL +:+ "/tts/synthesize")
                (TtsPayload sentence "af_heart" (9 # 10) "wav");
        Request (BASE_URL +:+ "/stt/transcribe/base64") (SttPayload audio true);
        Request (BASE_URL +:+ "/pronunciation/assess/base64")
                (AssessPayload audio' sentence "wav") ]
    ∧ written events = [(ref_audio, content synthesis)]
    ∧ opened events = [user_audio; user_audio]
    ∧ countdowns events = [5; 4; 3; 2; 1]
    ∧ slept events = 5.
Proof.
  intros Hpick Htts Htts_ok Hw Hin Hfile Hread Hstt Hstt_ok Hstt_json
    Hread' Hassess Hassess_ok Hassess_json.
  rewrite (reach_generate _ _ _ Hpick).
  rewrite run_bind, (run_generate_reference_saved _ _ synthesis) by done.
  cbv iota.
  rewrite run_bind, (run_record_attempt _ answer rest) by done.
  cbn [stdin service present readable writable trace]. rewrite Hfile.
  cbv iota.
  rewrite run_bind, (run_transcribe_answer _ audio r_stt) by done.
  cbn [stdin service present readable writable trace].
  rewrite Hstt_json. cbv iota.
  rewrite run_bind, (run_assess_answer _ _ audio' r_assess) by done.
  cbn [stdin service present readable writable trace].
  rewrite Hassess_json. cbv iota.
  eexists _, _. split; [reflexivity|].
  cbn [stdin trace]. split; [by rewrite <- !app_assoc|].
  split; [done|]. split_and!; reflexivity.
Qed.

End Iteration.

(** Examples, with the decoder of the sample bodies. *)
Section IterationExamples.

#[local] Existing Instance sample_decoder.

(** The reference audio cannot be written; the recording cannot be opened;
    the transcription service answers 200 with a page of HTML; the
    assessment service answers 200 with bytes that are not UTF-8. *)
Lemma unrecovered_errors_end_the_session_witness :
  (∃ w2, run (while_true 5 main_iteration) disk_full = (Raises OSError, w2)
         ∧ written (trace w2) = [])
  ∧ (∃ w2, run (while_true 5 main_iteration) unreadable = (Raises OSError, w2)
           ∧ length (requests (trace w2)) = 1%nat)
  ∧ (∃ w2, run (while_true 5 main_iteration) stt_garbled
           = (Raises JSONDecodeError, w2)
           ∧ length (requests (trace w2)) = 2%nat)
  ∧ (∃ w2, run (while_true 5 main_iteration) assess_not_utf8
           = (Raises UnicodeDecodeError, w2)
           ∧ length (requests (trace w2)) = 3%nat).
Proof.
  destruct unrecovered_errors_end_the_session as (Hwrite & Hstt & Hassess).
  split_and!.
  - pose (w1 := (run pick_sentence disk_full).2).
    destruct (Hwrite disk_full fox_sentence w1 (Response 200 wav))
      as [_ Hloop]; [vm_compute; reflexivity..|].
    eexists. split; [apply Hloop|]. vm_compute. reflexivity.
  - pose (w1 := (run (s ← pick_sentence; generate_reference s;;
                      record_attempt;; ret s) unreadable).2).
    destruct (Hstt unreadable fox_sentence w1) as [Hread _];
      [vm_compute; reflexivity|].
    destruct Hread as [_ Hloop]; [vm_compute; reflexivity|].
    eexists. split; [apply Hloop|]. vm_compute. reflexivity.
  - pose (w1 := (run (s ← pick_sentence; generate_reference s;;
                      record_attempt;; ret s) stt_garbled).2).
    destruct (Hstt stt_garbled fox_sentence w1) as [_ Hjson];
      [vm_compute; reflexivity|].
    destruct (Hjson wav (Response 200 html_body) JSONDecodeError)
      as [_ Hloop]; [vm_compute; reflexivity..|].
    eexists. split; [apply Hloop|]. vm_compute. reflexivity.
  - pose (w1 := (run (s ← pick_sentence; generate_reference s;;
                      record_attempt;; t ← transcribe; ret (s, t))
                     assess_not_utf8).2).
    destruct (Hassess assess_not_utf8 fox_sentence heard w1) as [_ Hjson];
      [vm_compute; reflexivity|].
    destruct (Hjson wav (Response 200 not_utf8) UnicodeDecodeError)
      as [_ Hloop]; [vm_compute; reflexivity..|].
    eexists. split; [apply Hloop|]. vm_compute. reflexivity.
Defined.

(** The learner picks sentence 5; the three services answer. *)
Lemma iteration_without_failure_witness :
  ∃ w2 events,
    run main_iteration happy
    = run (print_feedback (assessment_dict fox) heard fox_sentence) w2
    ∧ trace w2 = trace (run pick_sentence happy).2 ++ events
    ∧ requests events =
      [ Request (BASE_URL +:+ "/tts/synthesize")
                (TtsPayload fox_sentence "af_heart" (9 # 10) "wav");
        Request (BASE_URL +:+ "/stt/transcribe/base64") (SttPayload wav true);
        Request (BASE_URL +:+ "/pronunciation/assess/base64")
                (AssessPayload wav fox_sentence "wav") ].
Proof.
  destruct (iteration_without_failure happy fox_sentence
              (run pick_sentence happy).2 (Response 200 wav)
              EmptyString [] wav wav
              (Response 200 heard_body)
              (Response 200 fox_body)
              heard (assessment_dict fox))
    as (w2 & events & Hrun & Htrace & _ & Hreq & _);
    [vm_compute; reflexivity..|].
  exists w2, events. split_and!; [exact Hrun|exact Htrace|exact Hreq].
Defined.

End IterationExamples.

(* ===================================================================== *)
(** * The menu and the choice                                             *)
(* ===================================================================== *)

Section Menu.

Context {decoder : Decoder}.

Lemma elem_of_enumerate {A} (l : list A) start i x :
  (i, x) ∈ enumerate start l ↔ start ≤ i ∧ l !! Z.to_nat (i - start) = Some x.
Proof.
  revert start. induction l as [|y l IH]; intros start; simpl.
  - split; [intros H; by apply elem_of_nil in H|by intros [_ ?]].
  - rewrite elem_of_cons, IH. split.
    + intros [[= -> ->]|[Hi Hx]].
      * split; [lia|]. by replace (start - start) with 0 by lia.
      * split; [lia|].
        replace (Z.to_nat (i - start)) with (S (Z.to_nat (i - (start + 1))))
          by lia.
        done.
    + intros [Hi Hx]. destruct (decide (i = start)) as [->|Hne].
      * left. replace (start - start) with 0 in Hx by lia.
        simpl in Hx. by injection Hx as ->.
      * right. split; [lia|].
        replace (Z.to_nat (i - start)) with (S (Z.to_nat (i - (start + 1))))
          in Hx by lia.
        done.
Qed.

(** The letters of the quit tokens, in either case. *)
Lemma lower_char_inv c :
  (lower_char c = "q"%char → c = "q"%char ∨ c = "Q"%char)
  ∧ (lower_char c = "u"%char → c = "u"%char ∨ c = "U"%char)
  ∧ (lower_char c = "i"%char → c = "i"%char ∨ c = "I"%char)
  ∧ (lower_char c = "t"%char → c = "t"%char ∨ c = "T"%char)
  ∧ (lower_char c = "e"%char → c = "e"%char ∨ c = "E"%char)
  ∧ (lower_char c = "x"%char → c = "x"%char ∨ c = "X"%char).
Proof.
  destruct c as [[] [] [] [] [] [] [] []];
    split_and!; intros H; vm_compute in H; try discriminate H; auto.
Qed.

Ltac letters :=
  repeat match goal with
         | H : lower ?s = _ |- _ =>
             destruct s; cbn [lower] in H;
             [try discriminate H | try discriminate H; injection H as ? H]
         end;
  repeat match goal with
         | H : lower_char ?c = _ |- _ =>
             first [ apply (proj1 (lower_char_inv c)) in H
                   | apply (proj1 (proj2 (lower_char_inv c))) in H
                   | apply (proj1 (proj2 (proj2 (lower_char_inv c)))) in H
                   | apply (proj1 (proj2 (proj2 (proj2 (lower_char_inv c))))) in H
                   | apply (proj1 (proj2 (proj2 (proj2 (proj2 (lower_char_inv c)))))) in H
                   | apply (proj2 (proj2 (proj2 (proj2 (proj2 (lower_char_inv c)))))) in H ];
             destruct H as [-> | ->]
         end.

(** [int] accepts none of the quit tokens. *)
Lemma quit_token_not_int s :
  lower s ∈ ["q"; "quit"; "exit"] → py_int s = inl ValueError.
Proof.
  intros H. repeat (apply elem_of_cons in H as [H|H]).
  - letters; reflexivity.
  - letters; reflexivity.
  - letters; reflexivity.
  - by apply elem_of_nil in H.
Qed.

(** X14.  The menu and the choice agree.  [main] first prints the banner
    and the menu, in which the sentences are numbered from 1 in the order
    of [SENTENCES], and then runs the loop.  At any prompt of the loop, a
    line that [int] reads as [n] chooses a sentence exactly when the menu
    has an entry with the number [n], and the sentence chosen is the one
    of that entry.  Such a line is never taken for a request to quit. *)
Theorem menu_number_selects_its_sentence fuel w :
  let banner :=
    [ Text (times "=" 60);
      Text "  PRONUNCIATION TUTOR";
      Text "  Practice your English pronunciation with AI feedback";
      Text (times "=" 60);
      Text (nl +:+ "Available sentences:" +:+ nl) ] in
  let menu :=
    [ MenuEntry 1 "Hello, how are you?";
      MenuEntry 2 "The weather is nice today.";
      MenuEntry 3 "She sells seashells by the seashore.";
      MenuEntry 4 "I would like a cup of coffee, please.";
      MenuEntry 5 "The quick brown fox jumps over the lazy dog.";
      MenuEntry 6 "Peter Piper picked a peck of pickled peppers.";
      MenuEntry 7 "How much wood would a woodchuck chuck if a woodchuck could chuck wood?" ] in
  run (main fuel) w
  = run (while_true fuel main_iteration) (prints (banner ++ menu) w)
  ∧ ∀ w' line rest n sentence,
      stdin w' = line :: rest →
      py_int (strip line) = inr n →
      lower (strip line) ∉ ["q"; "quit"; "exit"]
      ∧ (MenuEntry n sentence ∈ menu ↔
         run pick_sentence w' =
         (Returns sentence,
          prints [TargetSentence sentence] (picked line rest w'))).
Proof.
  intros banner menu. split.
  { unfold main. rewrite !run_bind_print, run_bind, run_menu. f_equal.
    unfold banner.
    rewrite prints_app, (prints_cons _ [_; _; _; _]), (prints_cons _ [_; _; _]),
      (prints_cons _ [_; _]), (prints_cons _ [_]).
    reflexivity. }
  intros w' line rest n sentence Hin Hint.
  assert (lower (strip line) ∉ ["q"; "quit"; "exit"]) as Hq.
  { intros Hq. apply quit_token_not_int in Hq. congruence. }
  split; [done|].
  assert (MenuEntry n sentence ∈ menu ↔ (n, sentence) ∈ enumerate 1 SENTENCES)
    as ->.
  { change menu
      with ((λ '(i, sentence), MenuEntry i sentence) <$> enumerate 1 SENTENCES).
    rewrite list_elem_of_fmap. split.
    - by intros ([i s] & [= -> ->] & Hentry).
    - intros Hentry. by exists (n, sentence). }
  rewrite elem_of_enumerate. split.
  - intros [Hn Hs].
    destruct (run_pick_sentence_valid w' line rest n) as (s & Hs' & Hrun);
      try done.
    { apply lookup_lt_Some in Hs. unfold len. lia. }
    congruence.
  - intros Hrun.
    destruct (run_pick_sentence_cases w')
      as [[Hnil _]|(line' & rest' & Hin' &
                   [[Hq' _]|[(_ & _ & H)|(_ & n' & s & Hint' & Hn & Hs & H)]])].
    + congruence.
    + rewrite Hin in Hin'. injection Hin' as <- <-. done.
    + rewrite H in Hrun. discriminate.
    + rewrite Hin in Hin'. injection Hin' as <- <-.
      rewrite H in Hrun. injection Hrun as <-.
      rewrite Hint in Hint'. injection Hint' as <-. split; [lia|done].
Qed.

End Menu.

(** Examples, with the decoder of the sample bodies. *)
Section MenuExamples.

#[local] Existing Instance sample_decoder.

(** " 3 " chooses the third entry of the menu; "0" and "8" choose none. *)
Lemma menu_number_selects_its_sentence_witness :
  run pick_sentence (session [" 3 "] [] false) =
  (Returns "She sells seashells by the seashore.",
   prints [TargetSentence "She sells seashells by the seashore."]
          (picked " 3 " [] (session [" 3 "] [] false)))
  ∧ (∀ sentence,
       run pick_sentence (session ["8"] [] false) ≠
       (Returns sentence,
        prints [TargetSentence sentence] (picked "8" [] (session ["8"] [] false)))).
Proof.
  destruct (menu_number_selects_its_sentence 0 quiet) as [_ Hmenu].
  split.
  - destruct (Hmenu (session [" 3 "] [] false) " 3 " [] 3
                "She sells seashells by the seashore." eq_refl eq_refl)
      as [_ [Hpick _]].
    apply Hpick. do 2 apply list_elem_of_further. apply list_elem_of_here.
  - intros sentence Hrun.
    destruct (Hmenu (session ["8"] [] false) "8" [] 8 sentence eq_refl eq_refl)
      as [_ [_ Hentry]].
    specialize (Hentry Hrun).
    repeat (apply elem_of_cons in Hentry as [[=]|Hentry]).
    by apply elem_of_nil in Hentry.
Defined.

End MenuExamples.
